(** * mastodon-to-hugo: the archive-to-Markdown compiler

    A shallow embedding of the two programs of the repository:
    - [main.go], the zip-archive converter ([htmlToText], [extractMedia],
      [collectToots], [buildThreads], [writeToot], [writeMarkdownFiles]);
    - [mastodon-to-hugo.go], the expanded-archive converter
      ([selfPublishFilter], [newOutbox], [renderTootsToDisk] and its
      text/template bodies).

    Go strings are byte sequences, modelled by [string] (a list of 8-bit
    [ascii]).  Go maps are [gmap]s.  Writes to an [*os.File] append to a
    [string]; writes to [os.Stderr] append to a list of lines. *)

From Stdlib Require Import ZArith Lia Ascii.
From stdpp Require Import base option list sorting gmap strings pretty.

#[local] Open Scope stdpp_scope.

(** ** Byte constants *)

Definition byte (n : nat) : ascii := Ascii.ascii_of_nat n.
Definition bytes (l : list nat) : string :=
  foldr (fun n s => String (byte n) s) EmptyString l.

Definition LF : ascii := byte 10.
Definition nl : string := String LF EmptyString.
Definition dq : string := String (byte 34) EmptyString.

(** ** The [strings] package, as far as the programs use it *)

Fixpoint strings_HasPrefix (s prefix : string) {struct prefix} : bool :=
  match prefix with
  | EmptyString => true
  | String a prefix' =>
      match s with
      | EmptyString => false
      | String b s' => Ascii.eqb a b && strings_HasPrefix s' prefix'
      end
  end.

Fixpoint string_drop (n : nat) (s : string) : string :=
  match n, s with
  | O, _ => s
  | S _, EmptyString => EmptyString
  | S n', String _ s' => string_drop n' s'
  end.

Definition strings_TrimPrefix (s prefix : string) : string :=
  if strings_HasPrefix s prefix then string_drop (String.length prefix) s else s.

Fixpoint strings_Contains (s substr : string) : bool :=
  strings_HasPrefix s substr ||
  match s with
  | EmptyString => false
  | String _ s' => strings_Contains s' substr
  end.

(** [strings.Split] and [strings.ReplaceAll] are only called with the
    one-byte separator ["\n"]; the model takes that byte. *)
Fixpoint strings_Split (s : string) (sep : ascii) : list string :=
  match s with
  | EmptyString => [EmptyString]
  | String c s' =>
      if Ascii.eqb c sep then EmptyString :: strings_Split s' sep
      else match strings_Split s' sep with
           | [] => [String c EmptyString]
           | h :: t => String c h :: t
           end
  end.

Fixpoint strings_Join (elems : list string) (sep : string) : string :=
  match elems with
  | [] => EmptyString
  | [x] => x
  | x :: xs => x +:+ sep +:+ strings_Join xs sep
  end.

Fixpoint strings_ReplaceAll (s : string) (old : ascii) (new : string) : string :=
  match s with
  | EmptyString => EmptyString
  | String c s' =>
      if Ascii.eqb c old then new +:+ strings_ReplaceAll s' old new
      else String c (strings_ReplaceAll s' old new)
  end.

Fixpoint string_rev (s : string) : string :=
  match s with
  | EmptyString => EmptyString
  | String c s' => string_rev s' +:+ String c EmptyString
  end.

(** [unicode.IsSpace], on the UTF-8 encodings of its runes:
    U+0009..U+000D, U+0020, U+0085, U+00A0, U+1680, U+2000..U+200A,
    U+2028, U+2029, U+202F, U+205F, U+3000. *)
Definition space_runes : list string :=
  [ bytes [9]; bytes [10]; bytes [11]; bytes [12]; bytes [13]; bytes [32];
    bytes [194; 133]; bytes [194; 160]; bytes [225; 154; 128];
    bytes [226; 128; 128]; bytes [226; 128; 129]; bytes [226; 128; 130];
    bytes [226; 128; 131]; bytes [226; 128; 132]; bytes [226; 128; 133];
    bytes [226; 128; 134]; bytes [226; 128; 135]; bytes [226; 128; 136];
    bytes [226; 128; 137]; bytes [226; 128; 138]; bytes [226; 128; 168];
    bytes [226; 128; 169]; bytes [226; 128; 175]; bytes [226; 129; 159];
    bytes [227; 128; 128] ].

(** Width in bytes of the space rune that [s] starts with, [0] if none. *)
Fixpoint rune_width (runes : list string) (s : string) : nat :=
  match runes with
  | [] => 0
  | r :: runes' =>
      if strings_HasPrefix s r then String.length r else rune_width runes' s
  end.

(** Drops [skip] bytes, then every leading rune of [runes]. *)
Fixpoint trim_left (runes : list string) (skip : nat) (s : string) : string :=
  match s with
  | EmptyString => EmptyString
  | String _ s' =>
      match skip with
      | S k => trim_left runes k s'
      | O =>
          match rune_width runes s with
          | O => s
          | S k => trim_left runes k s'
          end
      end
  end.

Definition strings_TrimLeftSpace (s : string) : string :=
  trim_left space_runes 0 s.

Definition strings_TrimRightSpace (s : string) : string :=
  string_rev (trim_left (map string_rev space_runes) 0 (string_rev s)).

Definition strings_TrimSpace (s : string) : string :=
  strings_TrimRightSpace (strings_TrimLeftSpace s).

(** ** Library interfaces

    The programs call four library routines whose code is not part of the
    repository.  They are the fields of [GoRuntime]; [GoRuntimeLaws] states
    the part of their documented contracts that the proofs rely on. *)

(** [html.Node] of golang.org/x/net/html: [FirstChild]/[NextSibling] chains
    are the list [Children]. *)
Inductive NodeType :=
  ErrorNode | TextNode | DocumentNode | ElementNode | CommentNode | DoctypeNode | RawNode.

#[global] Instance NodeType_eq_dec : EqDecision NodeType.
Proof. solve_decision. Defined.

Record Attribute := { Attr_Namespace : string; Attr_Key : string; Attr_Val : string }.

#[warnings="-register-all"]
Inductive Node :=
  MkNode (type : NodeType) (data : string) (attr : list Attribute) (children : list Node).

Definition Node_Type (n : Node) : NodeType := let 'MkNode t _ _ _ := n in t.
Definition Node_Data (n : Node) : string := let 'MkNode _ d _ _ := n in d.
Definition Node_Attr (n : Node) : list Attribute := let 'MkNode _ _ a _ := n in a.
Definition Node_Children (n : Node) : list Node := let 'MkNode _ _ _ c := n in c.

Definition textNode (s : string) : Node := MkNode TextNode s [] [].
Definition element (name : string) (attrs : list Attribute) (kids : list Node) : Node :=
  MkNode ElementNode name attrs kids.

(** The whitespace of the HTML parser: space, tab, LF, FF, CR. *)
Definition isHtmlSpace (c : ascii) : bool :=
  let n := nat_of_ascii c in
  Nat.eqb n 32 || Nat.eqb n 9 || Nat.eqb n 10 || Nat.eqb n 12 || Nat.eqb n 13.

Fixpoint string_trim_left (p : ascii -> bool) (s : string) : string :=
  match s with
  | String c s' => if p c then string_trim_left p s' else s
  | EmptyString => EmptyString
  end.

(** Text without markup: no [<], no [&], no NUL and no CR byte.  (The
    parser turns a character reference into the character, drops NUL and
    turns CR into LF.) *)
Definition isPlainByte (c : ascii) : bool :=
  let n := nat_of_ascii c in
  negb (Nat.eqb n 60 || Nat.eqb n 38 || Nat.eqb n 0 || Nat.eqb n 13).

Fixpoint isPlainText (s : string) : bool :=
  match s with
  | EmptyString => true
  | String c s' => isPlainByte c && isPlainText s'
  end.

(** The tree of the HTML5 algorithm for text without markup: [html] with an
    empty [head] and a [body] that holds the text, less its leading
    whitespace, as one text node. *)
Definition plainDocument (s : string) : Node :=
  let text := string_trim_left isHtmlSpace s in
  MkNode DocumentNode "" []
    [element "html" []
       [element "head" [] [];
        element "body" [] (if String.eqb text "" then [] else [textNode text])]].

(** The fields of [time.Time] that the programs read. *)
Record Time := { Year : Z; Month : Z; Day : Z }.

Class GoRuntime := {
  (** [html.Parse(strings.NewReader(s))]: the document node, or the error text. *)
  html_Parse : string -> Node + string;
  (** [time.Parse(time.RFC3339, s)]: the time, or the error text. *)
  time_Parse_RFC3339 : string -> Time + string;
  (** [sort.Slice] and [sort.Sort], given the [less] function: the order of
      elements that [less] does not separate is not specified. *)
  sort_Slice : forall A : Type, (A -> A -> bool) -> list A -> list A;
  (** [filepath.Join(dir, name)]. *)
  filepath_Join : string -> string -> string;
}.
Arguments sort_Slice {_ _} _ _.

(** What [sort.Slice] promises for a [less] that is a strict weak ordering. *)
Record StrictWeakOrder {A : Type} (less : A -> A -> bool) : Prop := {
  swo_irrefl : forall a, less a a = false;
  swo_trans : forall a b c, less a b = true -> less b c = true -> less a c = true;
  swo_incomp : forall a b c,
    less a b = false -> less b a = false ->
    less b c = false -> less c b = false ->
    less a c = false /\ less c a = false;
}.

Class GoRuntimeLaws (R : GoRuntime) : Prop := {
  sort_Slice_perm : forall (A : Type) (less : A -> A -> bool) (l : list A),
    sort_Slice less l ≡ₚ l;
  sort_Slice_sorted : forall (A : Type) (less : A -> A -> bool) (l : list A),
    StrictWeakOrder less ->
    Sorted (fun a b => less b a = false) (sort_Slice less l);
}.

(** What [html.Parse] does on text without markup. *)
Definition ParsesPlainText (R : GoRuntime) : Prop :=
  forall s, isPlainText s = true -> html_Parse s = inl (plainDocument s).

(** [filepath.Base] on a slash-separated path. *)
Fixpoint trim_trailing_slashes_rev (r : string) : string :=
  match r with
  | String c r' => if Ascii.eqb c "/" then trim_trailing_slashes_rev r' else r
  | EmptyString => EmptyString
  end.

Fixpoint take_until_slash (r : string) : string :=
  match r with
  | String c r' => if Ascii.eqb c "/" then EmptyString else String c (take_until_slash r')
  | EmptyString => EmptyString
  end.

Definition filepath_Base (path : string) : string :=
  if String.eqb path "" then "."
  else
    let r := trim_trailing_slashes_rev (string_rev path) in
    let last := string_rev (take_until_slash r) in
    if String.eqb last "" then "/" else last.

(** Decimal rendering, [%d] and zero-padded [%.Nd], of a non-negative integer. *)
Definition digit (n : Z) : string := String (byte (48 + Z.to_nat (n mod 10))) "".

Fixpoint zero_padded (width : nat) (n : Z) : string :=
  match width with
  | O => ""
  | S w => zero_padded w (n / 10) +:+ digit n
  end.

(** [t.Format("2006-01-02")] and [t.Format("2006")], for years 0..9999. *)
Definition Format_date (t : Time) : string :=
  zero_padded 4 (Year t) +:+ "-" +:+ zero_padded 2 (Month t) +:+ "-" +:+ zero_padded 2 (Day t).

(** * main.go *)

Module Main.

(** ** Data model *)

Record Attachment := {
  Attachment_Type : string;
  Attachment_MediaType : string;
  Attachment_URL : string;
  Attachment_Name : string;
}.

Record Tag := { Tag_Type : string; Tag_Href : string; Tag_Name : string }.

(** [*string] fields are [option string]: [None] is the nil pointer. *)
Record Note := {
  Note_ID : string;
  Note_URL : string;
  Note_Published : string;
  Note_Content : string;
  Note_Summary : option string;
  Note_InReplyTo : option string;
  Note_Sensitive : bool;
  Note_Attachment : list Attachment;
  Note_Tag : list Tag;
  Note_To : list string;
  Note_Cc : list string;
}.

(** [activity.Object] is a [json.RawMessage]; what matters to the program is
    whether [json.Unmarshal(activity.Object, &note)] succeeds, and with which
    note.  A bare JSON string (a boost) is one of the payloads it rejects. *)
Inductive RawMessage :=
  | RawNote (note : Note)
  | RawInvalid.

Record Activity := {
  Activity_Published : string;
  Activity_Actor : string;
  Activity_Object : RawMessage;
}.

Record Archive := { OrderedItems : list Activity }.

Record ActivityWithNote := {
  Published : string;
  Object : Note;
  Actor : string;
}.

Record TootThread := {
  Root : ActivityWithNote;
  Replies : list ActivityWithNote;
}.

Record Stats := {
  TotalProcessed : Z;
  TootsOutput : Z;
  PrivateSkipped : Z;
  RepliesToOthers : Z;
  EmptyContent : Z;
}.

(** ** [htmlToText] *)

(** The [for _, attr := range n.Attr] loop of an [a] element:
    [(isHashtag, isMention, href)]. *)
Fixpoint scanLinkAttrs (attrs : list Attribute) (acc : bool * bool * string)
  : bool * bool * string :=
  match attrs with
  | [] => acc
  | attr :: rest =>
      let '(isHashtag, isMention, href) := acc in
      let href := if String.eqb (Attr_Key attr) "href" then Attr_Val attr else href in
      if String.eqb (Attr_Key attr) "class" then
        scanLinkAttrs rest
          (isHashtag || strings_Contains (Attr_Val attr) "hashtag",
           isMention || strings_Contains (Attr_Val attr) "mention",
           href)
      else scanLinkAttrs rest (isHashtag, isMention, href)
  end.

(** The closure [extractText], with [mentionText] passed through. *)
Fixpoint extractText (node : Node) (mentionText : string) : string :=
  let 'MkNode type data _ children := node in
  let mentionText :=
    if decide (type = TextNode) then mentionText +:+ data else mentionText in
  (fix each (cs : list Node) (mentionText : string) : string :=
     match cs with
     | [] => mentionText
     | c :: cs' => each cs' (extractText c mentionText)
     end) children mentionText.

(** The closure [traverse], with the [strings.Builder] [text] passed through. *)
Fixpoint traverse (n : Node) (skipChildren : bool) (text : string) : string :=
  if skipChildren then text
  else
    let 'MkNode type data attr children := n in
    let text := if decide (type = TextNode) then text +:+ data else text in
    let each :=
      fix each (cs : list Node) (text : string) : string :=
        match cs with
        | [] => text
        | c :: cs' => each cs' (traverse c false text)
        end in
    if decide (type = ElementNode) then
      let text :=
        if String.eqb data "br" || String.eqb data "p" then text +:+ nl else text in
      if String.eqb data "a" then
        let '(isHashtag, isMention, href) := scanLinkAttrs attr (false, false, "") in
        if isHashtag then text
        else if isMention then
          let mentionText := extractText n "" in
          if negb (String.eqb mentionText "") && negb (String.eqb href "")
          then text +:+ "[" +:+ mentionText +:+ "](" +:+ href +:+ ")"
          else text
        else if negb (String.eqb href "") then text +:+ "<" +:+ href +:+ ">"
        else each children text
      else each children text
    else each children text.

(** Lines 139-153: the clean-up of the collected text. *)
Definition wrapBareURL (line : string) : string :=
  if strings_HasPrefix line "http://" || strings_HasPrefix line "https://"
  then "<" +:+ line +:+ ">"
  else line.

(** The [for _, line := range lines] loop, appending to [cleaned]. *)
Fixpoint cleanLines (lines cleaned : list string) : list string :=
  match lines with
  | [] => cleaned
  | line :: rest =>
      let line := strings_TrimSpace line in
      if String.eqb line "" then cleanLines rest cleaned
      else cleanLines rest (cleaned ++ [wrapBareURL line])
  end.

Definition cleanedLines (text : string) : list string :=
  let result := strings_TrimSpace text in
  let lines := strings_Split result LF in
  cleanLines lines [].

Definition cleanupText (text : string) : string :=
  strings_Join (cleanedLines text) (nl +:+ nl).

Definition htmlToText `{GoRuntime} (htmlContent : string) : string :=
  match html_Parse htmlContent with
  | inr _ => htmlContent
  | inl doc => cleanupText (traverse doc false "")
  end.

(** ** [extractMedia] *)

(** What the I/O on one archive entry does: [f.Open()] fails, or it succeeds
    and [io.Copy] writes [copied] to the destination and returns [copyErr]. *)
Inductive OpenResult :=
  | OpenError (err : string)
  | OpenOK (copied : string) (copyErr : option string).

Record ZipFile := { File_Name : string; File_Open : OpenResult }.

(** The map under construction, the files on disk, and what went to stderr. *)
Record MediaState := {
  extractedMedia : gmap string string;
  disk : gmap string string;
  stderr : list string;
}.

(** One iteration of [for _, f := range r.File]; [createErr path] is the error
    of [os.Create(path)], if any. *)
Definition extractEntry `{GoRuntime} (createErr : string -> option string)
    (mediaDir : string) (st : MediaState) (f : ZipFile) : MediaState :=
  if negb (strings_HasPrefix (File_Name f) "media_attachments/") then st
  else
    let filename := filepath_Base (File_Name f) in
    let destPath := filepath_Join mediaDir filename in
    match extractedMedia st !! File_Name f with
    | Some _ => st
    | None =>
        match File_Open f with
        | OpenError err =>
            {| extractedMedia := extractedMedia st; disk := disk st;
               stderr := stderr st ++
                 ["Error opening media file " +:+ File_Name f +:+ ": " +:+ err +:+ nl] |}
        | OpenOK copied copyErr =>
            match createErr destPath with
            | Some err =>
                {| extractedMedia := extractedMedia st; disk := disk st;
                   stderr := stderr st ++
                     ["Error creating media file " +:+ destPath +:+ ": " +:+ err +:+ nl] |}
            | None =>
                let disk' := <[destPath := copied]> (disk st) in
                match copyErr with
                | Some err =>
                    {| extractedMedia := extractedMedia st; disk := disk';
                       stderr := stderr st ++
                         ["Error copying media file " +:+ File_Name f +:+ ": " +:+ err +:+ nl] |}
                | None =>
                    {| extractedMedia := <[File_Name f := filename]> (extractedMedia st);
                       disk := disk'; stderr := stderr st |}
                end
            end
        end
    end.

Definition extractLoop `{GoRuntime} (createErr : string -> option string)
    (mediaDir : string) (files : list ZipFile) (st : MediaState) : MediaState :=
  foldl (extractEntry createErr mediaDir) st files.

(** [extractMedia]: the returned map and error, with the final state. *)
Definition extractMedia `{GoRuntime} (createErr : string -> option string)
    (files : list ZipFile) (mediaDir : string) (disk0 : gmap string string)
  : gmap string string * option string * MediaState :=
  let st := extractLoop createErr mediaDir files
              {| extractedMedia := ∅; disk := disk0; stderr := [] |} in
  (extractedMedia st, None, st).

(** ** [collectToots] *)

Definition publicURI : string := "https://www.w3.org/ns/activitystreams#Public".

Definition slices_Contains (s : list string) (v : string) : bool :=
  existsb (String.eqb v) s.

Definition incTotalProcessed (st : Stats) : Stats :=
  {| TotalProcessed := TotalProcessed st + 1; TootsOutput := TootsOutput st;
     PrivateSkipped := PrivateSkipped st; RepliesToOthers := RepliesToOthers st;
     EmptyContent := EmptyContent st |}.
Definition incTootsOutput (st : Stats) : Stats :=
  {| TotalProcessed := TotalProcessed st; TootsOutput := TootsOutput st + 1;
     PrivateSkipped := PrivateSkipped st; RepliesToOthers := RepliesToOthers st;
     EmptyContent := EmptyContent st |}.
Definition incPrivateSkipped (st : Stats) : Stats :=
  {| TotalProcessed := TotalProcessed st; TootsOutput := TootsOutput st;
     PrivateSkipped := PrivateSkipped st + 1; RepliesToOthers := RepliesToOthers st;
     EmptyContent := EmptyContent st |}.
Definition incRepliesToOthers (st : Stats) : Stats :=
  {| TotalProcessed := TotalProcessed st; TootsOutput := TootsOutput st;
     PrivateSkipped := PrivateSkipped st; RepliesToOthers := RepliesToOthers st + 1;
     EmptyContent := EmptyContent st |}.
Definition incEmptyContent (st : Stats) : Stats :=
  {| TotalProcessed := TotalProcessed st; TootsOutput := TootsOutput st;
     PrivateSkipped := PrivateSkipped st; RepliesToOthers := RepliesToOthers st;
     EmptyContent := EmptyContent st + 1 |}.

Definition zeroStats : Stats :=
  {| TotalProcessed := 0; TootsOutput := 0; PrivateSkipped := 0;
     RepliesToOthers := 0; EmptyContent := 0 |}.

(** [note.InReplyTo != nil && *note.InReplyTo != ""], and then whether the
    target fails to contain [actor]. *)
Definition repliesToOther (inReplyTo : option string) (actor : string) : bool :=
  match inReplyTo with
  | Some target =>
      negb (String.eqb target "") && negb (strings_Contains target actor)
  | None => false
  end.

(** One iteration of [for _, activity := range archive.OrderedItems], on the
    pair of [allToots] and [*stats]. *)
Definition collectStep (st : list ActivityWithNote * Stats) (activity : Activity)
  : list ActivityWithNote * Stats :=
  let '(allToots, stats) := st in
  match Activity_Object activity with
  | RawInvalid => (allToots, stats)
  | RawNote note =>
      let stats := incTotalProcessed stats in
      if String.eqb (Note_Content note) "" then (allToots, incEmptyContent stats)
      else
        let isPublic :=
          slices_Contains (Note_To note) publicURI
          || slices_Contains (Note_Cc note) publicURI in
        if negb isPublic then (allToots, incPrivateSkipped stats)
        else if repliesToOther (Note_InReplyTo note) (Activity_Actor activity)
        then (allToots, incRepliesToOthers stats)
        else
          (allToots ++ [{| Published := Activity_Published activity;
                           Object := note;
                           Actor := Activity_Actor activity |}],
           incTootsOutput stats)
  end.

Definition collectToots (archive : Archive) (stats : Stats)
  : list ActivityWithNote * Stats :=
  foldl collectStep ([], stats) (OrderedItems archive).

(** ** [buildThreads] *)

Definition lessPublished (a b : ActivityWithNote) : bool :=
  String.ltb (Published a) (Published b).

(** The recursive closure [findReplies].  The recursion of the program has no
    bound of its own; [fuel] bounds its depth, and [None] says that the depth
    was not enough. *)
Fixpoint findReplies `{GoRuntime} (fuel : nat) (allToots : list ActivityWithNote)
    (parentID : string) : option (list ActivityWithNote) :=
  match fuel with
  | O => None
  | S fuel' =>
      let each :=
        fix each (candidates replies : list ActivityWithNote)
          : option (list ActivityWithNote) :=
          match candidates with
          | [] => Some replies
          | candidate :: rest =>
              if decide (Note_InReplyTo (Object candidate) = Some parentID) then
                match findReplies fuel' allToots (Note_ID (Object candidate)) with
                | None => None
                | Some sub => each rest ((replies ++ [candidate]) ++ sub)
                end
              else each rest replies
          end in
      match each allToots [] with
      | None => None
      | Some replies => Some (sort_Slice lessPublished replies)
      end
  end.

Definition isSelfReply (toot : ActivityWithNote) : bool :=
  match Note_InReplyTo (Object toot) with
  | Some target =>
      negb (String.eqb target "") && strings_Contains target (Actor toot)
  | None => false
  end.

(** [threadsByDate[dateKey] = append(threadsByDate[dateKey], thread)] *)
Definition appendThread (threadsByDate : gmap string (list TootThread))
    (dateKey : string) (thread : TootThread) : gmap string (list TootThread) :=
  <[dateKey := default [] (threadsByDate !! dateKey) ++ [thread]]> threadsByDate.

(** The loop [for _, toot := range allToots] over the remaining [toots], on
    the pair of [threadsByDate] and stderr. *)
Fixpoint buildLoop `{GoRuntime} (fuel : nat) (allToots toots : list ActivityWithNote)
    (st : gmap string (list TootThread) * list string)
  : option (gmap string (list TootThread) * list string) :=
  match toots with
  | [] => Some st
  | toot :: rest =>
      if isSelfReply toot then buildLoop fuel allToots rest st
      else
        match findReplies fuel allToots (Note_ID (Object toot)) with
        | None => None
        | Some replies =>
            let thread := {| Root := toot; Replies := replies |} in
            match time_Parse_RFC3339 (Published toot) with
            | inr err =>
                buildLoop fuel allToots rest
                  (st.1, st.2 ++ ["Error parsing date " +:+ Published toot +:+ ": "
                                   +:+ err +:+ nl])
            | inl t =>
                buildLoop fuel allToots rest
                  (appendThread st.1 (Format_date t) thread, st.2)
            end
        end
  end.

Definition buildThreads `{GoRuntime} (fuel : nat) (allToots : list ActivityWithNote)
  : option (gmap string (list TootThread) * list string) :=
  buildLoop fuel allToots allToots (∅, []).

(** ** [writeToot]

    The file [f] is the text written to it so far; every [fmt.Fprintf(f, ...)]
    appends, and its error result is dropped by the program. *)

(** The body of [for _, att := range toot.Object.Attachment]. *)
Definition writeAttachment (f : string) (att : Attachment)
    (extractedMedia : gmap string string) : string :=
  let archivePath := strings_TrimPrefix (Attachment_URL att) "/" in
  match extractedMedia !! archivePath with
  | Some filename =>
      let isImage := strings_HasPrefix (Attachment_MediaType att) "image/" in
      let relPath := "/mastodon/media/" +:+ filename in
      if isImage then
        let altText :=
          if String.eqb (Attachment_Name att) "" then "attachment"
          else Attachment_Name att in
        f +:+ "![" +:+ altText +:+ "](" +:+ relPath +:+ ")" +:+ nl
      else
        let linkText :=
          if String.eqb (Attachment_Name att) "" then filename
          else Attachment_Name att in
        f +:+ "[" +:+ linkText +:+ "](" +:+ relPath +:+ ")" +:+ nl
  | None =>
      f +:+ "[Attachment: " +:+ Attachment_MediaType att +:+ "]("
        +:+ Attachment_URL att +:+ ")" +:+ nl
  end.

Definition writeAttachments (f : string) (atts : list Attachment)
    (extractedMedia : gmap string string) : string :=
  foldl (fun f att => writeAttachment f att extractedMedia) f atts.

(** The [hashtags] slice. *)
Fixpoint hashtagNames (tags : list Tag) (hashtags : list string) : list string :=
  match tags with
  | [] => hashtags
  | tag :: rest =>
      if String.eqb (Tag_Type tag) "Hashtag"
      then hashtagNames rest (hashtags ++ [Tag_Name tag])
      else hashtagNames rest hashtags
  end.

(** [for i, tag := range hashtags], from index [i]. *)
Fixpoint writeHashtags (f : string) (i : nat) (hashtags : list string) : string :=
  match hashtags with
  | [] => f
  | tag :: rest =>
      let f := if Nat.ltb 0 i then f +:+ ", " else f in
      writeHashtags (f +:+ "`" +:+ tag +:+ "`") (S i) rest
  end.

(** The bytes that follow "Mastodon Source " in the source file. *)
Definition sourceLinkMark : string := bytes [195; 176; 197; 184; 203; 156].

(** The block [if headerLevel == "##"]: the header of a root toot. *)
Definition writeHeader (f headerLevel content : string) : string :=
  if String.eqb headerLevel "##" then
    let singleLineContent := strings_ReplaceAll content LF " " in
    let headerText :=
      if Nat.ltb 100 (String.length singleLineContent)
      then String.substring 0 97 singleLineContent +:+ "..."
      else singleLineContent in
    f +:+ headerLevel +:+ " " +:+ headerText +:+ nl +:+ nl
  else f.

(** The block [if len(toot.Object.Attachment) > 0]. *)
Definition writeAttachmentBlock (f : string) (atts : list Attachment)
    (extractedMedia : gmap string string) : string :=
  if Nat.ltb 0 (length atts) then writeAttachments (f +:+ nl) atts extractedMedia
  else f.

(** The block [if toot.Object.Summary != nil && *toot.Object.Summary != ""]. *)
Definition writeContentWarning (f : string) (summary : option string) : string :=
  match summary with
  | Some summary =>
      if negb (String.eqb summary "")
      then f +:+ nl +:+ "*Content Warning: " +:+ summary +:+ "*" +:+ nl
      else f
  | None => f
  end.

(** The block [if len(toot.Object.Tag) > 0]. *)
Definition writeTagBlock (f : string) (tags : list Tag) : string :=
  if Nat.ltb 0 (length tags) then
    let hashtags := hashtagNames tags [] in
    if Nat.ltb 0 (length hashtags) then
      writeHashtags (f +:+ nl +:+ "<small><b>Tags:</b> ") 0 hashtags
        +:+ "</small>" +:+ nl
    else f
  else f.

Definition writeToot `{GoRuntime} (f : string) (toot : ActivityWithNote)
    (headerLevel : string) (extractedMedia : gmap string string) : string :=
  let content := htmlToText (Note_Content (Object toot)) in
  let f := writeHeader f headerLevel content in
  let f := f +:+ content +:+ nl in
  let f := writeAttachmentBlock f (Note_Attachment (Object toot)) extractedMedia in
  let f := writeContentWarning f (Note_Summary (Object toot)) in
  let f := writeTagBlock f (Note_Tag (Object toot)) in
  f +:+ nl +:+ "##### [Mastodon Source " +:+ sourceLinkMark +:+ "]("
    +:+ Note_URL (Object toot) +:+ ")" +:+ nl.

(** ** [writeMarkdownFiles]

    [os.MkdirAll] and [os.Create] are taken to succeed; [os.Create] starts
    the file empty.  [generatedAt] is the formatted [time.Now()]. *)

Definition lessDateDesc (a b : string) : bool := String.ltb b a.

Definition lessRootDesc (a b : TootThread) : bool :=
  String.ltb (Published (Root b)) (Published (Root a)).

(** The body of [for _, thread := range threads]. *)
Definition writeThread `{GoRuntime} (f : string) (thread : TootThread)
    (extractedMedia : gmap string string) : string :=
  let f := writeToot f (Root thread) "##" extractedMedia in
  let f :=
    foldl (fun f reply => writeToot (f +:+ nl) reply "###" extractedMedia)
      f (Replies thread) in
  f +:+ nl +:+ "---" +:+ nl +:+ nl.

Definition frontmatter (date generatedAt : string) : string :=
  "---" +:+ nl
  +:+ "title: " +:+ dq +:+ "Mastodon - " +:+ date +:+ dq +:+ nl
  +:+ "description: " +:+ dq +:+ dq +:+ nl
  +:+ "image: " +:+ dq +:+ "/images/mastodon.png" +:+ dq +:+ nl
  +:+ "date: " +:+ date +:+ "T00:00:00Z" +:+ nl
  +:+ "lastmod: " +:+ date +:+ "T00:00:00Z" +:+ nl
  +:+ "tags: [" +:+ dq +:+ "Social Media" +:+ dq +:+ "]" +:+ nl
  +:+ "categories: [" +:+ dq +:+ "mastodon" +:+ dq +:+ "]" +:+ nl
  +:+ "# generated: " +:+ generatedAt +:+ nl
  +:+ "---" +:+ nl +:+ nl.

(** The text of the file for [date]; [threads] is [threadsByDate[date]]. *)
Definition dateDocument `{GoRuntime} (date generatedAt : string)
    (threads : list TootThread) (extractedMedia : gmap string string) : string :=
  let threads := sort_Slice lessRootDesc threads in
  let f := frontmatter date generatedAt in
  let f := f +:+ "# Toots from " +:+ date +:+ nl +:+ nl in
  foldl (fun f thread => writeThread f thread extractedMedia) f threads.

(** The path of the file for [date].  [date] was produced by [Format_date],
    so that parsing it back and formatting the year gives its first four
    bytes. *)
Definition datePath `{GoRuntime} (outputDir date : string) : string :=
  let year := String.substring 0 4 date in
  let yearDir := filepath_Join outputDir year in
  filepath_Join yearDir (date +:+ ".md").

(** The dates in the order the files are written. *)
Definition sortedDates `{GoRuntime} (threadsByDate : gmap string (list TootThread))
  : list string :=
  sort_Slice lessDateDesc (map fst (map_to_list threadsByDate)).

(** The files written, in order, as (path, text) pairs. *)
Definition writeMarkdownFiles `{GoRuntime} (threadsByDate : gmap string (list TootThread))
    (outputDir : string) (extractedMedia : gmap string string)
    (generatedAt : string) : list (string * string) :=
  map (fun date =>
         (datePath outputDir date,
          dateDocument date generatedAt (default [] (threadsByDate !! date))
            extractedMedia))
      (sortedDates threadsByDate).

(** ** [main], from "Collect and organize toots" on: the documents written,
    the statistics, and stderr. *)
Definition convert `{GoRuntime} (fuel : nat) (archive : Archive)
    (outputDir : string) (extractedMedia : gmap string string)
    (generatedAt : string)
  : option (list (string * string) * Stats * list string) :=
  let '(allToots, stats) := collectToots archive zeroStats in
  match buildThreads fuel allToots with
  | None => None
  | Some (threadsByDate, err) =>
      Some (writeMarkdownFiles threadsByDate outputDir extractedMedia generatedAt,
            stats, err)
  end.

(** "Toots omitted" of the summary. *)
Definition tootsOmitted (stats : Stats) : Z :=
  PrivateSkipped stats + RepliesToOthers stats + EmptyContent stats.

End Main.

(** * mastodon-to-hugo.go *)

Module MastodonToHugo.

Definition HOST : string := "hachyderm.io".
Definition USER : string := "mweagle".
Definition MY_FOLLOWERS_URL : string :=
  "https://" +:+ HOST +:+ "/users/" +:+ USER +:+ "/followers".

(** [uint] arithmetic, on a 64-bit platform. *)
Definition uint (n : Z) : Z := n mod 2 ^ 64.

Record PublishingStats := {
  totalTootCount : Z;
  renderedTootCount : Z;
  filteredTootCount : Z;
  mediaFilesCount : Z;
  replyThreadsCount : Z;
}.

Record ActivityObjectAttachment := {
  Attachment_Type : string;
  Attachment_MediaType : string;
  Attachment_URL : string;
  Attachment_Name : string;
  Attachment_BaseFilename : string;
  Attachment_AtomURI : string;
  Attachment_Width : Z;
  Attachment_Height : Z;
}.

Record ActivityObjectTag := { Tag_Type : string; Tag_Name : string; Tag_HREF : string }.

Record ActivityObject := {
  Object_Announcement : string;
  Object_ID : string;
  Object_Type : string;
  Object_InReplyTo : string;
  Object_Published : string;
  Object_URL : string;
  Object_CC : list string;
  Object_AtomURI : string;
  Object_Content : string;
  Object_Attachments : list ActivityObjectAttachment;
  Object_Tags : list ActivityObjectTag;
}.

Record ActivityEntry := {
  Entry_ID : string;
  Entry_Type : string;
  Entry_Published : string;
  Entry_CC : list string;
  Entry_Object : ActivityObject;
}.

(** [*ActivityEntry]: the entries that [json.Unmarshal] allocated are the
    list [heap]; a pointer is an index into it, and [==] on pointers is
    equality of indices. *)
Definition ptr := nat.

Record Outbox := {
  TotalItems : Z;
  OrderedItems : list ptr;
  ArchiveDirectoryRoot : string;
  ThreadIDChain : gmap string ptr;
}.

Definition withOrderedItems (ob : Outbox) (items : list ptr) : Outbox :=
  {| TotalItems := TotalItems ob; OrderedItems := items;
     ArchiveDirectoryRoot := ArchiveDirectoryRoot ob;
     ThreadIDChain := ThreadIDChain ob |}.

(** [filterToots]: the loop over [ob.OrderedItems], appending to
    [filteredToots]. *)
Fixpoint filterLoop (heap : list ActivityEntry) (filterFunc : ActivityEntry -> bool)
    (items filteredToots : list ptr) : list ptr :=
  match items with
  | [] => filteredToots
  | eachEntry :: rest =>
      match heap !! eachEntry with
      | Some e =>
          if filterFunc e
          then filterLoop heap filterFunc rest (filteredToots ++ [eachEntry])
          else filterLoop heap filterFunc rest filteredToots
      | None => filterLoop heap filterFunc rest filteredToots
      end
  end.

Definition filterToots (heap : list ActivityEntry) (ob : Outbox)
    (filterFunc : ActivityEntry -> bool) : Outbox :=
  withOrderedItems ob (filterLoop heap filterFunc (OrderedItems ob) []).

Definition selfPublishFilter (entry : ActivityEntry) : bool :=
  let selfReplyToURL := "https://" +:+ HOST +:+ "/users/" +:+ USER in
  if negb (String.eqb (Entry_Type entry) "Create") then false
  else if negb (Nat.eqb (String.length (Object_InReplyTo (Entry_Object entry))) 0)
          && negb (strings_HasPrefix (Object_InReplyTo (Entry_Object entry)) selfReplyToURL)
  then false
  else if Nat.ltb 1 (length (Object_CC (Entry_Object entry)))
          || negb (existsb (String.eqb MY_FOLLOWERS_URL) (Object_CC (Entry_Object entry)))
  then false
  else true.

(** [newOutbox], after [json.Unmarshal]: the loop that fills [ThreadIDChain],
    a later entry replacing an earlier one with the same object id. *)
Fixpoint threadIDChain (heap : list ActivityEntry) (items : list ptr)
    (chain : gmap string ptr) : gmap string ptr :=
  match items with
  | [] => chain
  | p :: rest =>
      match heap !! p with
      | Some e => threadIDChain heap rest (<[Object_ID (Entry_Object e) := p]> chain)
      | None => threadIDChain heap rest chain
      end
  end.

Definition newOutbox (heap : list ActivityEntry) (totalItems : Z) (dir : string)
  : Outbox :=
  let items := seq 0 (length heap) in
  {| TotalItems := totalItems; OrderedItems := items;
     ArchiveDirectoryRoot := dir;
     ThreadIDChain := threadIDChain heap items ∅ |}.

(** ** [renderTootsToDisk] *)

(** The statistics with which [renderTootsToDisk] starts. *)
Definition initialStats (filteredOutbox : Outbox) : PublishingStats :=
  {| totalTootCount := TotalItems filteredOutbox;
     renderedTootCount := uint (Z.of_nat (length (OrderedItems filteredOutbox)));
     filteredTootCount :=
       uint (TotalItems filteredOutbox
             - Z.of_nat (length (OrderedItems filteredOutbox)));
     mediaFilesCount := 0;
     replyThreadsCount := 0 |}.

(** The inner [for { ... }] loop that walks the reply chain from
    [threadRootActivityItem].  The loop has no bound of its own: [fuel] bounds
    the number of iterations, and [None] says that they were not enough. *)
Inductive WalkResult :=
  | ThreadRoot (threadRootActivityItem : ptr) (replyThreadsCount : Z)
  | LoopDetected (err : string)
  | NilDereference.

Fixpoint walkReplyChain (fuel : nat) (heap : list ActivityEntry)
    (chain : gmap string ptr) (threadRootActivityItem : ptr)
    (replyThreadsCount : Z) : option WalkResult :=
  match fuel with
  | O => None
  | S fuel' =>
      match heap !! threadRootActivityItem with
      | None => Some NilDereference
      | Some entry =>
          let replyToID := Object_InReplyTo (Entry_Object entry) in
          if Nat.leb (String.length replyToID) 0
          then Some (ThreadRoot threadRootActivityItem replyThreadsCount)
          else
            match chain !! replyToID with
            | None => Some (ThreadRoot threadRootActivityItem replyThreadsCount)
            | Some parentActivityItem =>
                if decide (parentActivityItem = threadRootActivityItem)
                then Some (LoopDetected
                             ("Loop detected for item: "
                                +:+ Object_ID (Entry_Object entry)))
                else walkReplyChain fuel' heap chain parentActivityItem
                       (uint (replyThreadsCount + 1))
            end
      end
  end.

(** [TEMPLATE_TOOT], executed on a toot. *)
Definition elephant : string := bytes [240; 159; 144; 152].

Definition renderAttachment (a : ActivityObjectAttachment) : string :=
  nl +:+
  (if String.eqb (Attachment_MediaType a) "video/mp4" then
     "<video controls autoplay muted loop width=" +:+ dq +:+ "512" +:+ dq
       +:+ "><source src=" +:+ dq +:+ Attachment_BaseFilename a +:+ dq
       +:+ " type=" +:+ dq +:+ Attachment_MediaType a +:+ dq +:+ " /></video>"
   else
     "![" +:+ Attachment_Name a +:+ "](" +:+ Attachment_BaseFilename a +:+ ")").

Definition TEMPLATE_TOOT (toot : ActivityEntry) : string :=
  nl +:+ Object_Content (Entry_Object toot) +:+ nl
  +:+ String.concat "" (map renderAttachment (Object_Attachments (Entry_Object toot)))
  +:+ nl +:+ nl
  +:+ "###### [Mastodon Source " +:+ elephant +:+ "]("
  +:+ Object_URL (Entry_Object toot) +:+ ")" +:+ nl
  +:+ nl +:+ "___" +:+ nl.

(** The outer loop, as far as thread resolution goes: the thread root of
    every item in turn, or the first error.  The rendering of each item to
    its file comes after the walk of that item and does not feed back into
    the walks. *)
Fixpoint resolveThreads (fuel : nat) (heap : list ActivityEntry)
    (chain : gmap string ptr) (items : list ptr) (roots : list (ptr * ptr))
    (replyThreadsCount : Z) : option (string + list (ptr * ptr) * Z) :=
  match items with
  | [] => Some (inr (roots, replyThreadsCount))
  | eachItem :: rest =>
      match walkReplyChain fuel heap chain eachItem replyThreadsCount with
      | None => None
      | Some NilDereference => Some (inl "nil pointer dereference")
      | Some (LoopDetected err) => Some (inl err)
      | Some (ThreadRoot root count) =>
          resolveThreads fuel heap chain rest (roots ++ [(eachItem, root)]) count
      end
  end.

End MastodonToHugo.

(** * A reference runtime

    An executable instance of [GoRuntime], used to run the programs on
    concrete archives.  Its HTML parser covers the markup that Mastodon
    writes into [content]: text without character references, and
    well-nested elements whose tags carry quoted or bare attributes.  It
    builds the tree that the HTML5 algorithm builds for such input: a
    document node over [html], which holds [head] and [body]. *)

Module Reference.

Inductive Token :=
  | TText (s : string)
  | TStart (name : string) (attrs : list Attribute)
  | TEnd (name : string).

Inductive LexState :=
  | LData (text : string)
  | LTagOpen (text : string)
  | LEndOpen (text : string)
  | LStartName (name : string)
  | LBeforeAttr (name : string) (attrs : list Attribute)
  | LAttrName (name : string) (attrs : list Attribute) (key : string)
  | LBeforeVal (name : string) (attrs : list Attribute) (key : string)
  | LValQuoted (q : ascii) (name : string) (attrs : list Attribute) (key val : string)
  | LValBare (name : string) (attrs : list Attribute) (key val : string)
  | LEndName (name : string).

Definition snoc (s : string) (c : ascii) : string := s +:+ String c "".

Definition isLetter (c : ascii) : bool :=
  let n := nat_of_ascii c in
  (Nat.leb 97 n && Nat.leb n 122) || (Nat.leb 65 n && Nat.leb n 90).

Definition attribute (key val : string) : Attribute :=
  {| Attr_Namespace := ""; Attr_Key := key; Attr_Val := val |}.

Definition emitText (text : string) (out : list Token) : list Token :=
  if String.eqb text "" then out else out ++ [TText text].

Definition lexStep (st : LexState) (c : ascii) (out : list Token)
  : LexState * list Token :=
  match st with
  | LData text =>
      if Ascii.eqb c "<" then (LTagOpen text, out) else (LData (snoc text c), out)
  | LTagOpen text =>
      if isLetter c then (LStartName (String c ""), emitText text out)
      else if Ascii.eqb c "/" then (LEndOpen text, out)
      else if Ascii.eqb c "<" then (LTagOpen (snoc text "<"), out)
      else (LData (snoc (snoc text "<") c), out)
  | LEndOpen text =>
      if isLetter c then (LEndName (String c ""), emitText text out)
      else (LData (snoc (snoc (snoc text "<") "/") c), out)
  | LStartName name =>
      if isHtmlSpace c || Ascii.eqb c "/" then (LBeforeAttr name [], out)
      else if Ascii.eqb c ">" then (LData "", out ++ [TStart name []])
      else (LStartName (snoc name c), out)
  | LBeforeAttr name attrs =>
      if isHtmlSpace c || Ascii.eqb c "/" then (LBeforeAttr name attrs, out)
      else if Ascii.eqb c ">" then (LData "", out ++ [TStart name attrs])
      else (LAttrName name attrs (String c ""), out)
  | LAttrName name attrs key =>
      if Ascii.eqb c "=" then (LBeforeVal name attrs key, out)
      else if isHtmlSpace c || Ascii.eqb c "/"
      then (LBeforeAttr name (attrs ++ [attribute key ""]), out)
      else if Ascii.eqb c ">"
      then (LData "", out ++ [TStart name (attrs ++ [attribute key ""])])
      else (LAttrName name attrs (snoc key c), out)
  | LBeforeVal name attrs key =>
      if isHtmlSpace c then (LBeforeVal name attrs key, out)
      else if Ascii.eqb c (byte 34) || Ascii.eqb c "'"
      then (LValQuoted c name attrs key "", out)
      else if Ascii.eqb c ">"
      then (LData "", out ++ [TStart name (attrs ++ [attribute key ""])])
      else (LValBare name attrs key (String c ""), out)
  | LValQuoted q name attrs key val =>
      if Ascii.eqb c q then (LBeforeAttr name (attrs ++ [attribute key val]), out)
      else (LValQuoted q name attrs key (snoc val c), out)
  | LValBare name attrs key val =>
      if isHtmlSpace c then (LBeforeAttr name (attrs ++ [attribute key val]), out)
      else if Ascii.eqb c ">"
      then (LData "", out ++ [TStart name (attrs ++ [attribute key val])])
      else (LValBare name attrs key (snoc val c), out)
  | LEndName name =>
      if Ascii.eqb c ">" then (LData "", out ++ [TEnd name])
      else (LEndName (snoc name c), out)
  end.

Fixpoint lex (s : string) (st : LexState) (out : list Token) : list Token :=
  match s with
  | EmptyString =>
      match st with
      | LData text => emitText text out
      | LTagOpen text => emitText (snoc text "<") out
      | LEndOpen text => emitText (snoc (snoc text "<") "/") out
      | _ => out
      end
  | String c s' => let '(st', out') := lexStep st c out in lex s' st' out'
  end.

(** An open element: its name, attributes, and the children it has so far. *)
Definition Frame : Type := string * list Attribute * list Node.

(** Text joins a text node that is the last child. *)
Fixpoint addText (kids : list Node) (s : string) : list Node :=
  match kids with
  | [] => [textNode s]
  | [MkNode TextNode d a c] => [MkNode TextNode (d +:+ s) a c]
  | k :: rest => k :: addText rest s
  end.

Definition closeTop (stack : list Frame) : list Frame :=
  match stack with
  | (name, attrs, kids) :: (pname, pattrs, pkids) :: rest =>
      (pname, pattrs, pkids ++ [element name attrs kids]) :: rest
  | _ => stack
  end.

(** How many elements an end tag [name] closes; the last frame is [body]. *)
Fixpoint openDepth (name : string) (stack : list Frame) : option nat :=
  match stack with
  | [] | [_] => None
  | (n, _, _) :: rest =>
      if String.eqb n name then Some 1 else S <$> openDepth name rest
  end.

Definition isVoid (name : string) : bool :=
  existsb (String.eqb name)
    ["area"; "base"; "br"; "col"; "embed"; "hr"; "img"; "input"; "link";
     "meta"; "source"; "track"; "wbr"].

(** [started] is false until the first token that opens [body]; leading
    whitespace before it is dropped. *)
Fixpoint build (tokens : list Token) (started : bool) (stack : list Frame)
  : list Frame :=
  match tokens with
  | [] => stack
  | tok :: rest =>
      match tok, stack with
      | TText s, (name, attrs, kids) :: below =>
          let s := if started then s else string_trim_left isHtmlSpace s in
          if String.eqb s "" then build rest started stack
          else build rest true ((name, attrs, addText kids s) :: below)
      | TStart tag tattrs, (name, attrs, kids) :: below =>
          let stack :=
            if String.eqb tag "p" then
              match openDepth "p" stack with
              | Some d => Nat.iter d closeTop stack
              | None => stack
              end
            else stack in
          if isVoid tag then
            match stack with
            | (name, attrs, kids) :: below =>
                build rest true ((name, attrs, kids ++ [element tag tattrs []]) :: below)
            | [] => build rest true stack
            end
          else build rest true ((tag, tattrs, []) :: stack)
      | TEnd tag, _ =>
          match openDepth tag stack with
          | Some d => build rest started (Nat.iter d closeTop stack)
          | None => build rest started stack
          end
      | _, [] => build rest started stack
      end
  end.

Definition parse (s : string) : Node :=
  let stack := build (lex s (LData "") []) false [("body", [], [])] in
  let stack := Nat.iter (length stack - 1) closeTop stack in
  let body :=
    match stack with
    | (name, attrs, kids) :: _ => element name attrs kids
    | [] => element "body" [] []
    end in
  MkNode DocumentNode "" [] [element "html" [] [element "head" [] []; body]].

(** RFC 3339 timestamps: the date part is read and range-checked, and a [T]
    must follow it. *)
Definition digitValue (c : ascii) : option Z :=
  let n := nat_of_ascii c in
  if Nat.leb 48 n && Nat.leb n 57 then Some (Z.of_nat (n - 48)) else None.

Fixpoint digits (s : string) (acc : Z) : option Z :=
  match s with
  | EmptyString => Some acc
  | String c s' =>
      match digitValue c with
      | Some d => digits s' (10 * acc + d)
      | None => None
      end
  end.

Definition parseTime (s : string) : Time + string :=
  let bad := inr ("parsing time " +:+ dq +:+ s +:+ dq) in
  match digits (String.substring 0 4 s) 0,
        digits (String.substring 5 2 s) 0,
        digits (String.substring 8 2 s) 0 with
  | Some y, Some m, Some d =>
      if String.eqb (String.substring 4 1 s) "-"
         && String.eqb (String.substring 7 1 s) "-"
         && String.eqb (String.substring 10 1 s) "T"
         && Nat.leb 20 (String.length s)
         && Z.leb 1 m && Z.leb m 12 && Z.leb 1 d && Z.leb d 31
      then inl {| Year := y; Month := m; Day := d |}
      else bad
  | _, _, _ => bad
  end.

(** Insertion sort, which is what [sort.Slice] runs on short slices. *)
Fixpoint insert {A : Type} (less : A -> A -> bool) (x : A) (l : list A) : list A :=
  match l with
  | [] => [x]
  | y :: l' => if less x y then x :: l else y :: insert less x l'
  end.

Definition insertionSort {A : Type} (less : A -> A -> bool) (l : list A) : list A :=
  foldl (fun sorted x => insert less x sorted) [] l.

Definition join (dir name : string) : string := dir +:+ "/" +:+ name.

Definition runtime : GoRuntime := {|
  html_Parse := fun s => inl (parse s);
  time_Parse_RFC3339 := parseTime;
  sort_Slice := @insertionSort;
  filepath_Join := join;
|}.

End Reference.

(** * The filtering policy, as a list of rules

    The three exclusion rules of [collectToots], each with the statistics
    counter it owns.  [firstFailing order] is the first rule of [order] that
    a record fails.  [spec_rule_order] follows the words of the
    specification ("visibility, reply scope, emptiness"); the order that the
    code applies is established by theorem. *)

Module FilterPolicy.
Import Main.

Inductive Rule := Visibility | ReplyScope | Emptiness.

#[global] Instance Rule_eq_dec : EqDecision Rule.
Proof. solve_decision. Defined.

Definition failsRule (r : Rule) (note : Note) (actor : string) : bool :=
  match r with
  | Visibility =>
      negb (slices_Contains (Note_To note) publicURI
            || slices_Contains (Note_Cc note) publicURI)
  | ReplyScope => repliesToOther (Note_InReplyTo note) actor
  | Emptiness => String.eqb (Note_Content note) ""
  end.

Fixpoint firstFailing (order : list Rule) (note : Note) (actor : string)
  : option Rule :=
  match order with
  | [] => None
  | r :: rest => if failsRule r note actor then Some r else firstFailing rest note actor
  end.

Definition counterOf (r : Rule) (stats : Stats) : Z :=
  match r with
  | Visibility => PrivateSkipped stats
  | ReplyScope => RepliesToOthers stats
  | Emptiness => EmptyContent stats
  end.

Definition spec_rule_order : list Rule := [Visibility; ReplyScope; Emptiness].
Definition code_rule_order : list Rule := [Emptiness; Visibility; ReplyScope].

End FilterPolicy.

(** * Whitespace normalisation, as the specification words it

    "Per-line trimming and blank-line collapsing": the trimmed non-empty
    lines of a text. *)
Definition nonEmptyTrimmedLines (s : string) : list string :=
  filter (fun l => l ≠ "") (map strings_TrimSpace (strings_Split s LF)).

(** * Sample archives *)

Module Samples.
Import Main.

Definition actor : string := "https://example.social/users/alice".

Definition note (id content : string) (inReplyTo : option string)
    (to : list string) : Note :=
  {| Note_ID := id; Note_URL := id; Note_Published := "";
     Note_Content := content; Note_Summary := None; Note_InReplyTo := inReplyTo;
     Note_Sensitive := false; Note_Attachment := []; Note_Tag := [];
     Note_To := to; Note_Cc := [] |}.

Definition activity (published : string) (n : Note) : Activity :=
  {| Activity_Published := published; Activity_Actor := actor;
     Activity_Object := RawNote n |}.

(** A record with no content that is addressed to followers only. *)
Definition emptyPrivateNote : Note :=
  note "https://example.social/users/alice/statuses/1" "" None
       ["https://example.social/users/alice/followers"].

Definition emptyPrivate : Activity := activity "2024-02-02T17:40:31Z" emptyPrivateNote.

(** A thread: a root and two self-replies, the later reply listed first. *)
Definition statusID (n : string) : string :=
  "https://example.social/users/alice/statuses/" +:+ n.

Definition toot (published : string) (n : Note) : ActivityWithNote :=
  {| Published := published; Object := n; Actor := actor |}.

Definition threadRoot : ActivityWithNote :=
  toot "2024-02-02T17:40:31Z" (note (statusID "1") "<p>one</p>" None [publicURI]).
Definition lateReply : ActivityWithNote :=
  toot "2024-02-02T19:00:00Z"
       (note (statusID "3") "<p>three</p>" (Some (statusID "2")) [publicURI]).
Definition earlyReply : ActivityWithNote :=
  toot "2024-02-02T18:00:00Z"
       (note (statusID "2") "<p>two</p>" (Some (statusID "1")) [publicURI]).

Definition threadToots : list ActivityWithNote := [lateReply; threadRoot; earlyReply].

Definition assembledThread : TootThread :=
  {| Root := threadRoot; Replies := [earlyReply; lateReply] |}.

(** Two records that reply to each other. *)
Definition pingNote : Note :=
  note (statusID "10") "<p>ping</p>" (Some (statusID "11")) [publicURI].
Definition pongNote : Note :=
  note (statusID "11") "<p>pong</p>" (Some (statusID "10")) [publicURI].

Definition cycleArchive : Archive :=
  {| OrderedItems :=
       [ activity "2024-03-01T10:00:00Z" pingNote;
         activity "2024-03-01T10:05:00Z" pongNote ] |}.

Definition cycleToots : list ActivityWithNote :=
  [ toot "2024-03-01T10:00:00Z" pingNote; toot "2024-03-01T10:05:00Z" pongNote ].

(** An extracted video, an extracted document, and the media map. *)
Definition videoAttachment : Attachment :=
  {| Attachment_Type := "Document"; Attachment_MediaType := "video/mp4";
     Attachment_URL := "/media_attachments/files/1/clip.mp4";
     Attachment_Name := "clip" |}.

Definition imageAttachment : Attachment :=
  {| Attachment_Type := "Document"; Attachment_MediaType := "image/png";
     Attachment_URL := "/media_attachments/files/2/cat.png";
     Attachment_Name := "" |}.

Definition lostAttachment : Attachment :=
  {| Attachment_Type := "Document"; Attachment_MediaType := "image/jpeg";
     Attachment_URL := "/media_attachments/files/3/lost.jpg";
     Attachment_Name := "lost" |}.

Definition sampleMedia : gmap string string :=
  {[ "media_attachments/files/1/clip.mp4" := "clip.mp4";
     "media_attachments/files/2/cat.png" := "cat.png" ]}.

Definition tootWithMedia : ActivityWithNote :=
  {| Published := "2024-02-02T17:40:31Z";
     Object :=
       {| Note_ID := statusID "5"; Note_URL := statusID "5"; Note_Published := "";
          Note_Content := "<p>media</p>"; Note_Summary := None;
          Note_InReplyTo := None; Note_Sensitive := false;
          Note_Attachment := [imageAttachment; videoAttachment; lostAttachment];
          Note_Tag := []; Note_To := [publicURI]; Note_Cc := [] |};
     Actor := actor |}.

(** An archive with two files of the same base name, and one entry that
    cannot be opened between them. *)
Definition firstCat : ZipFile :=
  {| File_Name := "media_attachments/files/1/cat.png";
     File_Open := OpenOK "first cat" None |}.
Definition brokenDog : ZipFile :=
  {| File_Name := "media_attachments/files/2/dog.png";
     File_Open := OpenError "zip: checksum error" |}.
Definition secondCat : ZipFile :=
  {| File_Name := "media_attachments/files/3/cat.png";
     File_Open := OpenOK "second cat" None |}.
Definition outbox : ZipFile :=
  {| File_Name := "outbox.json"; File_Open := OpenOK "{}" None |}.

Definition noCreateError : string -> option string := fun _ => None.

(** The round-trip scenario: a public root with a hashtag link, and a public
    self-reply. *)
Definition rootContent : string :=
  "<p>Hello <a href=" +:+ dq +:+ "https://x" +:+ dq +:+ " class=" +:+ dq
    +:+ "hashtag" +:+ dq +:+ ">#tag</a> world</p>".
Definition replyContent : string := "<p>follow-up</p>".

Definition scenarioRootNote : Note :=
  note (statusID "100") rootContent None [publicURI].
Definition scenarioReplyNote : Note :=
  note (statusID "101") replyContent (Some (statusID "100")) [publicURI].

Definition scenarioRoot : ActivityWithNote := toot "2024-02-02T17:40:31Z" scenarioRootNote.
Definition scenarioReply : ActivityWithNote := toot "2024-02-02T17:45:00Z" scenarioReplyNote.

Definition scenarioArchive : Archive :=
  {| OrderedItems :=
       [ activity "2024-02-02T17:40:31Z" scenarioRootNote;
         activity "2024-02-02T17:45:00Z" scenarioReplyNote ] |}.

(** The trees that the HTML5 algorithm builds for the two contents. *)
Definition rootDocument : Node :=
  MkNode DocumentNode "" []
    [element "html" []
       [element "head" [] [];
        element "body" []
          [element "p" []
             [textNode "Hello ";
              element "a"
                [ {| Attr_Namespace := ""; Attr_Key := "href"; Attr_Val := "https://x" |};
                  {| Attr_Namespace := ""; Attr_Key := "class"; Attr_Val := "hashtag" |} ]
                [textNode "#tag"];
              textNode " world"]]]].

Definition replyDocument : Node :=
  MkNode DocumentNode "" []
    [element "html" []
       [element "head" [] [];
        element "body" [] [element "p" [] [textNode "follow-up"]]]].

Definition twoTwoZero : Stats :=
  {| TotalProcessed := 2; TootsOutput := 2; PrivateSkipped := 0;
     RepliesToOthers := 0; EmptyContent := 0 |}.

(** A thread whose replies carry different zone offsets: the reply that is
    written with [+02:00] was published an hour before the other one. *)
Definition offsetRoot : ActivityWithNote :=
  toot "2024-01-01T07:00:00Z" (note (statusID "50") "<p>root</p>" None [publicURI]).
Definition utcReply : ActivityWithNote :=
  toot "2024-01-01T09:00:00Z"
       (note (statusID "51") "<p>nine</p>" (Some (statusID "50")) [publicURI]).
Definition offsetReply : ActivityWithNote :=
  toot "2024-01-01T10:00:00+02:00"
       (note (statusID "52") "<p>eight</p>" (Some (statusID "50")) [publicURI]).

Definition offsetToots : list ActivityWithNote := [offsetRoot; offsetReply; utcReply].

Definition offsetThread : TootThread :=
  {| Root := offsetRoot; Replies := [utcReply; offsetReply] |}.

(** An entry with the base name of [firstCat] whose copy breaks off after
    three bytes. *)
Definition halfCat : ZipFile :=
  {| File_Name := "media_attachments/files/3/cat.png";
     File_Open := OpenOK "sec" (Some "unexpected EOF") |}.

(** A self-reply to a toot that is not in the archive. *)
Definition orphanReply : ActivityWithNote :=
  toot "2024-02-03T09:00:00Z"
       (note (statusID "8") "<p>eight</p>" (Some (statusID "7")) [publicURI]).

(** A rank on the identifiers of [threadToots] that falls along replies. *)
Definition threadRank (id : string) : nat :=
  if String.eqb id (statusID "1") then 2
  else if String.eqb id (statusID "2") then 1
  else 0.

End Samples.

Module HugoSamples.
Import MastodonToHugo.

Definition statusID (n : string) : string :=
  "https://hachyderm.io/users/mweagle/statuses/" +:+ n.

Definition object (id inReplyTo content : string) : ActivityObject :=
  {| Object_Announcement := ""; Object_ID := id; Object_Type := "Note";
     Object_InReplyTo := inReplyTo; Object_Published := "2024-03-01T10:00:00Z";
     Object_URL := id; Object_CC := [MY_FOLLOWERS_URL]; Object_AtomURI := id;
     Object_Content := content; Object_Attachments := []; Object_Tags := [] |}.

Definition entry (id inReplyTo content : string) : ActivityEntry :=
  {| Entry_ID := id +:+ "/activity"; Entry_Type := "Create";
     Entry_Published := "2024-03-01T10:00:00Z"; Entry_CC := [MY_FOLLOWERS_URL];
     Entry_Object := object id inReplyTo content |}.

(** Two toots that reply to each other. *)
Definition cycleHeap : list ActivityEntry :=
  [ entry (statusID "10") (statusID "11") "<p>ping</p>";
    entry (statusID "11") (statusID "10") "<p>pong</p>" ].

Definition cycleOutbox : Outbox :=
  filterToots cycleHeap (newOutbox cycleHeap 2 "/archive") selfPublishFilter.

(** A toot that replies to itself. *)
Definition selfLoopHeap : list ActivityEntry :=
  [ entry (statusID "20") (statusID "20") "<p>me</p>" ].

Definition selfLoopOutbox : Outbox :=
  filterToots selfLoopHeap (newOutbox selfLoopHeap 1 "/archive") selfPublishFilter.

(** A toot, a reply to it and a reply to the reply. *)
Definition threadHeap : list ActivityEntry :=
  [ entry (statusID "40") "" "<p>first</p>";
    entry (statusID "41") (statusID "40") "<p>second</p>";
    entry (statusID "42") (statusID "41") "<p>third</p>" ].

Definition threadOutbox : Outbox :=
  filterToots threadHeap (newOutbox threadHeap 3 "/archive") selfPublishFilter.

Definition videoAttachment : ActivityObjectAttachment :=
  {| Attachment_Type := "Document"; Attachment_MediaType := "video/mp4";
     Attachment_URL := "/media_attachments/files/1/clip.mp4";
     Attachment_Name := "clip"; Attachment_BaseFilename := "clip.mp4";
     Attachment_AtomURI := ""; Attachment_Width := 0; Attachment_Height := 0 |}.

Definition pdfAttachment : ActivityObjectAttachment :=
  {| Attachment_Type := "Document"; Attachment_MediaType := "application/pdf";
     Attachment_URL := "/media_attachments/files/4/notes.pdf";
     Attachment_Name := "notes"; Attachment_BaseFilename := "notes.pdf";
     Attachment_AtomURI := ""; Attachment_Width := 0; Attachment_Height := 0 |}.

Definition entryWithMedia : ActivityEntry :=
  {| Entry_ID := statusID "30" +:+ "/activity"; Entry_Type := "Create";
     Entry_Published := "2024-03-01T10:00:00Z"; Entry_CC := [MY_FOLLOWERS_URL];
     Entry_Object :=
       {| Object_Announcement := ""; Object_ID := statusID "30";
          Object_Type := "Note"; Object_InReplyTo := "";
          Object_Published := "2024-03-01T10:00:00Z";
          Object_URL := statusID "30"; Object_CC := [MY_FOLLOWERS_URL];
          Object_AtomURI := statusID "30"; Object_Content := "<p>media</p>";
          Object_Attachments := [videoAttachment; pdfAttachment];
          Object_Tags := [] |} |}.

End HugoSamples.

(** Replies in non-decreasing order of their [Published] strings. *)
Definition nondecreasingByPublished (replies : list Main.ActivityWithNote) : Prop :=
  Sorted (fun a b => String.leb (Main.Published a) (Main.Published b) = true) replies.

Definition threadsOrdered (threadsByDate : gmap string (list Main.TootThread)) : Prop :=
  forall date threads thread,
    threadsByDate !! date = Some threads -> thread ∈ threads ->
    nondecreasingByPublished (Main.Replies thread).

(** ** Publish timestamps as instants *)

(** The days from 1970-01-01 to the civil date [y]-[m]-[d]. *)
Definition daysFromCivil (y m d : Z) : Z :=
  let y := if (m <=? 2)%Z then (y - 1)%Z else y in
  let era := (y / 400)%Z in
  let yoe := (y - era * 400)%Z in
  let mp := ((m + 9) mod 12)%Z in
  let doy := ((153 * mp + 2) / 5 + d - 1)%Z in
  let doe := (yoe * 365 + yoe / 4 - yoe / 100 + doy)%Z in
  (era * 146097 + doe - 719468)%Z.

(** The offset of a zone designator, [Z], [+hh:mm] or [-hh:mm], in seconds. *)
Definition zoneSeconds (zone : string) : option Z :=
  if String.eqb zone "Z" then Some 0%Z
  else
    match Reference.digits (String.substring 1 2 zone) 0,
          Reference.digits (String.substring 4 2 zone) 0 with
    | Some h, Some m =>
        if negb (Nat.eqb (String.length zone) 6) then None
        else if String.eqb (String.substring 0 1 zone) "+"
        then Some (h * 3600 + m * 60)%Z
        else if String.eqb (String.substring 0 1 zone) "-"
        then Some (- (h * 3600 + m * 60))%Z
        else None
    | _, _ => None
    end.

(** The instant that an RFC 3339 timestamp with whole seconds names, in
    seconds since 1970-01-01T00:00:00Z. *)
Definition instantOf (s : string) : option Z :=
  match Reference.digits (String.substring 0 4 s) 0,
        Reference.digits (String.substring 5 2 s) 0,
        Reference.digits (String.substring 8 2 s) 0,
        Reference.digits (String.substring 11 2 s) 0,
        Reference.digits (String.substring 14 2 s) 0,
        Reference.digits (String.substring 17 2 s) 0,
        zoneSeconds (string_drop 19 s) with
  | Some y, Some m, Some d, Some hh, Some mm, Some ss, Some zone =>
      Some (daysFromCivil y m d * 86400 + hh * 3600 + mm * 60 + ss - zone)%Z
  | _, _, _, _, _, _, _ => None
  end.

(** Every reply was published at or after the instant of its predecessor. *)
Definition nondecreasingByInstant (replies : list Main.ActivityWithNote) : Prop :=
  Sorted (fun a b =>
            match instantOf (Main.Published a), instantOf (Main.Published b) with
            | Some earlier, Some later => (earlier <= later)%Z
            | _, _ => False
            end) replies.

(** [g] is [f] with more text appended: what writing to a file does. *)
Definition extends (f g : string) : Prop := exists x, g = f +:+ x.

(** The backlink that ends every rendered toot of main.go. *)
Definition sourceLink (toot : Main.ActivityWithNote) : string :=
  nl +:+ "##### [Mastodon Source " +:+ Main.sourceLinkMark +:+ "]("
     +:+ Main.Note_URL (Main.Object toot) +:+ ")" +:+ nl.

(** ** Outcomes of the I/O on one archive entry *)

Definition isMediaEntry (f : Main.ZipFile) : Prop :=
  strings_HasPrefix (Main.File_Name f) "media_attachments/" = true.

Definition destPathOf `{GoRuntime} (mediaDir : string) (f : Main.ZipFile) : string :=
  filepath_Join mediaDir (filepath_Base (Main.File_Name f)).

(** Opening the entry, creating its file, or copying fails. *)
Definition entryFails `{GoRuntime} (createErr : string -> option string)
    (mediaDir : string) (f : Main.ZipFile) : Prop :=
  match Main.File_Open f with
  | Main.OpenError _ => True
  | Main.OpenOK _ copyErr =>
      is_Some (createErr (destPathOf mediaDir f)) \/ is_Some copyErr
  end.

(** Opening the entry or creating its file fails: nothing is written. *)
Definition failsBeforeCopy `{GoRuntime} (createErr : string -> option string)
    (mediaDir : string) (f : Main.ZipFile) : Prop :=
  match Main.File_Open f with
  | Main.OpenError _ => True
  | Main.OpenOK _ _ => is_Some (createErr (destPathOf mediaDir f))
  end.

(** The line that the program writes to stderr for a failing entry. *)
Definition failureReport `{GoRuntime} (createErr : string -> option string)
    (mediaDir : string) (f : Main.ZipFile) : string :=
  match Main.File_Open f with
  | Main.OpenError err =>
      "Error opening media file " +:+ Main.File_Name f +:+ ": " +:+ err +:+ nl
  | Main.OpenOK _ copyErr =>
      match createErr (destPathOf mediaDir f) with
      | Some err =>
          "Error creating media file " +:+ destPathOf mediaDir f +:+ ": " +:+ err +:+ nl
      | None =>
          "Error copying media file " +:+ Main.File_Name f +:+ ": "
            +:+ default "" copyErr +:+ nl
      end
  end.

Definition emptyMediaState (disk0 : gmap string string) : Main.MediaState :=
  {| Main.extractedMedia := ∅; Main.disk := disk0; Main.stderr := [] |}.

(** Every value of the map is the base name of its key. *)
Definition flat (m : gmap string string) : Prop :=
  forall k v, m !! k = Some v -> v = filepath_Base k.

(** A line: a string without a line feed. *)
Fixpoint noLF (s : string) : bool :=
  match s with
  | EmptyString => true
  | String c s' => negb (Ascii.eqb c LF) && noLF s'
  end.

(** A string that [strings.TrimSpace] leaves as it is: no space rune at
    its start and none at its end. *)
Definition trimmed (s : string) : Prop :=
  rune_width space_runes s = 0
  /\ rune_width (map string_rev space_runes) (string_rev s) = 0.

(** Runes none of which is empty or has a line feed after its first byte. *)
Definition lineSafe (runes : list string) : bool :=
  forallb (fun r => match r with
                    | EmptyString => false
                    | String _ r' => noLF r'
                    end) runes.

(** The lines that the clean-up hands to [strings.Join]. *)
Definition cleanLine (l : string) : Prop := noLF l = true /\ trimmed l /\ l <> "".

(** * More of main.go *)

Module MainRest.
Import Main.

(** ** [parseArchive]

    [json_Unmarshal] is [json.Unmarshal(data, &archive)]: the archive, or the
    error text.  An entry's [OpenOK data readErr] is here what [io.ReadAll]
    returns on the opened entry. *)

(** The loop [for _, f := range r.File] that looks for outbox.json. *)
Fixpoint findOutbox (files : list ZipFile) : option ZipFile :=
  match files with
  | [] => None
  | f :: rest =>
      if String.eqb (File_Name f) "outbox.json" then Some f else findOutbox rest
  end.

Definition parseArchive (json_Unmarshal : string -> Archive + string)
    (files : list ZipFile) : Archive + string :=
  match findOutbox files with
  | None => inr "outbox.json not found in archive"
  | Some outboxFile =>
      match File_Open outboxFile with
      | OpenError err => inr ("error opening outbox.json: " +:+ err)
      | OpenOK data (Some err) => inr ("error reading outbox.json: " +:+ err)
      | OpenOK data None =>
          match json_Unmarshal data with
          | inr err => inr ("error parsing JSON: " +:+ err)
          | inl archive => inl archive
          end
      end
  end.

(** ** What [collectToots] keeps of one activity *)
Definition isPublic (note : Note) : bool :=
  slices_Contains (Note_To note) publicURI || slices_Contains (Note_Cc note) publicURI.

Definition keptToot (activity : Activity) : option ActivityWithNote :=
  match Activity_Object activity with
  | RawInvalid => None
  | RawNote note =>
      if negb (String.eqb (Note_Content note) "")
         && isPublic note
         && negb (repliesToOther (Note_InReplyTo note) (Activity_Actor activity))
      then Some {| Published := Activity_Published activity;
                   Object := note;
                   Actor := Activity_Actor activity |}
      else None
  end.

Definition isNote (activity : Activity) : bool :=
  match Activity_Object activity with
  | RawNote _ => true
  | RawInvalid => false
  end.

(** ** The loop over the children in [traverse], given the recursive call *)
Section EachChild.
Variable recur : Node -> bool -> string -> string.

Fixpoint eachChild (cs : list Node) (text : string) : string :=
  match cs with
  | [] => text
  | c :: cs' => eachChild cs' (recur c false text)
  end.

End EachChild.

(** What the attribute loop of an [a] element finds: whether some [class]
    attribute contains [word], and the value of the last [href] attribute. *)
Definition hasClass (word : string) (attrs : list Attribute) : bool :=
  existsb (fun a => String.eqb (Attr_Key a) "class" && strings_Contains (Attr_Val a) word)
    attrs.

Fixpoint lastHref (attrs : list Attribute) (href : string) : string :=
  match attrs with
  | [] => href
  | a :: rest =>
      lastHref rest (if String.eqb (Attr_Key a) "href" then Attr_Val a else href)
  end.

(** ** The hashtags of a toot, as [writeToot] lists them *)
Definition isHashtagTag (tag : Tag) : bool := String.eqb (Tag_Type tag) "Hashtag".

Definition listedTags (tags : list Tag) : list string :=
  map Tag_Name (filter (fun tag => isHashtagTag tag = true) tags).

Definition backquoted (tag : string) : string := "`" +:+ tag +:+ "`".

(** ** When every I/O step on an archive entry succeeds *)
Definition entrySucceeds `{GoRuntime} (createErr : string -> option string)
    (mediaDir : string) (f : ZipFile) : Prop :=
  (exists copied, File_Open f = OpenOK copied None)
  /\ createErr (filepath_Join mediaDir (filepath_Base (File_Name f))) = None.

(** Every path of the map is the path of a media entry that was copied. *)
Definition fromCopiedEntry `{GoRuntime} (createErr : string -> option string)
    (mediaDir : string) (files : list ZipFile) (m : gmap string string) : Prop :=
  forall k v, m !! k = Some v ->
    exists f, f ∈ files /\ File_Name f = k
              /\ strings_HasPrefix (File_Name f) "media_attachments/" = true
              /\ entrySucceeds createErr mediaDir f.

(** ** The loop of [findReplies], given what the recursive call returns *)
Section RepliesLoop.
Variable recur : string -> option (list ActivityWithNote).
Variable parentID : string.

Fixpoint repliesLoop (candidates replies : list ActivityWithNote)
  : option (list ActivityWithNote) :=
  match candidates with
  | [] => Some replies
  | candidate :: rest =>
      if decide (Note_InReplyTo (Object candidate) = Some parentID) then
        match recur (Note_ID (Object candidate)) with
        | None => None
        | Some sub => repliesLoop rest ((replies ++ [candidate]) ++ sub)
        end
      else repliesLoop rest replies
  end.

End RepliesLoop.

(** Every reply answers [parentID] or another reply of the list. *)
Definition chainsBackTo (allToots : list ActivityWithNote) (parentID : string)
    (replies : list ActivityWithNote) : Prop :=
  forall r, r ∈ replies ->
    r ∈ allToots
    /\ exists target,
         Note_InReplyTo (Object r) = Some target
         /\ (target = parentID
             \/ exists x, x ∈ replies /\ Note_ID (Object x) = target).

(** The list holds every record that answers one of its members. *)
Definition closedUnderReplies (allToots replies : list ActivityWithNote) : Prop :=
  forall x c, x ∈ replies -> c ∈ allToots ->
    Note_InReplyTo (Object c) = Some (Note_ID (Object x)) -> c ∈ replies.

(** What [buildThreads] establishes for a thread filed under [date]. *)
Definition threadBuilt `{GoRuntime} (fuel : nat) (allToots : list ActivityWithNote)
    (date : string) (thread : TootThread) : Prop :=
  Root thread ∈ allToots
  /\ isSelfReply (Root thread) = false
  /\ findReplies fuel allToots (Note_ID (Object (Root thread))) = Some (Replies thread)
  /\ exists t, time_Parse_RFC3339 (Published (Root thread)) = inl t
               /\ Format_date t = date.

(** Every thread of the map is as [buildThreads] builds it. *)
Definition allBuilt `{GoRuntime} (fuel : nat) (allToots : list ActivityWithNote)
    (threadsByDate : gmap string (list TootThread)) : Prop :=
  forall date threads thread,
    threadsByDate !! date = Some threads -> thread ∈ threads ->
    threadBuilt fuel allToots date thread.

(** ** The roots that [buildThreads] files *)




(** ** The text of a thread in the file of its date *)

(** The root under a second-level heading, every reply after an empty line,
    and the rule that closes the thread. *)
Definition threadText `{GoRuntime} (extractedMedia : gmap string string)
    (thread : TootThread) : string :=
  writeToot "" (Root thread) "##" extractedMedia
  +:+ String.concat ""
        (map (fun reply => nl +:+ writeToot "" reply "###" extractedMedia)
           (Replies thread))
  +:+ nl +:+ "---" +:+ nl +:+ nl.

End MainRest.

(** * More of mastodon-to-hugo.go *)

Module HugoRest.
Import MastodonToHugo.

(** ** [UnmarshalJSON], once the fields of the object are decoded

    The loops over [ao.Attachments] and [ao.Tags], and the tag that is always
    added. *)

(** [urlPathParts[len(urlPathParts)-1]] of [strings.Split(s, "/")]. *)
Definition lastPart (s : string) : string :=
  default "" (last (strings_Split s "/")).

Definition withBaseFilename (a : ActivityObjectAttachment) : ActivityObjectAttachment :=
  {| Attachment_Type := Attachment_Type a;
     Attachment_MediaType := Attachment_MediaType a;
     Attachment_URL := Attachment_URL a;
     Attachment_Name := Attachment_Name a;
     Attachment_BaseFilename := lastPart (Attachment_URL a);
     Attachment_AtomURI := Attachment_AtomURI a;
     Attachment_Width := Attachment_Width a;
     Attachment_Height := Attachment_Height a |}.

(** [strings.Replace(eachTag.Name, "#", "", -1)] *)
Definition withoutHash (t : ActivityObjectTag) : ActivityObjectTag :=
  {| Tag_Type := Tag_Type t;
     Tag_Name := strings_ReplaceAll (Tag_Name t) "#" "";
     Tag_HREF := Tag_HREF t |}.

(** The format string of the [HREF] has the verb [%20m] and no operand for
    it, which [fmt.Sprintf] renders as [%!m(MISSING)]. *)
Definition socialMediaTag : ActivityObjectTag :=
  {| Tag_Type := "Hashtag";
     Tag_Name := "Social Media";
     Tag_HREF := "https://" +:+ HOST +:+ "/tags/social%!m(MISSING)edia" |}.

Definition finishObject (ao : ActivityObject) : ActivityObject :=
  {| Object_Announcement := Object_Announcement ao;
     Object_ID := Object_ID ao;
     Object_Type := Object_Type ao;
     Object_InReplyTo := Object_InReplyTo ao;
     Object_Published := Object_Published ao;
     Object_URL := Object_URL ao;
     Object_CC := Object_CC ao;
     Object_AtomURI := Object_AtomURI ao;
     Object_Content := Object_Content ao;
     Object_Attachments := map withBaseFilename (Object_Attachments ao);
     Object_Tags := map withoutHash (Object_Tags ao) ++ [socialMediaTag] |}.

Fixpoint hasByte (c : ascii) (s : string) : bool :=
  match s with
  | EmptyString => false
  | String d s' => Ascii.eqb d c || hasByte c s'
  end.

(** ** [TEMPLATE_TOOT_FRONTMATTER], executed on a toot *)

(** [{{ range $index, $eachTag := .Toot.Object.Tags}}], from index [i]. *)
Fixpoint renderTags (i : nat) (tags : list ActivityObjectTag) : string :=
  match tags with
  | [] => ""
  | tag :: rest =>
      (if Nat.eqb i 0 then "" else ",")
        +:+ dq +:+ Tag_Name tag +:+ dq +:+ renderTags (S i) rest
  end.

(** A tag name between double quotes. *)
Definition quotedName (tag : ActivityObjectTag) : string := dq +:+ Tag_Name tag +:+ dq.

Definition TEMPLATE_TOOT_FRONTMATTER (toot : ActivityEntry) (executionTime : string)
  : string :=
  "---" +:+ nl
  +:+ "title: " +:+ dq +:+ "Mastodon - " +:+ Entry_Published toot +:+ dq +:+ nl
  +:+ "subtitle: " +:+ dq +:+ dq +:+ nl
  +:+ "canonical: " +:+ Object_ID (Entry_Object toot) +:+ nl
  +:+ "description:" +:+ nl
  +:+ "image: " +:+ dq +:+ "/images/mastodon.png" +:+ dq +:+ nl
  +:+ nl
  +:+ "date: " +:+ Entry_Published toot +:+ nl
  +:+ "lastmod: " +:+ Entry_Published toot +:+ nl
  +:+ "image: " +:+ dq +:+ dq +:+ nl
  +:+ "tags: [" +:+ renderTags 0 (Object_Tags (Entry_Object toot)) +:+ "]" +:+ nl
  +:+ nl
  +:+ "categories: [" +:+ dq +:+ "mastodon" +:+ dq +:+ "]" +:+ nl
  +:+ "# generated: " +:+ executionTime +:+ nl
  +:+ "---" +:+ nl
  +:+ "![Mastodon](/images/mastodon.png)" +:+ nl.

(** ** [filterToots] *)

(** The entry behind [p] is one that [filterFunc] accepts. *)
Definition accepted (heap : list ActivityEntry) (filterFunc : ActivityEntry -> bool)
    (p : ptr) : bool :=
  match heap !! p with
  | Some e => filterFunc e
  | None => false
  end.

(** ** [newOutbox] *)

(** [p] is the last entry of the outbox whose object has the identifier
    [id]. *)
Definition lastWithID (heap : list ActivityEntry) (id : string) (p : ptr) : Prop :=
  exists e, heap !! p = Some e
    /\ Object_ID (Entry_Object e) = id
    /\ forall q e', p < q -> heap !! q = Some e' -> Object_ID (Entry_Object e') <> id.

(** ** The results of the chain walk *)

(** A toot at which the walk stops: it replies to nothing, or to something
    that the outbox does not hold. *)
Definition isThreadRoot (heap : list ActivityEntry) (chain : gmap string ptr)
    (p : ptr) : Prop :=
  exists e, heap !! p = Some e
    /\ (Object_InReplyTo (Entry_Object e) = ""
        \/ chain !! Object_InReplyTo (Entry_Object e) = None).

(** A toot that is listed as its own parent. *)
Definition isOwnParent (heap : list ActivityEntry) (chain : gmap string ptr)
    (p : ptr) (e : ActivityEntry) : Prop :=
  heap !! p = Some e
  /\ Object_InReplyTo (Entry_Object e) <> ""
  /\ chain !! Object_InReplyTo (Entry_Object e) = Some p.

End HugoRest.

(** ** [renderTootsToDisk], with the files that it writes

    The operating system answers through [OS]; the regular files under the
    output root are a map from paths to contents. *)

Module RenderToDisk.
Import MastodonToHugo HugoRest.

(** [fmt.Sprintf("%d", n)] *)
Definition Sprintf_d (n : Z) : string := pretty n.

(** [fmt.Sprintf("%.2d", n)]: at least two digits, after the sign. *)
Definition Sprintf_02d (n : Z) : string :=
  if decide (0 <= n < 10)%Z then "0" +:+ pretty n
  else if decide (-10 < n < 0)%Z then "-0" +:+ pretty (- n)%Z
  else pretty n.

Class OS := {
  (** [path.Join(elem...)]. *)
  path_Join : list string -> string;
  (** The error of [os.MkdirAll(path, os.ModePerm)], if any. *)
  os_MkdirAll : string -> option string;
  (** An error of [os.Stat(path)] other than that nothing is at [path]. *)
  os_Stat : string -> option string;
  (** The error of [os.OpenFile(path, ...)], if any. *)
  os_OpenFile : string -> option string;
  (** The error of executing a template, with output [text], into the file
      at [path], if any. *)
  template_Execute : string -> string -> option string;
  (** [os.Open(path)] on a file of the archive, and [io.Copy] from it. *)
  os_Open : string -> Main.OpenResult;
  (** The error of [os.Create(path)], if any. *)
  os_Create : string -> option string;
}.

(** How a call ends: it returns a nil error, it returns an error, it panics
    on a nil pointer, or its chain walk takes more than [fuel] iterations. *)
Inductive Run (A : Type) :=
  | Returned (a : A)
  | Failed (err : string)
  | Panicked
  | OutOfFuel.
Arguments Returned {A} a.
Arguments Failed {A} err.
Arguments Panicked {A}.
Arguments OutOfFuel {A}.

Record RenderState := {
  files : gmap string string;
  publishingStats : PublishingStats;
}.

Definition withReplyThreadsCount (s : PublishingStats) (count : Z) : PublishingStats :=
  {| totalTootCount := totalTootCount s;
     renderedTootCount := renderedTootCount s;
     filteredTootCount := filteredTootCount s;
     mediaFilesCount := mediaFilesCount s;
     replyThreadsCount := count |}.

Definition incMediaFilesCount (s : PublishingStats) : PublishingStats :=
  {| totalTootCount := totalTootCount s;
     renderedTootCount := renderedTootCount s;
     filteredTootCount := filteredTootCount s;
     mediaFilesCount := uint (mediaFilesCount s + 1);
     replyThreadsCount := replyThreadsCount s |}.

Section Render.
Context `{GoRuntime} `{OS}.
Variables (fuel : nat) (heap : list ActivityEntry).
Variables (outputRoot nowTime : string) (filteredOutbox : Outbox).

(** [tootRootBundleDirectory], or the error of [time.Parse]. *)
Definition tootRootBundleDirectory (threadRootActivityItem : ActivityEntry)
  : string + string :=
  match time_Parse_RFC3339 (Entry_Published threadRootActivityItem) with
  | inr parsedDateErr =>
      inr ("Failed to parse date: " +:+ Entry_Published threadRootActivityItem
             +:+ ". Error: " +:+ parsedDateErr)
  | inl parsedDate =>
      inl (path_Join [outputRoot;
                      Sprintf_d (Year parsedDate);
                      Sprintf_02d (Month parsedDate);
                      lastPart (Object_ID (Entry_Object threadRootActivityItem))])
  end.

(** [ensureDirectory(root, false, log)]: the result of [os.Stat] is not
    looked at when [deleteExisting] is false. *)
Definition ensureDirectory (root : string) : option string := os_MkdirAll root.

(** From [os.Stat(tootOutputPath)] to [tootFS.Close()]: the front matter
    when nothing is at the path, and the toot either way. *)
Definition renderToot (disk : gmap string string) (tootOutputPath : string)
    (eachItem : ActivityEntry) : gmap string string + string :=
  match os_Stat tootOutputPath with
  | Some fileExistsErr => inr fileExistsErr
  | None =>
      match disk !! tootOutputPath with
      | None =>
          match os_OpenFile tootOutputPath with
          | Some createFSErr => inr createFSErr
          | None =>
              let header := TEMPLATE_TOOT_FRONTMATTER eachItem nowTime in
              match template_Execute tootOutputPath header with
              | Some err => inr err
              | None =>
                  match template_Execute tootOutputPath (TEMPLATE_TOOT eachItem) with
                  | Some err => inr err
                  | None =>
                      inl (<[tootOutputPath := header +:+ TEMPLATE_TOOT eachItem]> disk)
                  end
              end
          end
      | Some existing =>
          match os_OpenFile tootOutputPath with
          | Some appendFSErr => inr appendFSErr
          | None =>
              match template_Execute tootOutputPath (TEMPLATE_TOOT eachItem) with
              | Some err => inr err
              | None =>
                  inl (<[tootOutputPath := existing +:+ TEMPLATE_TOOT eachItem]> disk)
              end
          end
      end
  end.

(** One iteration of [for _, eachAttachment := range eachItem.Object.Attachments]. *)
Definition copyAttachment (tootRootBundleDirectory : string) (st : RenderState)
    (eachAttachment : ActivityObjectAttachment) : RenderState + string :=
  let sourceFilePath :=
    path_Join [ArchiveDirectoryRoot filteredOutbox; Attachment_URL eachAttachment] in
  let destFilePath :=
    path_Join [tootRootBundleDirectory; Attachment_BaseFilename eachAttachment] in
  match os_Open sourceFilePath with
  | Main.OpenError srcFileErr => inr srcFileErr
  | Main.OpenOK copied copyErr =>
      match os_Create destFilePath with
      | Some destFileErr => inr destFileErr
      | None =>
          match copyErr with
          | Some err => inr err
          | None =>
              inl {| files := <[destFilePath := copied]> (files st);
                     publishingStats := incMediaFilesCount (publishingStats st) |}
          end
      end
  end.

Fixpoint copyAttachments (tootRootBundleDirectory : string) (st : RenderState)
    (attachments : list ActivityObjectAttachment) : RenderState + string :=
  match attachments with
  | [] => inl st
  | eachAttachment :: rest =>
      match copyAttachment tootRootBundleDirectory st eachAttachment with
      | inr err => inr err
      | inl st' => copyAttachments tootRootBundleDirectory st' rest
      end
  end.

(** One iteration of [for _, eachItem := range filteredOutbox.OrderedItems]. *)
Definition renderItem (st : RenderState) (eachItem : ptr) : Run RenderState :=
  match walkReplyChain fuel heap (ThreadIDChain filteredOutbox) eachItem
          (replyThreadsCount (publishingStats st)) with
  | None => OutOfFuel
  | Some NilDereference => Panicked
  | Some (LoopDetected err) => Failed err
  | Some (ThreadRoot threadRootActivityItem count) =>
      match heap !! threadRootActivityItem, heap !! eachItem with
      | Some root, Some item =>
          match tootRootBundleDirectory root with
          | inr err => Failed err
          | inl dir =>
              match ensureDirectory dir with
              | Some errDirectory => Failed errDirectory
              | None =>
                  let tootOutputPath := path_Join [dir; "index.md"] in
                  match renderToot (files st) tootOutputPath item with
                  | inr err => Failed err
                  | inl disk =>
                      match copyAttachments dir
                              {| files := disk;
                                 publishingStats :=
                                   withReplyThreadsCount (publishingStats st) count |}
                              (Object_Attachments (Entry_Object item)) with
                      | inr err => Failed err
                      | inl st' => Returned st'
                      end
                  end
              end
          end
      | _, _ => Panicked
      end
  end.

Fixpoint renderLoop (st : RenderState) (items : list ptr) : Run RenderState :=
  match items with
  | [] => Returned st
  | eachItem :: rest =>
      match renderItem st eachItem with
      | Returned st' => renderLoop st' rest
      | Failed err => Failed err
      | Panicked => Panicked
      | OutOfFuel => OutOfFuel
      end
  end.

(** [renderTootsToDisk], started on the files [disk0]. *)
Definition renderTootsToDisk (disk0 : gmap string string) : Run RenderState :=
  renderLoop {| files := disk0; publishingStats := initialStats filteredOutbox |}
    (OrderedItems filteredOutbox).

(** *** What the run is expected to leave *)

(** The bundle directory of the thread of [p]. *)
Definition bundleOf (p : ptr) : option string :=
  match walkReplyChain fuel heap (ThreadIDChain filteredOutbox) p 0 with
  | Some (ThreadRoot threadRootActivityItem _) =>
      match heap !! threadRootActivityItem with
      | Some root =>
          match tootRootBundleDirectory root with
          | inl dir => Some dir
          | inr _ => None
          end
      | None => None
      end
  | _ => None
  end.

(** The items whose toots go to the file [path], in the order of the
    outbox. *)
Definition filedUnder (path : string) (items : list ptr) : list ptr :=
  filter (fun p => (fun dir => path_Join [dir; "index.md"]) <$> bundleOf p = Some path)
    items.

(** A thread file once [toots] are added to it: what was there, or else the
    front matter of the first of them, and then the toots. *)
Definition threadFile (existing : option string) (toots : list ActivityEntry)
  : option string :=
  match toots with
  | [] => existing
  | first :: _ =>
      Some (default (TEMPLATE_TOOT_FRONTMATTER first nowTime) existing
              +:+ String.concat "" (map TEMPLATE_TOOT toots))
  end.

(** No attachment of the items is copied to [path]. *)
Definition noCopyTo (path : string) (items : list ptr) : Prop :=
  forall p item dir a,
    p ∈ items -> heap !! p = Some item -> bundleOf p = Some dir ->
    a ∈ Object_Attachments (Entry_Object item) ->
    path_Join [dir; Attachment_BaseFilename a] <> path.

(** The attachments of the items, one list per item. *)
Definition attachmentsOf (items : list ptr) : list ActivityObjectAttachment :=
  mjoin (omap (fun p => Object_Attachments ∘ Entry_Object <$> heap !! p) items).

End Render.

End RenderToDisk.

(** An expanded archive with a thread of three toots and a toot with two
    media files, on an operating system where no call fails. *)
Module RenderSamples.
Import MastodonToHugo RenderToDisk.

Definition os : OS := {|
  path_Join := String.concat "/";
  os_MkdirAll := fun _ => None;
  os_Stat := fun _ => None;
  os_OpenFile := fun _ => None;
  template_Execute := fun _ _ => None;
  os_Open := fun path => Main.OpenOK ("bytes of " +:+ path) None;
  os_Create := fun _ => None;
|}.

Definition heap : list ActivityEntry :=
  HugoSamples.threadHeap ++ [HugoSamples.entryWithMedia].

Definition outbox : Outbox :=
  filterToots heap (newOutbox heap 4 "/archive") selfPublishFilter.

Definition run : Run RenderState :=
  renderTootsToDisk (H := Reference.runtime) (H0 := os) 4 heap "/site" "now" outbox ∅.

Definition finalState : RenderState :=
  match run with
  | Returned st => st
  | _ => {| files := ∅; publishingStats := initialStats outbox |}
  end.

End RenderSamples.

(** The counters of [Stats] after [processed] notes, [kept] of them output. *)
Definition balanced (stats : Main.Stats) (processed kept : Z) : Prop :=
  Main.TotalProcessed stats = processed%Z
  /\ Main.TootsOutput stats = kept
  /\ Main.TotalProcessed stats
     = (Main.TootsOutput stats + Main.PrivateSkipped stats + Main.RepliesToOthers stats
       + Main.EmptyContent stats)%Z
  /\ (0 <= Main.PrivateSkipped stats)%Z /\ (0 <= Main.RepliesToOthers stats)%Z /\ (0 <= Main.EmptyContent stats)%Z.

(** * Proofs *)

(** ** The model at work *)

Section Running.

Example TrimSpace_unicode :
  strings_TrimSpace (bytes [32; 194; 160; 104; 105; 226; 128; 128; 10]) = "hi".
Proof. vm_compute. reflexivity. Qed.

Example Base_of_media_path :
  filepath_Base "media_attachments/files/109/a/b.png" = "b.png"
  /\ filepath_Base "media_attachments/" = "media_attachments"
  /\ filepath_Base "" = ".".
Proof. vm_compute. done. Qed.

Example mention_becomes_markdown_link :
  Main.htmlToText (H := Reference.runtime)
    ("<p>thanks <span class=" +:+ dq +:+ "h-card" +:+ dq +:+ "><a href=" +:+ dq
       +:+ "https://example.social/@bob" +:+ dq +:+ " class=" +:+ dq
       +:+ "u-url mention" +:+ dq +:+ ">@<span>bob</span></a></span>!<br>bye</p>")
  = "thanks [@bob](https://example.social/@bob)!" +:+ nl +:+ nl +:+ "bye".
Proof. vm_compute. reflexivity. Qed.

Example plain_link_becomes_bare_url :
  Main.htmlToText (H := Reference.runtime)
    ("<p>see <a href=" +:+ dq +:+ "https://example.org/a" +:+ dq
       +:+ "><span>example.org/a</span></a></p>")
  = "see <https://example.org/a>".
Proof. vm_compute. reflexivity. Qed.

Example thread_is_assembled :
  Main.buildThreads (H := Reference.runtime) 3 Samples.threadToots
  = Some ({[ "2024-02-02" := [Samples.assembledThread] ]}, []).
Proof. vm_compute. reflexivity. Qed.

End Running.

(** ** The normalisation pass of [htmlToText] *)

Section Normalisation.
Import Main.

Lemma cleanLines_spec (lines cleaned : list string) :
  cleanLines lines cleaned =
  cleaned ++ map wrapBareURL (filter (fun l => l ≠ "") (map strings_TrimSpace lines)).
Proof.
  revert cleaned. induction lines as [|line rest IH]; intros cleaned; simpl.
  - by rewrite app_nil_r.
  - rewrite filter_cons. destruct (String.eqb_spec (strings_TrimSpace line) "") as [E|E].
    + rewrite decide_False by (intros H; by apply H). apply IH.
    + rewrite decide_True by done. rewrite IH. simpl. by rewrite <- app_assoc.
Qed.

Lemma HasPrefix_app (p rest : string) : strings_HasPrefix (p +:+ rest) p = true.
Proof.
  induction p as [|a p IH]; simpl; [done|].
  rewrite Ascii.eqb_refl. exact IH.
Qed.

Lemma HasPrefix_head (s p q : string) (a b : ascii) :
  a ≠ b ->
  strings_HasPrefix s (String a p) = true ->
  strings_HasPrefix s (String b q) = false.
Proof.
  intros Hab. destruct s as [|c s]; simpl; [done|].
  destruct (Ascii.eqb_spec a c) as [Hac|]; [|done]. intros _.
  destruct (Ascii.eqb_spec b c) as [Hbc|]; [congruence|done].
Qed.

(** C9. In the clean-up of [htmlToText], the output lines are the trimmed
    non-empty lines of the trimmed text, each passed through the wrapping
    step; that step puts angle brackets around every line that begins with
    "http://" or "https://", whatever follows the prefix on the line, and
    leaves a line that begins with "<" as it is. *)
Theorem C9_wrap_by_prefix_only (text : string) :
  cleanedLines text
    = map wrapBareURL (nonEmptyTrimmedLines (strings_TrimSpace text))
  /\ (forall rest : string,
        wrapBareURL ("http://" +:+ rest) = "<" +:+ ("http://" +:+ rest) +:+ ">"
        /\ wrapBareURL ("https://" +:+ rest) = "<" +:+ ("https://" +:+ rest) +:+ ">")
  /\ (forall line : string,
        strings_HasPrefix line "<" = true -> wrapBareURL line = line).
Proof.
  split; [|split].
  - unfold cleanedLines, nonEmptyTrimmedLines. by rewrite cleanLines_spec.
  - intros rest. unfold wrapBareURL. split.
    + by rewrite (HasPrefix_app "http://" rest).
    + rewrite (HasPrefix_app "https://" rest). by rewrite orb_true_r.
  - intros line H. unfold wrapBareURL.
    rewrite (HasPrefix_head line "" "ttp://" "<" "h") by done.
    by rewrite (HasPrefix_head line "" "ttps://" "<" "h").
Qed.

End Normalisation.

Lemma C9_wrap_by_prefix_only_witness :
  Main.wrapBareURL "https://example.org/a and more" = "<https://example.org/a and more>"
  /\ Main.wrapBareURL "<https://example.org/a>" = "<https://example.org/a>".
Proof.
  destruct (C9_wrap_by_prefix_only "") as (_ & Hwrap & Hkeep). split.
  - exact (proj2 (Hwrap "example.org/a and more")).
  - exact (Hkeep "<https://example.org/a>" eq_refl).
Defined.

(** ** [collectToots] *)

Section Filter.
Import Main FilterPolicy.
#[local] Open Scope Z_scope.

(** C2, as amended. For every parsed record, the filter applies its rules in
    the order emptiness, then visibility, then reply scope, and rejects on
    the first rule that fails: the record is counted as processed, the
    counter of that first failing rule goes up by one and the two other
    exclusion counters stay as they are; a record that fails no rule is
    appended to the kept records and counted as output. *)
Theorem C2_first_failing_rule_in_code_order
    (allToots : list ActivityWithNote) (stats : Stats)
    (activity : Activity) (note : Note) :
  Activity_Object activity = RawNote note ->
  let result := collectStep (allToots, stats) activity in
  let failing := firstFailing code_rule_order note (Activity_Actor activity) in
  TotalProcessed result.2 = TotalProcessed stats + 1
  /\ (forall r : Rule,
        counterOf r result.2
        = counterOf r stats + (if decide (failing = Some r) then 1 else 0))
  /\ TootsOutput result.2
      = TootsOutput stats + (if decide (failing = None) then 1 else 0)
  /\ result.1
      = (if decide (failing = None)
         then allToots ++ [{| Published := Activity_Published activity;
                              Object := note;
                              Actor := Activity_Actor activity |}]
         else allToots).
Proof.
  intros Hobj. cbv zeta.
  unfold collectStep, code_rule_order, firstFailing, failsRule.
  rewrite Hobj.
  destruct (String.eqb (Note_Content note) "");
    [|destruct (slices_Contains (Note_To note) publicURI
                || slices_Contains (Note_Cc note) publicURI);
      [destruct (repliesToOther (Note_InReplyTo note) (Activity_Actor activity))|]];
    cbv [incTotalProcessed incEmptyContent incPrivateSkipped incRepliesToOthers
         incTootsOutput counterOf fst snd]; cbn;
    (repeat split; try intros []; repeat case_decide; congruence || lia).
Qed.

Lemma C2_first_failing_rule_in_code_order_witness :
  EmptyContent (collectStep ([], zeroStats) Samples.emptyPrivate).2 = 1.
Proof.
  pose proof (C2_first_failing_rule_in_code_order [] zeroStats
                Samples.emptyPrivate Samples.emptyPrivateNote eq_refl) as H.
  cbv zeta in H. destruct H as (_ & H & _).
  exact (H Emptiness).
Defined.

(** C2, as stated, fails on a record that is both empty and not public:
    the first rule it fails in the order visibility, reply scope, emptiness
    is visibility, but the code counts it under empty content and leaves
    the private counter at zero. *)
Lemma C2_counterexample_empty_private :
  let stats' := (collectStep ([], zeroStats) Samples.emptyPrivate).2 in
  firstFailing spec_rule_order Samples.emptyPrivateNote Samples.actor = Some Visibility
  /\ counterOf Visibility stats' = 0
  /\ counterOf Emptiness stats' = 1.
Proof. vm_compute. done. Qed.

End Filter.

(** ** The order of Go strings *)

Section StringOrder.

Lemma ascii_compare_refl (a : ascii) : Ascii.compare a a = Eq.
Proof. unfold Ascii.compare. apply N.compare_refl. Qed.

Lemma string_compare_refl (s : string) : String.compare s s = Eq.
Proof.
  induction s as [|a s IH]; simpl; [done|].
  by rewrite ascii_compare_refl.
Qed.

Lemma ascii_compare_lt_trans (a b c : ascii) :
  Ascii.compare a b = Lt -> Ascii.compare b c = Lt -> Ascii.compare a c = Lt.
Proof.
  unfold Ascii.compare. rewrite !N.compare_lt_iff. lia.
Qed.

Lemma string_compare_lt_trans (s1 s2 s3 : string) :
  String.compare s1 s2 = Lt -> String.compare s2 s3 = Lt ->
  String.compare s1 s3 = Lt.
Proof.
  revert s2 s3. induction s1 as [|a s1 IH]; intros [|b s2] [|c s3]; simpl; try done.
  destruct (Ascii.compare a b) eqn:Hab; try done.
  - apply Ascii.compare_eq_iff in Hab as ->.
    destruct (Ascii.compare b c) eqn:Hbc; try done. apply IH.
  - destruct (Ascii.compare b c) eqn:Hbc; try done.
    + apply Ascii.compare_eq_iff in Hbc as <-. by rewrite Hab.
    + by rewrite (ascii_compare_lt_trans a b c).
Qed.

Lemma string_ltb_irrefl (s : string) : String.ltb s s = false.
Proof. unfold String.ltb. by rewrite string_compare_refl. Qed.

Lemma string_ltb_trans (s1 s2 s3 : string) :
  String.ltb s1 s2 = true -> String.ltb s2 s3 = true -> String.ltb s1 s3 = true.
Proof.
  unfold String.ltb. intros H12 H23.
  rewrite (string_compare_lt_trans s1 s2 s3); [done| |].
  - by destruct (String.compare s1 s2).
  - by destruct (String.compare s2 s3).
Qed.

Lemma string_ltb_incomparable (s1 s2 : string) :
  String.ltb s1 s2 = false -> String.ltb s2 s1 = false -> s1 = s2.
Proof.
  unfold String.ltb. rewrite (String.compare_antisym s2 s1).
  destruct (String.compare s1 s2) eqn:H; simpl; try done.
  intros _ _. by apply String.compare_eq_iff.
Qed.

(** [!(b < a)] is [a <= b]. *)
Lemma string_not_ltb_leb (s1 s2 : string) :
  String.ltb s2 s1 = false <-> String.leb s1 s2 = true.
Proof.
  unfold String.ltb, String.leb. rewrite (String.compare_antisym s1 s2).
  by destruct (String.compare s2 s1).
Qed.

(** Comparing records by a string key is a strict weak ordering. *)
Lemma key_order_strict_weak {A : Type} (key : A -> string) :
  StrictWeakOrder (fun a b => String.ltb (key a) (key b)).
Proof.
  split.
  - intros a. apply string_ltb_irrefl.
  - intros a b c. apply string_ltb_trans.
  - intros a b c Hab Hba Hbc Hcb.
    rewrite (string_ltb_incomparable _ _ Hab Hba).
    by rewrite Hbc, Hcb.
Qed.

End StringOrder.

(** ** The reference runtime meets the library contracts *)

Section ReferenceSort.
Context {A : Type} (less : A -> A -> bool).

Lemma insert_perm (x : A) (l : list A) : Reference.insert less x l ≡ₚ x :: l.
Proof.
  induction l as [|y l IH]; simpl; [done|].
  destruct (less x y); [done|].
  rewrite IH. apply Permutation_swap.
Qed.

Lemma insertionSort_perm (l : list A) : Reference.insertionSort less l ≡ₚ l.
Proof.
  unfold Reference.insertionSort.
  enough (forall acc, foldl (fun s x => Reference.insert less x s) acc l ≡ₚ acc ++ l)
    as H by apply (H []).
  induction l as [|x l IH]; intros acc; simpl.
  - by rewrite app_nil_r.
  - rewrite IH, insert_perm. simpl. apply Permutation_middle.
Qed.

Hypothesis order : StrictWeakOrder less.

Lemma less_asym (a b : A) : less a b = true -> less b a = false.
Proof.
  intros Hab. destruct (less b a) eqn:Hba; [|done].
  by rewrite <- (swo_irrefl less order a), (swo_trans less order a b a).
Qed.

Lemma insert_sorted (x : A) (l : list A) :
  Sorted (fun a b => less b a = false) l ->
  Sorted (fun a b => less b a = false) (Reference.insert less x l).
Proof.
  induction 1 as [|y l Hl IH Hhd]; simpl.
  - by repeat constructor.
  - destruct (less x y) eqn:Hxy.
    + constructor; [by constructor|]. constructor. by apply less_asym.
    + constructor; [exact IH|].
      destruct Hhd as [|z l Hyz]; simpl.
      * by constructor.
      * destruct (less x z); by constructor.
Qed.

Lemma insertionSort_sorted (l : list A) :
  Sorted (fun a b => less b a = false) (Reference.insertionSort less l).
Proof.
  unfold Reference.insertionSort.
  enough (forall acc, Sorted (fun a b => less b a = false) acc ->
            Sorted (fun a b => less b a = false)
              (foldl (fun s x => Reference.insert less x s) acc l))
    as H by (apply H; constructor).
  induction l as [|x l IH]; intros acc Hacc; simpl; [done|].
  apply IH. by apply insert_sorted.
Qed.

End ReferenceSort.

Lemma reference_laws : GoRuntimeLaws Reference.runtime.
Proof.
  split.
  - intros A less l. apply insertionSort_perm.
  - intros A less l Hless. by apply insertionSort_sorted.
Qed.

(** ** Thread assembly in main.go *)

Section Threads.
Import Main.
Context {R : GoRuntime} {L : GoRuntimeLaws R}.

Lemma Sorted_weaken {A : Type} (P Q : A -> A -> Prop) (l : list A) :
  (forall a b, P a b -> Q a b) -> Sorted P l -> Sorted Q l.
Proof.
  intros HPQ. induction 1 as [|x l Hl IH Hhd]; constructor; [done|].
  destruct Hhd; constructor. by apply HPQ.
Qed.

Lemma sort_by_Published_nondecreasing (replies : list ActivityWithNote) :
  nondecreasingByPublished (sort_Slice lessPublished replies).
Proof.
  eapply Sorted_weaken;
    [|apply (sort_Slice_sorted _ lessPublished), (key_order_strict_weak Published)].
  intros a b. unfold lessPublished. apply string_not_ltb_leb.
Qed.

Lemma findReplies_nondecreasing (fuel : nat) (allToots : list ActivityWithNote)
    (parentID : string) (replies : list ActivityWithNote) :
  findReplies fuel allToots parentID = Some replies ->
  nondecreasingByPublished replies.
Proof.
  destruct fuel as [|fuel]; simpl; [done|].
  match goal with |- context [match ?e with _ => _ end] => destruct e end; [|done].
  intros [= <-]. apply sort_by_Published_nondecreasing.
Qed.

Lemma appendThread_ordered (threadsByDate : gmap string (list TootThread))
    (dateKey : string) (thread : TootThread) :
  threadsOrdered threadsByDate ->
  nondecreasingByPublished (Replies thread) ->
  threadsOrdered (appendThread threadsByDate dateKey thread).
Proof.
  intros Hm Ht date threads th. unfold appendThread.
  destruct (decide (dateKey = date)) as [->|Hne].
  - rewrite lookup_insert_eq. intros [= <-].
    rewrite elem_of_app, list_elem_of_singleton. intros [Hin| ->]; [|done].
    destruct (threadsByDate !! date) as [old|] eqn:Hold; simpl in Hin.
    + by apply (Hm date old).
    + by apply elem_of_nil in Hin.
  - rewrite lookup_insert_ne by done. apply Hm.
Qed.

Lemma buildLoop_ordered (fuel : nat) (allToots toots : list ActivityWithNote)
    (st result : gmap string (list TootThread) * list string) :
  threadsOrdered st.1 ->
  buildLoop fuel allToots toots st = Some result ->
  threadsOrdered result.1.
Proof.
  revert st. induction toots as [|toot rest IH]; intros st Hst; simpl.
  - by intros [= <-].
  - destruct (isSelfReply toot); [by apply IH|].
    destruct (findReplies fuel allToots (Note_ID (Object toot))) as [replies|] eqn:Hr;
      [|done].
    destruct (time_Parse_RFC3339 (Published toot)) as [t|err]; apply IH; simpl; [|done].
    apply appendThread_ordered; [done|]. simpl.
    by apply (findReplies_nondecreasing fuel allToots (Note_ID (Object toot))).
Qed.

(** C4. In every thread that [buildThreads] assembles, the replies attached
    to the root are in non-decreasing order of their [Published] values:
    each reply's value is greater than or equal to its predecessor's, in the
    order of Go strings.  The values are compared as they are written, byte
    by byte, and not as the instants that they name. *)
Theorem C4_replies_nondecreasing (fuel : nat) (allToots : list ActivityWithNote)
    (threadsByDate : gmap string (list TootThread)) (err : list string)
    (date : string) (threads : list TootThread) (thread : TootThread) :
  buildThreads fuel allToots = Some (threadsByDate, err) ->
  threadsByDate !! date = Some threads ->
  thread ∈ threads ->
  nondecreasingByPublished (Replies thread).
Proof.
  intros Hbuild. apply (buildLoop_ordered fuel allToots allToots (∅, []) _) in Hbuild.
  - apply Hbuild.
  - intros d ts th. simpl. by rewrite lookup_empty.
Qed.

End Threads.

Lemma C4_replies_nondecreasing_witness :
  nondecreasingByPublished (Main.Replies Samples.assembledThread).
Proof.
  apply (C4_replies_nondecreasing (R := Reference.runtime) (L := reference_laws)
           3 Samples.threadToots
           {[ "2024-02-02" := [Samples.assembledThread] ]} []
           "2024-02-02" [Samples.assembledThread] Samples.assembledThread).
  - vm_compute. reflexivity.
  - vm_compute. reflexivity.
  - apply list_elem_of_here.
Defined.

(** Two replies whose timestamps carry different zone offsets are attached
    in the order of the strings, which here is the reverse of the order of
    the instants: 09:00 UTC is put before 10:00+02:00, that is 08:00 UTC. *)
Lemma C4_counterexample_offsets_sorted_as_strings :
  Main.buildThreads (H := Reference.runtime) 3 Samples.offsetToots
  = Some ({[ "2024-01-01" := [Samples.offsetThread] ]}, [])
  /\ Main.Replies Samples.offsetThread = [Samples.utcReply; Samples.offsetReply]
  /\ nondecreasingByPublished (Main.Replies Samples.offsetThread)
  /\ instantOf (Main.Published Samples.utcReply) = Some 1704099600%Z
  /\ instantOf (Main.Published Samples.offsetReply) = Some 1704096000%Z
  /\ ~ nondecreasingByInstant (Main.Replies Samples.offsetThread).
Proof.
  split; [vm_compute; reflexivity|]. split; [reflexivity|].
  split; [repeat constructor|].
  split; [vm_compute; reflexivity|]. split; [vm_compute; reflexivity|].
  intros Hsorted. apply Sorted_inv in Hsorted as [_ Hhead].
  apply HdRel_inv in Hhead. vm_compute in Hhead. by apply Hhead.
Qed.

(** [findReplies] returns whenever the reply targets are well founded: if
    every record has a smaller rank than the record it replies to, a depth
    above the rank of [parentID] is enough. *)
Section ThreadsTerminate.
Import Main.
Context {R : GoRuntime}.
Variable allToots : list ActivityWithNote.
Variable rank : string -> nat.
Hypothesis rank_decreases : forall c target,
  c ∈ allToots -> Note_InReplyTo (Object c) = Some target ->
  rank (Note_ID (Object c)) < rank target.

Lemma findReplies_returns (fuel : nat) (parentID : string) :
  rank parentID < fuel -> is_Some (findReplies fuel allToots parentID).
Proof.
  revert parentID. induction fuel as [|fuel IH]; intros parentID Hrank; [lia|].
  simpl.
  match goal with
  | |- context [match ?each allToots [] with _ => _ end] =>
      enough (forall candidates replies,
                (forall c, c ∈ candidates -> c ∈ allToots) ->
                is_Some (each candidates replies)) as Heach
  end.
  - destruct (Heach allToots [] (fun c H => H)) as [replies ->]. by eexists.
  - induction candidates as [|c rest IHc]; intros replies Hsub; [by eexists|].
    assert (Hrest : forall c', c' ∈ rest -> c' ∈ allToots)
      by (intros c' Hc'; apply Hsub; by right).
    case_decide as Hreply; [|by apply IHc].
    destruct (IH (Note_ID (Object c))) as [sub ->]; [|by apply IHc].
    pose proof (rank_decreases c parentID (Hsub c (list_elem_of_here _ _)) Hreply).
    lia.
Qed.

Lemma buildLoop_returns (fuel : nat) (toots : list ActivityWithNote)
    (st : gmap string (list TootThread) * list string) :
  (forall id, rank id < fuel) -> is_Some (buildLoop fuel allToots toots st).
Proof.
  intros Hfuel. revert st. induction toots as [|toot rest IH]; intros st; simpl.
  - by eexists.
  - destruct (isSelfReply toot); [apply IH|].
    destruct (findReplies_returns fuel (Note_ID (Object toot)) (Hfuel _)) as [r ->].
    destruct (time_Parse_RFC3339 (Published toot)); apply IH.
Qed.

End ThreadsTerminate.

(** ** Reply cycles *)

Section OwnParent.
Import Main.
Context {R : GoRuntime}.

(** main.go has no guard on the recursion of [findReplies]: from a record
    that is listed under its own identifier, no depth is enough. *)
Lemma findReplies_own_parent_never_returns (allToots : list ActivityWithNote)
    (c : ActivityWithNote) :
  c ∈ allToots ->
  Note_InReplyTo (Object c) = Some (Note_ID (Object c)) ->
  forall fuel, findReplies fuel allToots (Note_ID (Object c)) = None.
Proof.
  intros Hin Hown. induction fuel as [|fuel IH]; [done|]. simpl.
  match goal with
  | |- match ?each allToots [] with _ => _ end = None =>
      enough (forall candidates replies, c ∈ candidates -> each candidates replies = None)
        as Heach by (by rewrite Heach)
  end.
  induction candidates as [|x rest IHc]; intros replies Hc.
  - by apply elem_of_nil in Hc.
  - apply elem_of_cons in Hc as [<-|Hc].
    + rewrite decide_True by done. by rewrite IH.
    + case_decide; [|by apply IHc].
      destruct (findReplies fuel allToots (Note_ID (Object x))); [by apply IHc|done].
Qed.

End OwnParent.

Section CycleInMain.
Import Main.
Context {R : GoRuntime} {L : GoRuntimeLaws R}.

Lemma sort_Slice_nil {A : Type} (less : A -> A -> bool) : sort_Slice less [] = [].
Proof. apply Permutation_nil_r. apply sort_Slice_perm. Qed.

Lemma sort_Slice_singleton {A : Type} (less : A -> A -> bool) (x : A) :
  sort_Slice less [x] = [x].
Proof. apply Permutation_singleton_r. apply sort_Slice_perm. Qed.

(** main.go on two records that reply to each other: both pass the filter,
    both are skipped as self-replies by [buildThreads], no thread starts at
    either, nothing is written to stderr, and no document comes out. *)
Lemma cycle_dropped_by_main (fuel : nat) (outputDir generatedAt : string)
    (extractedMedia : gmap string string) :
  convert fuel Samples.cycleArchive outputDir extractedMedia generatedAt
  = Some ([], {| TotalProcessed := 2; TootsOutput := 2; PrivateSkipped := 0;
                 RepliesToOthers := 0; EmptyContent := 0 |}, []).
Proof.
  unfold convert.
  change (collectToots Samples.cycleArchive zeroStats)
    with (Samples.cycleToots,
          {| TotalProcessed := 2; TootsOutput := 2; PrivateSkipped := 0;
             RepliesToOthers := 0; EmptyContent := 0 |}).
  cbv beta iota.
  change (buildThreads fuel Samples.cycleToots)
    with (Some (∅ : gmap string (list TootThread), @nil string)).
  cbv beta iota.
  unfold writeMarkdownFiles, sortedDates.
  rewrite map_to_list_empty. simpl. by rewrite sort_Slice_nil.
Qed.

End CycleInMain.

Section CycleInRenderTootsToDisk.
Import MastodonToHugo.

(** The walk never gets out of a set of toots each of which replies to
    another toot of the set. *)
Lemma walk_in_closed_set_never_returns (heap : list ActivityEntry)
    (chain : gmap string ptr) (inCycle : ptr -> Prop) :
  (forall p, inCycle p ->
     exists e parent,
       heap !! p = Some e
       /\ Object_InReplyTo (Entry_Object e) <> ""
       /\ chain !! Object_InReplyTo (Entry_Object e) = Some parent
       /\ parent <> p
       /\ inCycle parent) ->
  forall fuel p count,
    inCycle p -> walkReplyChain fuel heap chain p count = None.
Proof.
  intros Hclosed. induction fuel as [|fuel IH]; intros p count Hp; simpl; [done|].
  destruct (Hclosed p Hp) as (e & parent & -> & Hreply & -> & Hne & Hparent).
  destruct (Object_InReplyTo (Entry_Object e)) as [|c rest]; [done|]. simpl.
  rewrite decide_False by done. by apply IH.
Qed.

(** The loop check catches a toot that replies to itself. *)
Lemma self_reply_is_detected (heap : list ActivityEntry) (chain : gmap string ptr)
    (fuel : nat) (p : ptr) (e : ActivityEntry) (count : Z) :
  heap !! p = Some e ->
  Object_InReplyTo (Entry_Object e) <> "" ->
  chain !! Object_InReplyTo (Entry_Object e) = Some p ->
  walkReplyChain (S fuel) heap chain p count
  = Some (LoopDetected ("Loop detected for item: " +:+ Object_ID (Entry_Object e))).
Proof.
  intros Hheap Hreply Hchain. simpl. rewrite Hheap, Hchain.
  destruct (Object_InReplyTo (Entry_Object e)) as [|c rest]; [done|]. simpl.
  by rewrite decide_True.
Qed.

Lemma self_loop_outbox_reports_loop (fuel : nat) :
  resolveThreads (S fuel) HugoSamples.selfLoopHeap
    (ThreadIDChain HugoSamples.selfLoopOutbox)
    (OrderedItems HugoSamples.selfLoopOutbox) [] 0
  = Some (inl ("Loop detected for item: " +:+ HugoSamples.statusID "20")).
Proof.
  change (OrderedItems HugoSamples.selfLoopOutbox) with [0]. unfold resolveThreads.
  by rewrite (self_reply_is_detected _ _ fuel 0
                (HugoSamples.entry (HugoSamples.statusID "20")
                   (HugoSamples.statusID "20") "<p>me</p>")).
Qed.

(** C1, at two toots that reply to each other.  Both pass
    [selfPublishFilter]; the chain walk of [renderTootsToDisk] then moves from
    one to the other for ever: its loop check compares a toot with its direct
    parent only, so that no number of iterations brings the walk, or the
    function, to a result, and [Loop detected] is never reported. *)
Theorem C1_two_cycle_walk_never_returns (fuel : nat) :
  OrderedItems HugoSamples.cycleOutbox = [0; 1]
  /\ resolveThreads fuel HugoSamples.cycleHeap
       (ThreadIDChain HugoSamples.cycleOutbox)
       (OrderedItems HugoSamples.cycleOutbox) [] 0 = None.
Proof.
  split; [reflexivity|].
  change (OrderedItems HugoSamples.cycleOutbox) with [0; 1]. unfold resolveThreads.
  rewrite (walk_in_closed_set_never_returns HugoSamples.cycleHeap
             (ThreadIDChain HugoSamples.cycleOutbox) (fun p => p = 0 \/ p = 1));
    [done| |by left].
  intros p [-> | ->].
  - exists (HugoSamples.entry (HugoSamples.statusID "10")
              (HugoSamples.statusID "11") "<p>ping</p>"), 1.
    split; [done|]. split; [done|]. split; [vm_compute; reflexivity|].
    split; [lia|by right].
  - exists (HugoSamples.entry (HugoSamples.statusID "11")
              (HugoSamples.statusID "10") "<p>pong</p>"), 0.
    split; [done|]. split; [done|]. split; [vm_compute; reflexivity|].
    split; [lia|by left].
Qed.

End CycleInRenderTootsToDisk.

(** ** Rendering of a toot *)

Section Appending.

Lemma string_app_assoc (a b c : string) : (a +:+ b) +:+ c = a +:+ b +:+ c.
Proof.
  induction a as [|x a IH]; [done|].
  cbv [String.append]; fold String.append. by rewrite IH.
Qed.

Lemma string_app_nil_r (a : string) : a +:+ "" = a.
Proof.
  induction a as [|x a IH]; [done|].
  cbv [String.append]; fold String.append. by rewrite IH.
Qed.

Lemma extends_refl (f : string) : extends f f.
Proof. exists "". by rewrite string_app_nil_r. Qed.

Lemma extends_app (f g x : string) : extends f g -> extends f (g +:+ x).
Proof. intros [y ->]. exists (y +:+ x). apply string_app_assoc. Qed.

Lemma extends_trans (f g h : string) : extends f g -> extends g h -> extends f h.
Proof. intros Hfg [y ->]. by apply extends_app. Qed.

End Appending.

Create HintDb extends.
#[local] Hint Resolve extends_refl extends_app : extends.

Section Rendering.
Import Main.
Context {R : GoRuntime}.

Lemma writeAttachment_appends (f : string) (att : Attachment)
    (extractedMedia : gmap string string) :
  writeAttachment f att extractedMedia = f +:+ writeAttachment "" att extractedMedia.
Proof.
  unfold writeAttachment.
  destruct (extractedMedia !! _) as [filename|];
    [destruct (strings_HasPrefix _ _)|]; reflexivity.
Qed.

Lemma writeAttachments_extends (atts : list Attachment) (f : string)
    (extractedMedia : gmap string string) :
  extends f (writeAttachments f atts extractedMedia).
Proof.
  unfold writeAttachments. revert f.
  induction atts as [|att atts IH]; intros f; simpl; [auto with extends|].
  eapply extends_trans; [|apply IH].
  rewrite writeAttachment_appends. auto with extends.
Qed.

Lemma writeHashtags_extends (hashtags : list string) (f : string) (i : nat) :
  extends f (writeHashtags f i hashtags).
Proof.
  revert f i. induction hashtags as [|tag rest IH]; intros f i; simpl;
    [auto with extends|].
  eapply extends_trans; [|apply IH].
  destruct (Nat.ltb 0 i); auto with extends.
Qed.

Lemma writeHeader_extends (f headerLevel content : string) :
  extends f (writeHeader f headerLevel content).
Proof. unfold writeHeader. destruct (String.eqb _ _); auto with extends. Qed.

Lemma writeContentWarning_extends (f : string) (summary : option string) :
  extends f (writeContentWarning f summary).
Proof.
  destruct summary as [summary|]; simpl; [|auto with extends].
  destruct (negb _); auto with extends.
Qed.

Lemma writeTagBlock_extends (f : string) (tags : list Tag) :
  extends f (writeTagBlock f tags).
Proof.
  unfold writeTagBlock.
  destruct (Nat.ltb 0 (length tags)); [|auto with extends].
  destruct (Nat.ltb 0 _); [|auto with extends].
  apply extends_app. eapply extends_trans; [|apply writeHashtags_extends].
  auto with extends.
Qed.

(** Every attachment of a toot has its rendering in the text that [writeToot]
    appends to the file, and the text runs on to the backlink that ends the
    toot. *)
Lemma writeToot_renders_attachment (f : string) (toot : ActivityWithNote)
    (headerLevel : string) (extractedMedia : gmap string string) (att : Attachment) :
  att ∈ Note_Attachment (Object toot) ->
  exists pre post,
    writeToot f toot headerLevel extractedMedia
    = (((f +:+ pre) +:+ writeAttachment "" att extractedMedia) +:+ post)
        +:+ sourceLink toot.
Proof.
  intros Hin. apply list_elem_of_split in Hin as (l1 & l2 & Hsplit).
  unfold writeToot, writeAttachmentBlock. cbv zeta. rewrite Hsplit.
  replace (Nat.ltb 0 (length (l1 ++ att :: l2))) with true
    by (rewrite length_app; simpl; symmetry; apply Nat.ltb_lt; lia).
  unfold writeAttachments. rewrite foldl_app. simpl.
  rewrite writeAttachment_appends.
  match goal with
  | |- context [foldl ?step ?g0 l1] =>
      assert (extends f (foldl step g0 l1)) as [pre ->]
  end.
  { eapply extends_trans; [|apply (writeAttachments_extends l1)].
    do 2 apply extends_app. apply writeHeader_extends. }
  exists pre.
  match goal with
  | |- context [writeTagBlock (writeContentWarning (foldl ?step ?g1 l2) ?s) ?t] =>
      assert (extends g1 (writeTagBlock (writeContentWarning (foldl step g1 l2) s) t))
        as [post ->]
  end.
  { eapply extends_trans; [apply (writeAttachments_extends l2)|].
    eapply extends_trans; [apply writeContentWarning_extends|].
    apply writeTagBlock_extends. }
  by exists post.
Qed.

(** C6. An attachment whose archive path is not in the extracted-media map
    is still rendered by [writeToot]: as a link, labelled with the media
    type, to the attachment's original URL; and the text of the toot runs on
    after it to the backlink that ends every toot.  [writeToot] has no error
    result: it returns the text for every input. *)
Theorem C6_missing_source_links_original_url (f : string) (toot : ActivityWithNote)
    (headerLevel : string) (extractedMedia : gmap string string) (att : Attachment) :
  att ∈ Note_Attachment (Object toot) ->
  extractedMedia !! strings_TrimPrefix (Attachment_URL att) "/" = None ->
  exists pre post,
    writeToot f toot headerLevel extractedMedia
    = (((f +:+ pre)
          +:+ ("[Attachment: " +:+ Attachment_MediaType att +:+ "]("
                 +:+ Attachment_URL att +:+ ")" +:+ nl))
         +:+ post)
        +:+ sourceLink toot.
Proof.
  intros Hin Hmissing.
  destruct (writeToot_renders_attachment f toot headerLevel extractedMedia att Hin)
    as (pre & post & Heq).
  exists pre, post. rewrite Heq. unfold writeAttachment. by rewrite Hmissing.
Qed.

End Rendering.

Lemma C6_missing_source_links_original_url_witness :
  exists pre post,
    Main.writeToot (H := Reference.runtime) "" Samples.tootWithMedia "##"
      Samples.sampleMedia
    = ((("" +:+ pre)
          +:+ ("[Attachment: image/jpeg](/media_attachments/files/3/lost.jpg)" +:+ nl))
         +:+ post)
        +:+ sourceLink Samples.tootWithMedia.
Proof.
  apply (C6_missing_source_links_original_url (R := Reference.runtime) ""
           Samples.tootWithMedia "##" Samples.sampleMedia Samples.lostAttachment).
  - vm_compute. do 2 right. left.
  - vm_compute. reflexivity.
Defined.

Section AttachmentKinds.
Import Main.
Context {R : GoRuntime}.

Lemma concat_cons (x : string) (l : list string) :
  String.concat "" (x :: l) = x +:+ String.concat "" l.
Proof. destruct l; simpl; [by rewrite string_app_nil_r|done]. Qed.

Lemma concat_app (l1 l2 : list string) :
  String.concat "" (l1 ++ l2) = String.concat "" l1 +:+ String.concat "" l2.
Proof.
  induction l1 as [|x l1 IH]; [done|].
  change ((x :: l1) ++ l2) with (x :: (l1 ++ l2)).
  by rewrite !concat_cons, IH, string_app_assoc.
Qed.

(** C5, as amended. [writeToot] of main.go renders an attachment whose file
    was extracted by its media kind: an [image/...] attachment as a Markdown
    image embed, and every other attachment, video included, as a plain
    Markdown link; both point at the relocated file name under
    [/mastodon/media/].  The template of mastodon-to-hugo.go renders a
    [video/mp4] attachment as an embedded video player and every other
    attachment as a Markdown image embed; both point at the attachment's
    base file name. *)
Theorem C5_attachment_rendered_by_kind (f : string) (toot : ActivityWithNote)
    (headerLevel : string) (extractedMedia : gmap string string)
    (att : Attachment) (filename : string)
    (entry : MastodonToHugo.ActivityEntry)
    (a : MastodonToHugo.ActivityObjectAttachment) :
  att ∈ Note_Attachment (Object toot) ->
  extractedMedia !! strings_TrimPrefix (Attachment_URL att) "/" = Some filename ->
  a ∈ MastodonToHugo.Object_Attachments (MastodonToHugo.Entry_Object entry) ->
  (exists pre post,
     writeToot f toot headerLevel extractedMedia
     = (((f +:+ pre)
           +:+ (if strings_HasPrefix (Attachment_MediaType att) "image/"
                then "![" +:+ (if String.eqb (Attachment_Name att) "" then "attachment"
                               else Attachment_Name att)
                       +:+ "](" +:+ ("/mastodon/media/" +:+ filename) +:+ ")" +:+ nl
                else "[" +:+ (if String.eqb (Attachment_Name att) "" then filename
                              else Attachment_Name att)
                       +:+ "](" +:+ ("/mastodon/media/" +:+ filename) +:+ ")" +:+ nl))
          +:+ post)
         +:+ sourceLink toot)
  /\ (exists pre post,
        MastodonToHugo.TEMPLATE_TOOT entry
        = pre
            +:+ (nl +:+
                 (if String.eqb (MastodonToHugo.Attachment_MediaType a) "video/mp4"
                  then "<video controls autoplay muted loop width=" +:+ dq +:+ "512" +:+ dq
                         +:+ "><source src=" +:+ dq
                         +:+ MastodonToHugo.Attachment_BaseFilename a +:+ dq
                         +:+ " type=" +:+ dq +:+ MastodonToHugo.Attachment_MediaType a
                         +:+ dq +:+ " /></video>"
                  else "![" +:+ MastodonToHugo.Attachment_Name a +:+ "]("
                         +:+ MastodonToHugo.Attachment_BaseFilename a +:+ ")"))
            +:+ post).
Proof.
  intros Hin Hextracted Ha. split.
  - destruct (writeToot_renders_attachment f toot headerLevel extractedMedia att Hin)
      as (pre & post & Heq).
    exists pre, post. rewrite Heq. unfold writeAttachment. rewrite Hextracted.
    by destruct (strings_HasPrefix _ _).
  - apply list_elem_of_split in Ha as (l1 & l2 & Hsplit).
    unfold MastodonToHugo.TEMPLATE_TOOT. rewrite Hsplit, map_app, concat_app.
    change (map ?g (a :: l2)) with (g a :: map g l2). rewrite concat_cons.
    exists (nl +:+ MastodonToHugo.Object_Content (MastodonToHugo.Entry_Object entry)
              +:+ nl +:+ String.concat "" (map MastodonToHugo.renderAttachment l1)),
           (String.concat "" (map MastodonToHugo.renderAttachment l2)
              +:+ nl +:+ nl +:+ "###### [Mastodon Source " +:+ MastodonToHugo.elephant
              +:+ "](" +:+ MastodonToHugo.Object_URL (MastodonToHugo.Entry_Object entry)
              +:+ ")" +:+ nl +:+ nl +:+ "___" +:+ nl).
    unfold MastodonToHugo.renderAttachment at 2.
    by rewrite !string_app_assoc.
Qed.

End AttachmentKinds.

Lemma C5_attachment_rendered_by_kind_witness :
  (exists pre post,
     Main.writeToot (H := Reference.runtime) "" Samples.tootWithMedia "##"
       Samples.sampleMedia
     = ((("" +:+ pre) +:+ ("![attachment](/mastodon/media/cat.png)" +:+ nl)) +:+ post)
         +:+ sourceLink Samples.tootWithMedia)
  /\ (exists pre post,
        MastodonToHugo.TEMPLATE_TOOT HugoSamples.entryWithMedia
        = pre +:+ (nl +:+ "![notes](notes.pdf)") +:+ post).
Proof.
  apply (C5_attachment_rendered_by_kind (R := Reference.runtime) ""
           Samples.tootWithMedia "##" Samples.sampleMedia Samples.imageAttachment
           "cat.png" HugoSamples.entryWithMedia HugoSamples.pdfAttachment).
  - vm_compute. left.
  - vm_compute. reflexivity.
  - vm_compute. right. left.
Defined.

(** C5, as stated, fails on an extracted video: main.go renders it as a plain
    Markdown link, and the rendered toot holds no video player. *)
Lemma C5_counterexample_video_is_plain_link :
  Main.writeAttachment "" Samples.videoAttachment Samples.sampleMedia
    = "[clip](/mastodon/media/clip.mp4)" +:+ nl
  /\ strings_Contains
       (Main.writeToot (H := Reference.runtime) "" Samples.tootWithMedia "##"
          Samples.sampleMedia)
       "<video" = false.
Proof. vm_compute. done. Qed.

(** The template of mastodon-to-hugo.go has the player for a video, and an
    image embed, not a link, for a document that is neither image nor video. *)
Lemma template_renders_video_player_and_embeds_the_rest :
  strings_Contains (MastodonToHugo.renderAttachment HugoSamples.videoAttachment)
    "<video" = true
  /\ MastodonToHugo.renderAttachment HugoSamples.pdfAttachment
      = nl +:+ "![notes](notes.pdf)".
Proof. vm_compute. done. Qed.

(** ** [extractMedia] *)

Section ExtractMedia.
Import Main.
Context {R : GoRuntime}.
Variable createErr : string -> option string.
Variable mediaDir : string.

Abbreviation step := (extractEntry createErr mediaDir).
Abbreviation loop := (extractLoop createErr mediaDir).

Lemma loop_app (l1 l2 : list ZipFile) (st : MediaState) :
  loop (l1 ++ l2) st = loop l2 (loop l1 st).
Proof. apply foldl_app. Qed.

Lemma loop_cons (f : ZipFile) (l : list ZipFile) (st : MediaState) :
  loop (f :: l) st = loop l (step st f).
Proof. reflexivity. Qed.

(** What an iteration does to the map and to stderr depends on the map
    only, not on the disk or on what stderr holds. *)
Lemma step_congr (st st' : MediaState) (f : ZipFile) :
  extractedMedia st = extractedMedia st' ->
  extractedMedia (step st f) = extractedMedia (step st' f)
  /\ exists tail,
       stderr (step st f) = stderr st ++ tail
       /\ stderr (step st' f) = stderr st' ++ tail.
Proof.
  intros Hmap. unfold extractEntry. rewrite <- Hmap.
  destruct (negb _); [split; [done|exists []; by rewrite !app_nil_r]|].
  destruct (extractedMedia st !! File_Name f);
    [split; [done|exists []; by rewrite !app_nil_r]|].
  destruct (File_Open f) as [err|copied [err|]]; simpl.
  - split; [done|by eexists].
  - destruct (createErr _); simpl; (split; [done|by eexists]).
  - destruct (createErr _); simpl; [split; [done|by eexists]|].
    split; [by rewrite Hmap|exists []; by rewrite !app_nil_r].
Qed.

Lemma loop_congr (files : list ZipFile) (st st' : MediaState) :
  extractedMedia st = extractedMedia st' ->
  extractedMedia (loop files st) = extractedMedia (loop files st')
  /\ exists tail,
       stderr (loop files st) = stderr st ++ tail
       /\ stderr (loop files st') = stderr st' ++ tail.
Proof.
  revert st st'. induction files as [|f files IH]; intros st st' Hmap.
  - split; [done|exists []; by rewrite !app_nil_r].
  - rewrite !loop_cons.
    destruct (step_congr st st' f Hmap) as (Hstep & t1 & H1 & H1').
    destruct (IH _ _ Hstep) as (Hloop & t2 & H2 & H2').
    split; [done|]. exists (t1 ++ t2).
    by rewrite H2, H2', H1, H1', <- !app_assoc.
Qed.

(** A failing entry leaves the map as it is and writes its report. *)
Lemma step_failing (st : MediaState) (f : ZipFile) :
  entryFails createErr mediaDir f ->
  extractedMedia (step st f) = extractedMedia st
  /\ (isMediaEntry f -> extractedMedia st !! File_Name f = None ->
      stderr (step st f) = stderr st ++ [failureReport createErr mediaDir f]).
Proof.
  unfold entryFails, failureReport, extractEntry, isMediaEntry, destPathOf.
  intros Hfails. split.
  - destruct (negb _); [done|]. destruct (extractedMedia st !! _); [done|].
    destruct (File_Open f) as [err|copied copyErr]; [done|].
    destruct (createErr _); [done|].
    destruct copyErr; [done|]. by destruct Hfails as [[? ?]|[? ?]].
  - intros -> ->. simpl.
    destruct (File_Open f) as [err|copied copyErr]; [done|].
    destruct (createErr _); [done|].
    destruct copyErr; [done|]. by destruct Hfails as [[? ?]|[? ?]].
Qed.

End ExtractMedia.

Section Flattening.
Import Main.
Context {R : GoRuntime}.
Variable createErr : string -> option string.
Variable mediaDir : string.

Abbreviation step' := (extractEntry createErr mediaDir).
Abbreviation loop' := (extractLoop createErr mediaDir).

(** An entry is extracted when every I/O step on it succeeds. *)
Lemma step_succeeding (st : MediaState) (f : ZipFile) (copied : string) :
  isMediaEntry f ->
  File_Open f = OpenOK copied None ->
  createErr (destPathOf mediaDir f) = None ->
  extractedMedia st !! File_Name f = None ->
  extractedMedia (step' st f)
    = <[File_Name f := filepath_Base (File_Name f)]> (extractedMedia st)
  /\ disk (step' st f) = <[destPathOf mediaDir f := copied]> (disk st).
Proof.
  unfold isMediaEntry, extractEntry, destPathOf. intros -> -> -> ->. done.
Qed.

Lemma step_flat (st : MediaState) (f : ZipFile) :
  flat (extractedMedia st) -> flat (extractedMedia (step' st f)).
Proof.
  intros Hflat. unfold extractEntry.
  destruct (negb _); [done|]. destruct (extractedMedia st !! _) eqn:Hk; [done|].
  destruct (File_Open f) as [err|copied copyErr]; [done|].
  destruct (createErr _); [done|]. destruct copyErr; [done|]. simpl.
  intros k v. destruct (decide (File_Name f = k)) as [<-|Hne].
  - rewrite lookup_insert_eq. by intros [= <-].
  - rewrite lookup_insert_ne by done. apply Hflat.
Qed.

Lemma loop_flat (files : list ZipFile) (st : MediaState) :
  flat (extractedMedia st) -> flat (extractedMedia (loop' files st)).
Proof.
  revert st. induction files as [|f files IH]; intros st Hflat; [done|].
  apply IH. by apply step_flat.
Qed.

(** Entries of the map are never replaced or removed. *)
Lemma step_keeps (st : MediaState) (f : ZipFile) (k v : string) :
  extractedMedia st !! k = Some v -> extractedMedia (step' st f) !! k = Some v.
Proof.
  intros Hk. unfold extractEntry.
  destruct (negb _); [done|]. destruct (extractedMedia st !! File_Name f) eqn:Hf; [done|].
  destruct (File_Open f) as [err|copied copyErr]; [done|].
  destruct (createErr _); [done|]. destruct copyErr; [done|]. simpl.
  rewrite lookup_insert_ne; [done|]. intros Heq. congruence.
Qed.

Lemma loop_keeps (files : list ZipFile) (st : MediaState) (k v : string) :
  extractedMedia st !! k = Some v -> extractedMedia (loop' files st) !! k = Some v.
Proof.
  revert st. induction files as [|f files IH]; intros st Hk; [done|].
  apply IH. by apply step_keeps.
Qed.

(** A key that no entry carries does not enter the map. *)
Lemma step_fresh (st : MediaState) (f : ZipFile) (k : string) :
  File_Name f <> k ->
  extractedMedia st !! k = None -> extractedMedia (step' st f) !! k = None.
Proof.
  intros Hne Hk. unfold extractEntry.
  destruct (negb _); [done|]. destruct (extractedMedia st !! File_Name f); [done|].
  destruct (File_Open f) as [err|copied copyErr]; [done|].
  destruct (createErr _); [done|]. destruct copyErr; [done|]. simpl.
  by rewrite lookup_insert_ne.
Qed.

Lemma loop_fresh (files : list ZipFile) (st : MediaState) (k : string) :
  (forall g, g ∈ files -> File_Name g <> k) ->
  extractedMedia st !! k = None -> extractedMedia (loop' files st) !! k = None.
Proof.
  revert st. induction files as [|f files IH]; intros st Hfiles Hk; [done|].
  apply IH.
  - intros g Hg. apply Hfiles. by right.
  - apply step_fresh; [|done]. apply Hfiles. by left.
Qed.

(** A file on disk is left alone by the entries that go elsewhere. *)
Lemma step_disk_other (st : MediaState) (f : ZipFile) (path : string) :
  destPathOf mediaDir f <> path -> disk (step' st f) !! path = disk st !! path.
Proof.
  intros Hne. unfold extractEntry. fold (destPathOf mediaDir f).
  destruct (negb _); [done|]. destruct (extractedMedia st !! File_Name f); [done|].
  destruct (File_Open f) as [err|copied copyErr]; [done|].
  destruct (createErr _); [done|].
  destruct copyErr; simpl; by rewrite lookup_insert_ne.
Qed.

Lemma loop_disk_other (files : list ZipFile) (st : MediaState) (path : string) :
  (forall g, g ∈ files -> destPathOf mediaDir g <> path) ->
  disk (loop' files st) !! path = disk st !! path.
Proof.
  revert st. induction files as [|f files IH]; intros st Hfiles; [done|].
  rewrite loop_cons, IH.
  - apply step_disk_other, Hfiles. by left.
  - intros g Hg. apply Hfiles. by right.
Qed.

(** After a succeeding entry its name is in the map, whether the entry was
    copied or skipped as already extracted. *)
Lemma step_extracted (st : MediaState) (f : ZipFile) (copied : string) :
  flat (extractedMedia st) ->
  isMediaEntry f ->
  File_Open f = OpenOK copied None ->
  createErr (destPathOf mediaDir f) = None ->
  extractedMedia (step' st f) !! File_Name f = Some (filepath_Base (File_Name f)).
Proof.
  intros Hflat Hmedia Hopen Hcreate.
  destruct (extractedMedia st !! File_Name f) as [v|] eqn:Hk.
  - rewrite (step_keeps st f _ v Hk). f_equal. by apply Hflat.
  - destruct (step_succeeding st f copied Hmedia Hopen Hcreate Hk) as [-> _].
    by rewrite lookup_insert_eq.
Qed.

(** C10. [extractMedia] flattens the archive: every archive path in the
    returned map is sent to its base file name; and when two entries with
    different archive paths and the same base name are both copied, both
    paths are sent to that one name, and the file of that name holds what
    the later entry wrote, the earlier copy being overwritten. *)
Theorem C10_flattened_to_base_names (l1 l2 l3 : list ZipFile) (f1 f2 : ZipFile)
    (copied1 copied2 : string) (disk0 : gmap string string) :
  isMediaEntry f1 -> isMediaEntry f2 ->
  File_Name f1 <> File_Name f2 ->
  filepath_Base (File_Name f1) = filepath_Base (File_Name f2) ->
  File_Open f1 = OpenOK copied1 None ->
  File_Open f2 = OpenOK copied2 None ->
  createErr (destPathOf mediaDir f1) = None ->
  (forall g, g ∈ l1 ++ l2 -> File_Name g <> File_Name f2) ->
  (forall g, g ∈ l3 -> destPathOf mediaDir g <> destPathOf mediaDir f1) ->
  let result :=
    extractMedia createErr (l1 ++ f1 :: l2 ++ f2 :: l3) mediaDir disk0 in
  (forall k v, result.1.1 !! k = Some v -> v = filepath_Base k)
  /\ result.1.1 !! File_Name f1 = Some (filepath_Base (File_Name f1))
  /\ result.1.1 !! File_Name f2 = Some (filepath_Base (File_Name f1))
  /\ disk result.2 !! destPathOf mediaDir f1 = Some copied2.
Proof.
  intros Hm1 Hm2 Hnames Hbase Hopen1 Hopen2 Hcreate Hfresh Hlater. cbv zeta.
  assert (Hdest : destPathOf mediaDir f2 = destPathOf mediaDir f1)
    by (unfold destPathOf; by rewrite Hbase).
  unfold extractMedia. simpl. fold (emptyMediaState disk0).
  assert (Hflat0 : flat (extractedMedia (emptyMediaState disk0)))
    by (intros k v; simpl; by rewrite lookup_empty).
  split; [by apply loop_flat|].
  rewrite loop_app, loop_cons, loop_app, loop_cons.
  set (st1 := loop' l1 (emptyMediaState disk0)).
  set (st2 := loop' l2 (step' st1 f1)).
  assert (Hflat1 : flat (extractedMedia st1)) by by apply loop_flat.
  assert (Hin1 : extractedMedia st2 !! File_Name f1 = Some (filepath_Base (File_Name f1))).
  { apply loop_keeps. by apply (step_extracted st1 f1 copied1). }
  assert (Hout2 : extractedMedia st2 !! File_Name f2 = None).
  { apply loop_fresh; [intros g Hg; apply Hfresh; set_solver|].
    apply step_fresh; [done|].
    apply loop_fresh; [intros g Hg; apply Hfresh; set_solver|]. apply lookup_empty. }
  rewrite <- Hdest in Hcreate.
  destruct (step_succeeding st2 f2 copied2 Hm2 Hopen2 Hcreate Hout2) as [Hmap Hdisk].
  split; [|split].
  - apply loop_keeps. rewrite Hmap. by rewrite lookup_insert_ne.
  - apply loop_keeps. rewrite Hmap, Hbase. by rewrite lookup_insert_eq.
  - rewrite loop_disk_other by done. rewrite Hdisk, Hdest. by rewrite lookup_insert_eq.
Qed.

End Flattening.

Lemma C10_flattened_to_base_names_witness :
  let result :=
    Main.extractMedia (H := Reference.runtime) Samples.noCreateError
      ([Samples.outbox] ++ Samples.firstCat :: [Samples.brokenDog]
         ++ Samples.secondCat :: [])
      "out/media" ∅ in
  (forall k v, result.1.1 !! k = Some v -> v = filepath_Base k)
  /\ result.1.1 !! "media_attachments/files/1/cat.png" = Some "cat.png"
  /\ result.1.1 !! "media_attachments/files/3/cat.png" = Some "cat.png"
  /\ Main.disk result.2 !! "out/media/cat.png" = Some "second cat".
Proof.
  apply (C10_flattened_to_base_names (R := Reference.runtime)
           Samples.noCreateError "out/media"
           [Samples.outbox] [Samples.brokenDog] [] Samples.firstCat Samples.secondCat
           "first cat" "second cat" ∅).
  - vm_compute. reflexivity.
  - vm_compute. reflexivity.
  - vm_compute. discriminate.
  - vm_compute. reflexivity.
  - reflexivity.
  - reflexivity.
  - reflexivity.
  - intros g Hg. apply list_elem_of_In in Hg. simpl in Hg.
    destruct Hg as [<-|[<-|[]]]; vm_compute; discriminate.
  - intros g Hg. by apply elem_of_nil in Hg.
Defined.

(** ** [extractMedia]: an entry that fails *)

Section SkippedEntry.
Import Main MainRest.
Context {R : GoRuntime}.
Variable createErr : string -> option string.
Variable mediaDir : string.

(** What an iteration leaves at a path depends on the map and on what was
    at the path. *)
Lemma step_disk_congr (st st' : MediaState) (f : ZipFile) (path : string) :
  extractedMedia st = extractedMedia st' ->
  disk st !! path = disk st' !! path ->
  disk (extractEntry createErr mediaDir st f) !! path
  = disk (extractEntry createErr mediaDir st' f) !! path.
Proof.
  intros Hmap Hdisk. unfold extractEntry. rewrite <- Hmap.
  destruct (negb _); [done|]. destruct (extractedMedia st !! File_Name f); [done|].
  destruct (File_Open f) as [err|copied copyErr]; [done|].
  destruct (createErr _); [done|].
  destruct (decide (filepath_Join mediaDir (filepath_Base (File_Name f)) = path))
    as [<-|Hne];
    destruct copyErr; simpl;
    by rewrite ?lookup_insert_eq, ?lookup_insert_ne by done.
Qed.

Lemma loop_disk_congr (files : list ZipFile) (st st' : MediaState) (path : string) :
  extractedMedia st = extractedMedia st' ->
  disk st !! path = disk st' !! path ->
  disk (extractLoop createErr mediaDir files st) !! path
  = disk (extractLoop createErr mediaDir files st') !! path.
Proof.
  revert st st'. induction files as [|g files IH]; intros st st' Hmap Hdisk; [done|].
  rewrite !loop_cons. apply IH.
  - by apply step_congr.
  - by apply step_disk_congr.
Qed.

(** An entry that fails before the copy writes nothing. *)
Lemma step_fails_before_copy (st : MediaState) (f : ZipFile) :
  failsBeforeCopy createErr mediaDir f ->
  disk (extractEntry createErr mediaDir st f) = disk st.
Proof.
  unfold failsBeforeCopy, extractEntry, destPathOf. intros Hfails.
  destruct (negb _); [done|]. destruct (extractedMedia st !! File_Name f); [done|].
  destruct (File_Open f) as [err|copied copyErr]; [done|].
  destruct (createErr _); [done|]. by destruct Hfails.
Qed.

(** Every path of the map has its file on disk. *)
Lemma step_on_disk (st : MediaState) (f : ZipFile) :
  (forall k v, extractedMedia st !! k = Some v ->
     is_Some (disk st !! filepath_Join mediaDir (filepath_Base k))) ->
  forall k v,
    extractedMedia (extractEntry createErr mediaDir st f) !! k = Some v ->
    is_Some (disk (extractEntry createErr mediaDir st f)
               !! filepath_Join mediaDir (filepath_Base k)).
Proof.
  intros Hst k v. unfold extractEntry.
  destruct (negb _); [apply Hst|].
  destruct (extractedMedia st !! File_Name f); [apply Hst|].
  destruct (File_Open f) as [err|copied copyErr]; [apply Hst|].
  destruct (createErr _); [apply Hst|].
  destruct copyErr; simpl.
  - intros Hk.
    destruct (decide (filepath_Join mediaDir (filepath_Base (File_Name f))
                      = filepath_Join mediaDir (filepath_Base k))) as [<-|Hne].
    + by rewrite lookup_insert_eq.
    + rewrite lookup_insert_ne by done. by apply (Hst k v).
  - destruct (decide (File_Name f = k)) as [<-|Hname].
    + intros _. by rewrite lookup_insert_eq.
    + rewrite lookup_insert_ne by done. intros Hk.
      destruct (decide (filepath_Join mediaDir (filepath_Base (File_Name f))
                        = filepath_Join mediaDir (filepath_Base k))) as [<-|Hne].
      * by rewrite lookup_insert_eq.
      * rewrite lookup_insert_ne by done. by apply (Hst k v).
Qed.

Lemma loop_on_disk (files : list ZipFile) (st : MediaState) :
  (forall k v, extractedMedia st !! k = Some v ->
     is_Some (disk st !! filepath_Join mediaDir (filepath_Base k))) ->
  forall k v,
    extractedMedia (extractLoop createErr mediaDir files st) !! k = Some v ->
    is_Some (disk (extractLoop createErr mediaDir files st)
               !! filepath_Join mediaDir (filepath_Base k)).
Proof.
  revert st. induction files as [|g files IH]; intros st Hst; [done|].
  rewrite loop_cons. apply IH. by apply step_on_disk.
Qed.

(** An entry all of whose I/O succeeds is in the returned map. *)
Lemma loop_extracts (files : list ZipFile) (g : ZipFile) (disk0 : gmap string string) :
  g ∈ files -> isMediaEntry g -> entrySucceeds createErr mediaDir g ->
  extractedMedia (extractLoop createErr mediaDir files (emptyMediaState disk0))
    !! File_Name g
  = Some (filepath_Base (File_Name g)).
Proof.
  intros Hg Hmedia ((copied & Hopen) & Hcreate).
  apply list_elem_of_split in Hg as (l1 & l2 & ->).
  rewrite loop_app, loop_cons. apply loop_keeps.
  apply (step_extracted createErr mediaDir _ g copied); try done.
  apply loop_flat. intros k v. simpl. by rewrite lookup_empty.
Qed.

(** C8. An entry whose open, create or copy fails is skipped, and the
    others are extracted: the returned error is nil; the returned map is
    the map for the archive without that entry, and holds every other media
    entry whose own open, create and copy succeed, with a file at the
    destination of that entry; the files on disk are
    those for the archive without that entry at every path other than the
    destination of the failing entry, and at every path when the failure
    is in the open or in the create; and when the entry was attempted,
    stderr holds its report in addition.  A copy that fails leaves what it
    wrote at its destination. *)
Theorem C8_failing_entry_skipped_rest_extracted (before after : list ZipFile)
    (f : ZipFile) (disk0 : gmap string string) :
  isMediaEntry f ->
  entryFails createErr mediaDir f ->
  let withEntry := extractMedia createErr (before ++ f :: after) mediaDir disk0 in
  let without := extractMedia createErr (before ++ after) mediaDir disk0 in
  withEntry.1.2 = None
  /\ withEntry.1.1 = without.1.1
  /\ (forall g, g ∈ before ++ after -> isMediaEntry g ->
        entrySucceeds createErr mediaDir g ->
        withEntry.1.1 !! File_Name g = Some (filepath_Base (File_Name g))
        /\ is_Some (disk withEntry.2 !! destPathOf mediaDir g))
  /\ (forall path, path <> destPathOf mediaDir f ->
        disk withEntry.2 !! path = disk without.2 !! path)
  /\ (failsBeforeCopy createErr mediaDir f -> disk withEntry.2 = disk without.2)
  /\ (extractedMedia (extractLoop createErr mediaDir before (emptyMediaState disk0))
        !! File_Name f = None ->
      exists pre tail,
        stderr without.2 = pre ++ tail
        /\ stderr withEntry.2
           = pre ++ [failureReport createErr mediaDir f] ++ tail).
Proof.
  intros Hmedia Hfails. cbv zeta.
  unfold extractMedia. simpl. fold (emptyMediaState disk0).
  rewrite !loop_app, loop_cons.
  set (st := extractLoop createErr mediaDir before (emptyMediaState disk0)).
  destruct (step_failing createErr mediaDir st f Hfails) as [Hmap Herr].
  destruct (loop_congr createErr mediaDir after _ st Hmap) as (Hloop & tail & H1 & H2).
  split; [done|]. split; [done|]. split; [|split; [|split]].
  - intros g Hg Hg1 Hg2.
    pose proof (loop_extracts (before ++ after) g disk0 Hg Hg1 Hg2) as Hin.
    rewrite loop_app in Hin. fold st in Hin. rewrite <- Hloop in Hin.
    split; [exact Hin|].
    pose proof (loop_on_disk (before ++ f :: after) (emptyMediaState disk0)) as Hdisk.
    rewrite loop_app, loop_cons in Hdisk. fold st in Hdisk.
    apply (Hdisk (fun k v => ltac:(simpl; by rewrite lookup_empty)) _ _ Hin).
  - intros path Hpath. apply loop_disk_congr; [done|].
    apply step_disk_other. congruence.
  - intros Hearly. apply map_eq. intros path.
    apply loop_disk_congr; [done|]. by rewrite step_fails_before_copy.
  - intros Hfresh. exists (stderr st), tail. split; [done|].
    by rewrite H1, (Herr Hmedia Hfresh), <- app_assoc.
Qed.

End SkippedEntry.

Lemma C8_failing_entry_skipped_rest_extracted_witness :
  let archive :=
    [Samples.outbox; Samples.firstCat] ++ Samples.brokenDog :: [Samples.secondCat] in
  let rest := [Samples.outbox; Samples.firstCat] ++ [Samples.secondCat] in
  let withEntry :=
    Main.extractMedia (H := Reference.runtime) Samples.noCreateError archive
      "out/media" ∅ in
  let without :=
    Main.extractMedia (H := Reference.runtime) Samples.noCreateError rest
      "out/media" ∅ in
  withEntry.1.2 = None
  /\ withEntry.1.1 = without.1.1
  /\ (forall g, g ∈ rest -> isMediaEntry g ->
        MainRest.entrySucceeds (H := Reference.runtime) Samples.noCreateError
          "out/media" g ->
        withEntry.1.1 !! Main.File_Name g
        = Some (filepath_Base (Main.File_Name g))
        /\ is_Some (Main.disk withEntry.2
                      !! destPathOf (H := Reference.runtime) "out/media" g))
  /\ (forall path,
        path <> destPathOf (H := Reference.runtime) "out/media" Samples.brokenDog ->
        Main.disk withEntry.2 !! path = Main.disk without.2 !! path)
  /\ (failsBeforeCopy (H := Reference.runtime) Samples.noCreateError "out/media"
        Samples.brokenDog ->
      Main.disk withEntry.2 = Main.disk without.2)
  /\ (Main.extractedMedia
        (Main.extractLoop (H := Reference.runtime) Samples.noCreateError "out/media"
           [Samples.outbox; Samples.firstCat] (emptyMediaState ∅))
        !! Main.File_Name Samples.brokenDog = None ->
      exists pre tail,
        Main.stderr without.2 = pre ++ tail
        /\ Main.stderr withEntry.2
           = pre ++ [failureReport (H := Reference.runtime) Samples.noCreateError
                       "out/media" Samples.brokenDog] ++ tail).
Proof.
  apply (C8_failing_entry_skipped_rest_extracted (R := Reference.runtime)
           Samples.noCreateError "out/media"
           [Samples.outbox; Samples.firstCat] [Samples.secondCat]
           Samples.brokenDog ∅).
  - vm_compute. reflexivity.
  - vm_compute. exact I.
Defined.

(** A copy that breaks off has already written to its destination: the
    entry is skipped in the map, but the file of the earlier entry with the
    same base name now holds the bytes of the failing one. *)
Lemma C8_counterexample_failed_copy_overwrites :
  let withEntry :=
    Main.extractMedia (H := Reference.runtime) Samples.noCreateError
      ([Samples.outbox; Samples.firstCat] ++ Samples.halfCat :: []) "out/media" ∅ in
  let without :=
    Main.extractMedia (H := Reference.runtime) Samples.noCreateError
      ([Samples.outbox; Samples.firstCat] ++ []) "out/media" ∅ in
  isMediaEntry Samples.halfCat
  /\ entryFails (H := Reference.runtime) Samples.noCreateError "out/media"
       Samples.halfCat
  /\ withEntry.1.1 = without.1.1
  /\ withEntry.1.1 !! Main.File_Name Samples.firstCat = Some "cat.png"
  /\ Main.disk without.2 !! "out/media/cat.png" = Some "first cat"
  /\ Main.disk withEntry.2 !! "out/media/cat.png" = Some "sec".
Proof.
  cbv zeta. split; [vm_compute; reflexivity|].
  split; [right; by eexists|].
  repeat split; vm_compute; reflexivity.
Qed.

(** ** [htmlToText] on text without markup *)

Section PlainText.
Import Main.

Lemma htmlSpace_cases (c : ascii) :
  isHtmlSpace c = true ->
  c = byte 32 \/ c = byte 9 \/ c = byte 10 \/ c = byte 12 \/ c = byte 13.
Proof.
  destruct c as [[] [] [] [] [] [] [] []]; vm_compute; intros H;
    try discriminate H; auto 6.
Qed.

(** The leading whitespace that the parser drops is whitespace for
    [strings.TrimSpace] too. *)
Lemma TrimLeftSpace_html_trim (s : string) :
  strings_TrimLeftSpace (string_trim_left isHtmlSpace s) = strings_TrimLeftSpace s.
Proof.
  induction s as [|c s IH]; [done|]. simpl.
  destruct (isHtmlSpace c) eqn:Hc; [|done].
  rewrite IH. unfold strings_TrimLeftSpace.
  destruct (htmlSpace_cases c Hc) as [-> | [-> | [-> | [-> | ->]]]]; reflexivity.
Qed.

Lemma TrimSpace_html_trim (s : string) :
  strings_TrimSpace (string_trim_left isHtmlSpace s) = strings_TrimSpace s.
Proof. unfold strings_TrimSpace. by rewrite TrimLeftSpace_html_trim. Qed.

Lemma traverse_plainDocument (s : string) :
  traverse (plainDocument s) false "" = string_trim_left isHtmlSpace s.
Proof.
  unfold plainDocument.
  destruct (String.eqb_spec (string_trim_left isHtmlSpace s) "") as [->|Hne];
    reflexivity.
Qed.

Lemma cleanupText_spec (text : string) :
  cleanupText text
  = strings_Join (map wrapBareURL (nonEmptyTrimmedLines (strings_TrimSpace text)))
      (nl +:+ nl).
Proof.
  unfold cleanupText, cleanedLines, nonEmptyTrimmedLines.
  by rewrite cleanLines_spec.
Qed.

Lemma map_unchanged {A : Type} (g : A -> A) (l : list A) :
  (forall x, x ∈ l -> g x = x) -> map g l = l.
Proof.
  induction l as [|x l IH]; intros H; simpl; [done|].
  rewrite H by (by left). rewrite IH; [done|]. intros y Hy. apply H. by right.
Qed.

End PlainText.

(** [strings.TrimSpace], [strings.Split] and [strings.Join] on the lines of a
    text. *)
Section Lines.

Lemma string_app_cons (c : ascii) (s t : string) :
  String c s +:+ t = String c (s +:+ t).
Proof. reflexivity. Qed.

Lemma string_rev_app (a b : string) :
  string_rev (a +:+ b) = string_rev b +:+ string_rev a.
Proof.
  induction a as [|c a IH].
  - simpl. by rewrite string_app_nil_r.
  - rewrite string_app_cons. simpl. by rewrite IH, string_app_assoc.
Qed.

Lemma string_rev_involutive (s : string) : string_rev (string_rev s) = s.
Proof.
  induction s as [|c s IH]; [done|]. simpl.
  by rewrite string_rev_app, IH.
Qed.

Lemma string_rev_nonempty (s : string) : s <> "" -> string_rev s <> "".
Proof. intros Hs Hrev. apply Hs. by rewrite <- (string_rev_involutive s), Hrev. Qed.

Lemma string_app_nonempty (a b : string) : a <> "" -> a +:+ b <> "".
Proof. by destruct a. Qed.

Lemma HasPrefix_app_mono (w x r : string) :
  strings_HasPrefix w r = true -> strings_HasPrefix (w +:+ x) r = true.
Proof.
  revert w. induction r as [|c r IH]; intros [|d w]; simpl; try done.
  intros [-> Hw]%andb_prop. by rewrite (IH _ Hw).
Qed.

(** A rune does not reach over a line feed. *)
Lemma HasPrefix_before_LF (l y r : string) :
  noLF r = true ->
  strings_HasPrefix (l +:+ String LF y) r = true -> strings_HasPrefix l r = true.
Proof.
  revert l. induction r as [|c r IH]; intros l; simpl; [done|].
  intros [Hc Hr]%andb_prop. destruct l as [|d l].
  - change ("" +:+ String LF y) with (String LF y).
    intros [Heq _]%andb_prop. apply Ascii.eqb_eq in Heq as ->.
    by rewrite Ascii.eqb_refl in Hc.
  - rewrite string_app_cons. intros [-> Hl]%andb_prop. by rewrite (IH _ Hr Hl).
Qed.

Section Runes.
Variable runes : list string.

Lemma rune_width_nil : rune_width runes "" = 0.
Proof. induction runes as [|[|c r] rs IH]; simpl; done. Qed.

Lemma trim_left_stable (s : string) (skip : nat) :
  rune_width runes (trim_left runes skip s) = 0.
Proof.
  revert skip. induction s as [|c s IH]; intros skip; [apply rune_width_nil|].
  destruct skip as [|k]; [|apply IH].
  cbn [trim_left]. destruct (rune_width runes (String c s)) eqn:Hw; [done|apply IH].
Qed.

Lemma trim_left_fixed (s : string) :
  rune_width runes s = 0 -> trim_left runes 0 s = s.
Proof. destruct s as [|c s]; [done|]. intros H. cbn [trim_left]. by rewrite H. Qed.

Lemma trim_left_suffix (s : string) (skip : nat) :
  exists p, s = p +:+ trim_left runes skip s.
Proof.
  revert skip. induction s as [|c s IH]; intros skip; [by exists ""|].
  destruct skip as [|k].
  - cbn [trim_left]. destruct (rune_width runes (String c s)) as [|k]; [by exists ""|].
    destruct (IH k) as [p Hp]. exists (String c p). by rewrite string_app_cons, <- Hp.
  - destruct (IH k) as [p Hp]. exists (String c p).
    cbn [trim_left]. by rewrite string_app_cons, <- Hp.
Qed.

Hypothesis safe : lineSafe runes = true.

(** A prefix of a string that starts with no rune starts with none. *)
Lemma rune_width_prefix (w x : string) :
  rune_width runes (w +:+ x) = 0 -> rune_width runes w = 0.
Proof.
  unfold lineSafe in safe. induction runes as [|r rs IH]; [done|].
  simpl in safe. apply andb_prop in safe as [Hr Hrs]. simpl.
  destruct (strings_HasPrefix w r) eqn:Hw.
  - by rewrite (HasPrefix_app_mono w x r Hw).
  - destruct (strings_HasPrefix (w +:+ x) r); [by destruct r|by apply IH].
Qed.

(** What follows a line feed does not change how a non-empty line starts. *)
Lemma rune_width_before_LF (l y : string) :
  l <> "" -> rune_width runes (l +:+ String LF y) = rune_width runes l.
Proof.
  intros Hl. unfold lineSafe in safe. induction runes as [|r rs IH]; [done|].
  simpl in safe. apply andb_prop in safe as [Hr Hrs]. simpl.
  destruct (strings_HasPrefix l r) eqn:Hw.
  - by rewrite (HasPrefix_app_mono l _ r Hw).
  - destruct (strings_HasPrefix (l +:+ String LF y) r) eqn:Hly; [|by apply IH].
    destruct r as [|c r]; [done|]. destruct l as [|d l]; [done|].
    rewrite string_app_cons in Hly. simpl in Hly, Hw.
    apply andb_prop in Hly as [Hcd Hly].
    by rewrite Hcd, (HasPrefix_before_LF l y r Hr Hly) in Hw.
Qed.

End Runes.

Lemma space_runes_safe : lineSafe space_runes = true.
Proof. reflexivity. Qed.

Lemma space_runes_rev_safe : lineSafe (map string_rev space_runes) = true.
Proof. reflexivity. Qed.

Lemma TrimRightSpace_prefix (z : string) :
  exists q, z = strings_TrimRightSpace z +:+ q.
Proof.
  unfold strings_TrimRightSpace.
  destruct (trim_left_suffix (map string_rev space_runes) (string_rev z) 0) as [p Hp].
  exists (string_rev p).
  by rewrite <- string_rev_app, <- Hp, string_rev_involutive.
Qed.

Lemma TrimSpace_trimmed (y : string) : trimmed (strings_TrimSpace y).
Proof.
  unfold strings_TrimSpace, trimmed. split.
  - destruct (TrimRightSpace_prefix (strings_TrimLeftSpace y)) as [q Hq].
    apply (rune_width_prefix space_runes space_runes_safe _ q).
    rewrite <- Hq. apply trim_left_stable.
  - unfold strings_TrimRightSpace. rewrite string_rev_involutive.
    apply trim_left_stable.
Qed.

Lemma trimmed_TrimSpace (l : string) : trimmed l -> strings_TrimSpace l = l.
Proof.
  intros [Hleft Hright].
  unfold strings_TrimSpace, strings_TrimLeftSpace, strings_TrimRightSpace.
  rewrite (trim_left_fixed _ l Hleft), (trim_left_fixed _ _ Hright).
  apply string_rev_involutive.
Qed.

Lemma noLF_app (a b : string) : noLF (a +:+ b) = noLF a && noLF b.
Proof.
  induction a as [|c a IH]; [done|].
  rewrite string_app_cons. simpl. by rewrite IH, andb_assoc.
Qed.

Lemma TrimSpace_noLF (x : string) : noLF x = true -> noLF (strings_TrimSpace x) = true.
Proof.
  intros Hx. unfold strings_TrimSpace.
  destruct (trim_left_suffix space_runes x 0) as [p Hp].
  fold (strings_TrimLeftSpace x) in Hp.
  destruct (TrimRightSpace_prefix (strings_TrimLeftSpace x)) as [q Hq].
  rewrite Hp, Hq, !noLF_app in Hx.
  by apply andb_prop in Hx as [_ [Hx _]%andb_prop].
Qed.

Lemma Split_noLF (s x : string) : x ∈ strings_Split s LF -> noLF x = true.
Proof.
  revert x. induction s as [|c s IH]; intros x; simpl.
  - by intros ->%list_elem_of_singleton.
  - destruct (Ascii.eqb c LF) eqn:Hc.
    + intros [->|Hx]%elem_of_cons; [done|by apply IH].
    + destruct (strings_Split s LF) as [|h t]; simpl.
      * by intros ->%list_elem_of_singleton; simpl; rewrite Hc.
      * intros [->|Hx]%elem_of_cons.
        -- simpl. rewrite Hc. simpl. apply IH. by left.
        -- apply IH. by right.
Qed.

Lemma Split_line_LF (l y : string) :
  noLF l = true -> strings_Split (l +:+ String LF y) LF = l :: strings_Split y LF.
Proof.
  induction l as [|c l IH]; intros Hl.
  - reflexivity.
  - simpl in Hl. apply andb_prop in Hl as [Hc Hl].
    rewrite string_app_cons. simpl.
    destruct (Ascii.eqb c LF); [done|]. by rewrite (IH Hl).
Qed.

Lemma Split_line (l : string) : noLF l = true -> strings_Split l LF = [l].
Proof.
  induction l as [|c l IH]; intros Hl; [done|].
  simpl in Hl. apply andb_prop in Hl as [Hc Hl]. simpl.
  destruct (Ascii.eqb c LF); [done|]. by rewrite (IH Hl).
Qed.

Lemma nonEmptyTrimmedLines_clean (s l : string) :
  l ∈ nonEmptyTrimmedLines s -> cleanLine l.
Proof.
  unfold nonEmptyTrimmedLines. rewrite list_elem_of_filter, list_elem_of_fmap.
  intros [Hne (x & -> & Hx)]. split; [|split; [|done]].
  - by apply TrimSpace_noLF, (Split_noLF s).
  - apply TrimSpace_trimmed.
Qed.

Lemma Join_cons2 (l l2 : string) (rest : list string) (sep : string) :
  strings_Join (l :: l2 :: rest) sep = l +:+ sep +:+ strings_Join (l2 :: rest) sep.
Proof. reflexivity. Qed.

Lemma Join_nonempty (l : string) (rest : list string) (sep : string) :
  l <> "" -> strings_Join (l :: rest) sep <> "".
Proof. destruct rest; [done|]. rewrite Join_cons2. apply string_app_nonempty. Qed.

Lemma Join_trimmed (ls : list string) :
  Forall cleanLine ls -> trimmed (strings_Join ls (nl +:+ nl)).
Proof.
  induction 1 as [|l rest (Hlf & [Hleft Hright] & Hne) Hrest IH]; [done|].
  destruct rest as [|l2 rest]; [done|].
  rewrite Join_cons2. destruct IH as [_ IHright]. split.
  - change (nl +:+ nl) with (String LF nl). rewrite string_app_cons.
    by rewrite (rune_width_before_LF space_runes space_runes_safe).
  - set (tail := strings_Join (l2 :: rest) (nl +:+ nl)) in *.
    assert (Hrev : string_rev (l +:+ (nl +:+ nl) +:+ tail)
                   = string_rev tail +:+ String LF (String LF (string_rev l))).
    { rewrite (string_rev_app l), (string_rev_app (nl +:+ nl)).
      by rewrite string_app_assoc. }
    rewrite Hrev, (rune_width_before_LF _ space_runes_rev_safe); [done|].
    apply string_rev_nonempty, Join_nonempty.
    by inversion Hrest as [|? ? (_ & _ & ?) _].
Qed.

Lemma lines_of_Join (ls : list string) :
  Forall cleanLine ls -> nonEmptyTrimmedLines (strings_Join ls (nl +:+ nl)) = ls.
Proof.
  unfold nonEmptyTrimmedLines.
  induction 1 as [|l rest (Hlf & Htrim & Hne) Hrest IH]; [done|].
  destruct rest as [|l2 rest].
  - simpl strings_Join. rewrite (Split_line l Hlf). simpl.
    rewrite (trimmed_TrimSpace l Htrim), filter_cons, decide_True by done. done.
  - rewrite Join_cons2. change (nl +:+ nl) with (String LF (String LF "")).
    rewrite !string_app_cons. change ("" +:+ ?x) with x.
    rewrite (Split_line_LF l _ Hlf).
    change (strings_Split (String LF ?x) LF) with ("" :: strings_Split x LF).
    simpl map. rewrite (trimmed_TrimSpace l Htrim).
    rewrite filter_cons, decide_True by done.
    rewrite filter_cons, decide_False by (intros H; by apply H).
    f_equal. exact IH.
Qed.

Lemma isPlainText_app (a b : string) :
  isPlainText (a +:+ b) = isPlainText a && isPlainText b.
Proof.
  induction a as [|c a IH]; [done|].
  rewrite string_app_cons. simpl. by rewrite IH, andb_assoc.
Qed.

Lemma isPlainText_Join (ls : list string) (sep x : string) :
  isPlainText (strings_Join ls sep) = true -> x ∈ ls -> isPlainText x = true.
Proof.
  induction ls as [|l rest IH]; intros Hplain Hx; [by apply elem_of_nil in Hx|].
  destruct rest as [|l2 rest].
  - by apply list_elem_of_singleton in Hx as ->.
  - rewrite Join_cons2, !isPlainText_app in Hplain.
    apply andb_prop in Hplain as [Hl [_ Hrest]%andb_prop].
    apply elem_of_cons in Hx as [->|Hx]; [done|by apply IH].
Qed.

Lemma plain_wrapBareURL (l : string) :
  isPlainText (Main.wrapBareURL l) = true -> Main.wrapBareURL l = l.
Proof. unfold Main.wrapBareURL. by destruct (_ || _). Qed.

End Lines.

Section PlainTextOutput.
Import Main.

Lemma htmlToText_plain {R : GoRuntime} (s : string) :
  ParsesPlainText R ->
  isPlainText s = true ->
  htmlToText s
  = strings_Join (map wrapBareURL (nonEmptyTrimmedLines (strings_TrimSpace s)))
      (nl +:+ nl).
Proof.
  intros Hparse Hplain.
  unfold htmlToText. rewrite (Hparse s Hplain), traverse_plainDocument.
  by rewrite cleanupText_spec, TrimSpace_html_trim.
Qed.

(** C7, as amended. For every input without markup, the output of the
    content transformer is the trimmed non-empty lines of the input, in
    order and separated by blank lines, where every line that begins with
    "http://" or "https://" has been put in angle brackets.  So the output
    equals the input up to whitespace normalisation when no line of the
    input begins with "http://" or "https://"; and the transformer is
    idempotent on its own output when that output is without markup too. *)
Theorem C7_plain_text_normalised_urls_wrapped {R : GoRuntime} (s : string) :
  ParsesPlainText R ->
  isPlainText s = true ->
  htmlToText s
    = strings_Join (map wrapBareURL (nonEmptyTrimmedLines (strings_TrimSpace s)))
        (nl +:+ nl)
  /\ ((forall line, line ∈ nonEmptyTrimmedLines (strings_TrimSpace s) ->
         strings_HasPrefix line "http://" = false
         /\ strings_HasPrefix line "https://" = false) ->
      htmlToText s
        = strings_Join (nonEmptyTrimmedLines (strings_TrimSpace s)) (nl +:+ nl))
  /\ (isPlainText (htmlToText s) = true ->
      htmlToText (htmlToText s) = htmlToText s).
Proof.
  intros Hparse Hplain.
  pose proof (htmlToText_plain s Hparse Hplain) as Hout.
  split; [exact Hout|]. split.
  - intros Hnourl. rewrite Hout. f_equal. apply map_unchanged.
    intros line Hline. unfold wrapBareURL.
    by destruct (Hnourl line Hline) as [-> ->].
  - intros Hplain'. rewrite (htmlToText_plain _ Hparse Hplain').
    set (lines := nonEmptyTrimmedLines (strings_TrimSpace s)) in *.
    assert (Hsame : map wrapBareURL lines = lines).
    { apply map_unchanged. intros l Hl. apply plain_wrapBareURL.
      rewrite Hout in Hplain'.
      apply (isPlainText_Join _ _ _ Hplain'), list_elem_of_fmap. by exists l. }
    assert (Hclean : Forall cleanLine lines).
    { apply Forall_forall. intros l Hl.
      by apply (nonEmptyTrimmedLines_clean (strings_TrimSpace s)). }
    rewrite Hout, Hsame.
    rewrite (trimmed_TrimSpace _ (Join_trimmed lines Hclean)).
    by rewrite (lines_of_Join lines Hclean), Hsame.
Qed.

End PlainTextOutput.

(** The reference parser on text without markup. *)
Section ReferencePlainText.

Lemma plain_byte_not_lt (c : ascii) : isPlainByte c = true -> Ascii.eqb c "<" = false.
Proof.
  destruct (Ascii.eqb_spec c "<") as [->|]; [|done]. vm_compute. discriminate.
Qed.

Lemma lex_plain (s acc : string) (out : list Reference.Token) :
  isPlainText s = true ->
  Reference.lex s (Reference.LData acc) out = Reference.emitText (acc +:+ s) out.
Proof.
  revert acc. induction s as [|c s IH]; intros acc; simpl.
  - intros _. by rewrite string_app_nil_r.
  - intros [Hc Hs]%andb_prop. rewrite (plain_byte_not_lt c Hc), (IH _ Hs).
    unfold Reference.snoc. by rewrite string_app_assoc.
Qed.

Lemma reference_parses_plain_text : ParsesPlainText Reference.runtime.
Proof.
  intros s Hplain. simpl. f_equal. unfold Reference.parse, plainDocument.
  rewrite (lex_plain s "" [] Hplain). unfold Reference.emitText.
  change ("" +:+ s) with s.
  destruct s as [|c s]; [reflexivity|].
  change (String.eqb (String c s) "") with false. cbv iota. simpl app.
  cbn [Reference.build].
  destruct (String.eqb (string_trim_left isHtmlSpace (String c s)) ""); reflexivity.
Qed.

End ReferencePlainText.

Lemma C7_plain_text_normalised_urls_wrapped_witness :
  Main.htmlToText (H := Reference.runtime)
    ("  hello " +:+ nl +:+ nl +:+ nl +:+ " https://x and more  ")
  = "hello" +:+ nl +:+ nl +:+ "<https://x and more>".
Proof.
  destruct (C7_plain_text_normalised_urls_wrapped (R := Reference.runtime)
              ("  hello " +:+ nl +:+ nl +:+ nl +:+ " https://x and more  ")
              reference_parses_plain_text eq_refl) as [H _].
  rewrite H. vm_compute. reflexivity.
Defined.

(** C7, as stated, fails on a bare URL: the input has no markup, and the
    output is the URL in angle brackets, which is not the input up to
    whitespace normalisation. *)
Lemma C7_counterexample_bare_url :
  isPlainText "https://x" = true
  /\ Main.htmlToText (H := Reference.runtime) "https://x" = "<https://x>"
  /\ nonEmptyTrimmedLines (Main.htmlToText (H := Reference.runtime) "https://x")
     <> nonEmptyTrimmedLines "https://x".
Proof. vm_compute. repeat split; discriminate. Qed.

(** Nor is the transformer idempotent there: the second pass reads the
    bracketed URL as a tag and gives the empty text. *)
Lemma second_pass_drops_wrapped_url :
  Main.htmlToText (H := Reference.runtime)
    (Main.htmlToText (H := Reference.runtime) "https://x") = "".
Proof. vm_compute. reflexivity. Qed.

(** ** The round-trip scenario *)

Section Scenario.
Import Main.
Context {R : GoRuntime} {L : GoRuntimeLaws R}.
Hypothesis parse_root : html_Parse Samples.rootContent = inl Samples.rootDocument.
Hypothesis parse_reply : html_Parse Samples.replyContent = inl Samples.replyDocument.

Lemma htmlToText_root : htmlToText Samples.rootContent = "Hello  world".
Proof. unfold htmlToText. rewrite parse_root. vm_compute. reflexivity. Qed.

Lemma htmlToText_reply : htmlToText Samples.replyContent = "follow-up".
Proof. unfold htmlToText. rewrite parse_reply. vm_compute. reflexivity. Qed.

Lemma writeToot_root (f : string) (extractedMedia : gmap string string) :
  writeToot f Samples.scenarioRoot "##" extractedMedia
  = f +:+ "## Hello  world" +:+ nl +:+ nl +:+ "Hello  world" +:+ nl
      +:+ sourceLink Samples.scenarioRoot.
Proof.
  unfold writeToot.
  change (Note_Content (Object Samples.scenarioRoot)) with Samples.rootContent.
  rewrite htmlToText_root. cbn. by rewrite !string_app_assoc.
Qed.

Lemma writeToot_reply (f : string) (extractedMedia : gmap string string) :
  writeToot f Samples.scenarioReply "###" extractedMedia
  = f +:+ "follow-up" +:+ nl +:+ sourceLink Samples.scenarioReply.
Proof.
  unfold writeToot.
  change (Note_Content (Object Samples.scenarioReply)) with Samples.replyContent.
  rewrite htmlToText_reply. cbn. by rewrite !string_app_assoc.
Qed.

Lemma scenario_threads (fuel : nat) (t : Time) :
  time_Parse_RFC3339 "2024-02-02T17:40:31Z" = inl t ->
  buildThreads (S (S fuel)) [Samples.scenarioRoot; Samples.scenarioReply]
  = Some ({[ Format_date t := [{| Root := Samples.scenarioRoot;
                                  Replies := [Samples.scenarioReply] |}] ]}, []).
Proof.
  intros Htime.
  assert (Hleaf : findReplies (S fuel) [Samples.scenarioRoot; Samples.scenarioReply]
                    (Note_ID (Object Samples.scenarioReply)) = Some []).
  { cbn. rewrite !decide_False by (vm_compute; congruence).
    by rewrite sort_Slice_nil. }
  assert (Hreplies : findReplies (S (S fuel)) [Samples.scenarioRoot; Samples.scenarioReply]
                       (Note_ID (Object Samples.scenarioRoot))
                     = Some [Samples.scenarioReply]).
  { change (findReplies (S (S fuel)) ?l ?i)
      with (match findReplies (S fuel) l (Note_ID (Object Samples.scenarioReply)) with
            | None => None
            | Some sub => Some (sort_Slice lessPublished (([] ++ [Samples.scenarioReply]) ++ sub))
            end).
    rewrite Hleaf. simpl. by rewrite sort_Slice_singleton. }
  unfold buildThreads, buildLoop.
  change (isSelfReply Samples.scenarioRoot) with false.
  change (isSelfReply Samples.scenarioReply) with true. cbv iota.
  rewrite Hreplies.
  change (Published Samples.scenarioRoot) with "2024-02-02T17:40:31Z".
  rewrite Htime. unfold appendThread. simpl. by rewrite lookup_empty.
Qed.

(** C3, as amended. For the two-record archive of the round-trip scenario,
    given the trees that the HTML parser builds for the two contents, the
    pipeline writes exactly one document.  In it the root is rendered
    under a level-2 heading, with the hashtag link and its text left out and
    the spaces on both sides of the link kept, as "Hello  world"; the reply
    "follow-up" comes after it, with no heading of its own; and the
    statistics are 2 processed, 2 output, 0 omitted. *)
Theorem C3_round_trip_scenario (fuel : nat) (outputDir generatedAt : string)
    (extractedMedia : gmap string string) (t : Time) :
  time_Parse_RFC3339 "2024-02-02T17:40:31Z" = inl t ->
  convert (S (S fuel)) Samples.scenarioArchive outputDir extractedMedia generatedAt
  = Some ([(datePath outputDir (Format_date t),
            frontmatter (Format_date t) generatedAt
              +:+ ("# Toots from " +:+ Format_date t +:+ nl +:+ nl)
              +:+ ("## Hello  world" +:+ nl +:+ nl
                   +:+ "Hello  world" +:+ nl
                   +:+ sourceLink Samples.scenarioRoot)
              +:+ nl
              +:+ ("follow-up" +:+ nl
                   +:+ sourceLink Samples.scenarioReply)
              +:+ (nl +:+ "---" +:+ nl +:+ nl))],
          Samples.twoTwoZero, [])
  /\ tootsOmitted Samples.twoTwoZero = 0%Z.
Proof.
  intros Htime. split; [|reflexivity]. unfold convert.
  change (collectToots Samples.scenarioArchive zeroStats)
    with ([Samples.scenarioRoot; Samples.scenarioReply], Samples.twoTwoZero).
  cbv beta iota. rewrite (scenario_threads fuel t Htime).
  unfold writeMarkdownFiles, sortedDates.
  rewrite map_to_list_singleton. simpl map at 2.
  rewrite sort_Slice_singleton. simpl map.
  rewrite lookup_singleton_eq. simpl default.
  unfold dateDocument. rewrite sort_Slice_singleton. simpl foldl.
  unfold writeThread. simpl foldl.
  rewrite writeToot_root, writeToot_reply.
  do 3 f_equal. by rewrite !string_app_assoc.
Qed.

End Scenario.

Lemma C3_round_trip_scenario_witness :
  exists doc,
    Main.convert (H := Reference.runtime) 2 Samples.scenarioArchive "out" ∅
      "2024-06-01T00:00:00Z"
    = Some ([("out/2024/2024-02-02.md", doc)], Samples.twoTwoZero, [])
    /\ strings_Contains doc ("## Hello  world" +:+ nl) = true.
Proof.
  destruct (C3_round_trip_scenario (R := Reference.runtime) (L := reference_laws)
              ltac:(vm_compute; reflexivity) ltac:(vm_compute; reflexivity)
              0 "out" "2024-06-01T00:00:00Z" ∅
              {| Year := 2024; Month := 2; Day := 2 |} eq_refl) as [H _].
  rewrite H. eexists. split; [reflexivity|]. vm_compute. reflexivity.
Defined.

(** C3, as stated, fails: the scenario's document has "Hello  world", with
    the two spaces that stood on both sides of the elided link, and not
    "Hello world"; and the reply has no heading. *)
Lemma C3_counterexample_two_spaces_no_reply_heading :
  Main.htmlToText (H := Reference.runtime) Samples.rootContent = "Hello  world"
  /\ match Main.convert (H := Reference.runtime) 2 Samples.scenarioArchive "out" ∅
            "2024-06-01T00:00:00Z" with
     | Some ([(_, doc)], _, _) =>
         strings_Contains doc "Hello world" = false
         /\ strings_Contains doc "# follow-up" = false
     | _ => False
     end.
Proof. vm_compute. done. Qed.

(** * Further properties of main.go *)

(** ** [collectToots]: what is kept and what is counted *)

Section CollectToots.
Import Main MainRest.
#[local] Open Scope Z_scope.

Lemma collectStep_kept (st : list ActivityWithNote * Stats) (activity : Activity) :
  (collectStep st activity).1 = st.1 ++ option_list (keptToot activity).
Proof.
  destruct st as [allToots stats]. unfold collectStep, keptToot, isPublic.
  destruct (Activity_Object activity) as [note|]; [|by rewrite app_nil_r].
  destruct (String.eqb (Note_Content note) ""); simpl; [by rewrite app_nil_r|].
  destruct (slices_Contains (Note_To note) publicURI
            || slices_Contains (Note_Cc note) publicURI); simpl;
    [|by rewrite app_nil_r].
  destruct (repliesToOther _ _); simpl; [by rewrite app_nil_r|done].
Qed.

Lemma collect_fold_kept (items : list Activity) (st : list ActivityWithNote * Stats) :
  (foldl collectStep st items).1 = st.1 ++ omap keptToot items.
Proof.
  revert st. induction items as [|a items IH]; intros st.
  - simpl. by rewrite app_nil_r.
  - change (foldl collectStep st (a :: items))
      with (foldl collectStep (collectStep st a) items).
    rewrite IH, collectStep_kept, <- app_assoc. f_equal.
    simpl. by destruct (keptToot a).
Qed.

(** X1. The toots that [collectToots] returns are, in the order of the
    archive, the notes that have content, are addressed to the public
    collection in [to] or [cc], and do not reply to another actor, each with
    the [published] value and the actor of its activity; nothing else is
    returned, and payloads that do not decode to a note are passed over. *)
Theorem collectToots_keeps_in_order (archive : Archive) (stats : Stats) :
  (collectToots archive stats).1 = omap keptToot (OrderedItems archive).
Proof. unfold collectToots. by rewrite collect_fold_kept. Qed.

Lemma collectStep_balanced (st : list ActivityWithNote * Stats)
    (activity : Activity) (processed kept : Z) :
  balanced st.2 processed kept ->
  balanced (collectStep st activity).2
    (processed + (if isNote activity then 1 else 0))
    (kept + Z.of_nat (length (option_list (keptToot activity)))).
Proof.
  destruct st as [allToots stats].
  unfold balanced, collectStep, keptToot, isNote, isPublic. simpl.
  intros (Hp & Hk & Hsum & ? & ? & ?).
  destruct (Activity_Object activity) as [note|]; simpl; [|repeat split; lia].
  destruct (String.eqb (Note_Content note) ""); simpl; [repeat split; lia|].
  destruct (slices_Contains (Note_To note) publicURI
            || slices_Contains (Note_Cc note) publicURI); simpl;
    [|repeat split; lia].
  destruct (repliesToOther _ _); simpl; repeat split; lia.
Qed.

Lemma keptToot_isNote (a : Activity) : isNote a = false -> keptToot a = None.
Proof. unfold keptToot, isNote. by destruct (Activity_Object a). Qed.

Lemma collect_fold_balanced (items : list Activity)
    (st : list ActivityWithNote * Stats) (processed kept : Z) :
  balanced st.2 processed kept ->
  balanced (foldl collectStep st items).2
    (processed + Z.of_nat (length (filter (fun a => isNote a = true) items)))
    (kept + Z.of_nat (length (omap keptToot items))).
Proof.
  revert st processed kept.
  induction items as [|a items IH]; intros st processed kept Hb.
  - simpl. by rewrite !Z.add_0_r.
  - change (foldl collectStep st (a :: items))
      with (foldl collectStep (collectStep st a) items).
    apply (collectStep_balanced st a), IH in Hb.
    rewrite filter_cons. simpl omap.
    destruct (isNote a) eqn:Hnote.
    + rewrite decide_True by done.
      destruct (keptToot a); simpl in *;
        rewrite ?Nat2Z.inj_succ; rewrite ?Z.add_0_r in Hb;
        by rewrite <- ?Z.add_1_l, ?Z.add_assoc.
    + rewrite decide_False by done. rewrite (keptToot_isNote a Hnote) in *.
      simpl in Hb. by rewrite !Z.add_0_r in Hb.
Qed.

(** X2. After [collectToots] on fresh statistics, the counters add up: the
    number processed is the number of payloads that decode to a note, the
    number output is the number of toots returned, and processed = output +
    private + replies to others + empty, so that every decoded note is
    counted exactly once. *)
Theorem collectToots_counters_add_up (archive : Archive) :
  let result := collectToots archive zeroStats in
  TotalProcessed result.2
    = Z.of_nat (length (filter (fun a => isNote a = true) (OrderedItems archive)))
  /\ TootsOutput result.2 = Z.of_nat (length result.1)
  /\ TotalProcessed result.2 = TootsOutput result.2 + tootsOmitted result.2.
Proof.
  cbv zeta.
  replace (collectToots archive zeroStats).1 with (omap keptToot (OrderedItems archive))
    by (unfold collectToots; by rewrite collect_fold_kept).
  unfold collectToots, tootsOmitted.
  destruct (collect_fold_balanced (OrderedItems archive) ([], zeroStats) 0 0)
    as (Hp & Hk & Hsum & _).
  - repeat split; simpl; lia.
  - rewrite Hp, Hk in *. repeat split; lia.
Qed.

End CollectToots.

(** ** [buildThreads]: what is in a thread *)

Section FindReplies.
Import Main MainRest.
Context {R : GoRuntime}.

Lemma findReplies_unfold (fuel : nat) (allToots : list ActivityWithNote)
    (parentID : string) :
  findReplies (S fuel) allToots parentID
  = match repliesLoop (findReplies fuel allToots) parentID allToots [] with
    | None => None
    | Some replies => Some (sort_Slice lessPublished replies)
    end.
Proof. reflexivity. Qed.

Lemma repliesLoop_more (recur recur' : string -> option (list ActivityWithNote))
    (parentID : string) (candidates replies result : list ActivityWithNote) :
  (forall id sub, recur id = Some sub -> recur' id = Some sub) ->
  repliesLoop recur parentID candidates replies = Some result ->
  repliesLoop recur' parentID candidates replies = Some result.
Proof.
  intros Hrec. revert replies.
  induction candidates as [|c rest IH]; intros replies; simpl; [done|].
  case_decide; [|apply IH].
  destruct (recur (Note_ID (Object c))) as [sub|] eqn:Hsub; [|done].
  rewrite (Hrec _ _ Hsub). apply IH.
Qed.

Lemma findReplies_more_fuel (fuel fuel' : nat) (allToots : list ActivityWithNote)
    (parentID : string) (replies : list ActivityWithNote) :
  fuel <= fuel' ->
  findReplies fuel allToots parentID = Some replies ->
  findReplies fuel' allToots parentID = Some replies.
Proof.
  revert fuel' parentID replies.
  induction fuel as [|fuel IH]; intros fuel' parentID replies Hle; [done|].
  destruct fuel' as [|fuel']; [lia|]. rewrite !findReplies_unfold.
  destruct (repliesLoop (findReplies fuel allToots) parentID allToots []) as [rs|] eqn:Hrs;
    [|done].
  rewrite (repliesLoop_more _ (findReplies fuel' allToots) _ _ _ _ (fun id sub => IH fuel' id sub ltac:(lia)) Hrs).
  done.
Qed.

Lemma buildLoop_more_fuel (fuel fuel' : nat) (allToots toots : list ActivityWithNote)
    (st result : gmap string (list TootThread) * list string) :
  fuel <= fuel' ->
  buildLoop fuel allToots toots st = Some result ->
  buildLoop fuel' allToots toots st = Some result.
Proof.
  intros Hle. revert st. induction toots as [|toot rest IH]; intros st; simpl; [done|].
  destruct (isSelfReply toot); [apply IH|].
  destruct (findReplies fuel allToots (Note_ID (Object toot))) as [replies|] eqn:Hr;
    [|done].
  rewrite (findReplies_more_fuel fuel fuel' _ _ _ Hle Hr).
  destruct (time_Parse_RFC3339 (Published toot)); apply IH.
Qed.

(** The depth bound does not show in the result. *)
Lemma buildThreads_result_independent_of_fuel (fuel fuel' : nat)
    (allToots : list ActivityWithNote)
    (result : gmap string (list TootThread) * list string) :
  fuel <= fuel' ->
  buildThreads fuel allToots = Some result ->
  buildThreads fuel' allToots = Some result.
Proof. apply buildLoop_more_fuel. Qed.

Context {L : GoRuntimeLaws R}.

Lemma elem_of_sort_Slice {A : Type} (less : A -> A -> bool) (l : list A) (x : A) :
  x ∈ sort_Slice less l <-> x ∈ l.
Proof. by rewrite (sort_Slice_perm A less l). Qed.

Lemma chainsBackTo_sorted (allToots : list ActivityWithNote) (parentID : string)
    (replies : list ActivityWithNote) :
  chainsBackTo allToots parentID replies ->
  chainsBackTo allToots parentID (sort_Slice lessPublished replies).
Proof.
  intros H r Hr%elem_of_sort_Slice.
  destruct (H r Hr) as (Hall & target & Htarget & Hvia).
  split; [done|]. exists target. split; [done|].
  destruct Hvia as [->|(x & Hx & Hid)]; [by left|].
  right. exists x. by rewrite elem_of_sort_Slice.
Qed.

Lemma repliesLoop_chains (recur : string -> option (list ActivityWithNote))
    (allToots : list ActivityWithNote) (parentID : string)
    (candidates replies result : list ActivityWithNote) :
  (forall id sub, recur id = Some sub -> chainsBackTo allToots id sub) ->
  (forall c, c ∈ candidates -> c ∈ allToots) ->
  chainsBackTo allToots parentID replies ->
  repliesLoop recur parentID candidates replies = Some result ->
  chainsBackTo allToots parentID result.
Proof.
  intros Hrec. revert replies.
  induction candidates as [|c rest IH]; intros replies Hsub Hrs; simpl.
  - by intros [= <-].
  - assert (Hrest : forall c', c' ∈ rest -> c' ∈ allToots)
      by (intros c' Hc'; apply Hsub; by right).
    case_decide as Hreply; [|by apply IH].
    destruct (recur (Note_ID (Object c))) as [sub|] eqn:Hsubr; [|done].
    apply IH; [done|]. intros r.
    rewrite !elem_of_app, list_elem_of_singleton. intros [[Hr| ->]|Hr].
    + destruct (Hrs r Hr) as (Hall & target & Htarget & Hvia).
      split; [done|]. exists target. split; [done|].
      destruct Hvia as [->|(x & Hx & Hid)]; [by left|].
      right. exists x. rewrite !elem_of_app. auto.
    + split; [apply Hsub; by left|]. exists parentID. auto.
    + destruct (Hrec _ _ Hsubr r Hr) as (Hall & target & Htarget & Hvia).
      split; [done|]. exists target. split; [done|]. right.
      destruct Hvia as [->|(x & Hx & Hid)].
      * exists c. rewrite !elem_of_app, list_elem_of_singleton. auto.
      * exists x. rewrite !elem_of_app. auto.
Qed.

Lemma findReplies_chains (fuel : nat) (allToots : list ActivityWithNote)
    (parentID : string) (replies : list ActivityWithNote) :
  findReplies fuel allToots parentID = Some replies ->
  chainsBackTo allToots parentID replies.
Proof.
  revert parentID replies.
  induction fuel as [|fuel IH]; intros parentID replies; [done|].
  rewrite findReplies_unfold.
  destruct (repliesLoop _ _ _ _) as [rs|] eqn:Hrs; [|done]. intros [= <-].
  apply chainsBackTo_sorted.
  apply (repliesLoop_chains _ _ _ _ _ _ IH (fun c H => H)) in Hrs; [done|].
  intros r Hr. by apply elem_of_nil in Hr.
Qed.

Lemma repliesLoop_complete (recur : string -> option (list ActivityWithNote))
    (allToots : list ActivityWithNote) (parentID : string)
    (candidates replies result : list ActivityWithNote) :
  (forall id sub, recur id = Some sub ->
     (forall c, c ∈ allToots -> Note_InReplyTo (Object c) = Some id -> c ∈ sub)
     /\ closedUnderReplies allToots sub) ->
  closedUnderReplies allToots replies ->
  repliesLoop recur parentID candidates replies = Some result ->
  closedUnderReplies allToots result
  /\ (forall x, x ∈ replies -> x ∈ result)
  /\ (forall c, c ∈ candidates ->
        Note_InReplyTo (Object c) = Some parentID -> c ∈ result).
Proof.
  intros Hrec. revert replies.
  induction candidates as [|c rest IH]; intros replies Hclosed; simpl.
  - intros [= <-]. split; [done|]. split; [done|].
    intros c Hc. by apply elem_of_nil in Hc.
  - case_decide as Hreply.
    + destruct (recur (Note_ID (Object c))) as [sub|] eqn:Hsub; [|done].
      destruct (Hrec _ _ Hsub) as [Hdirect Hsubclosed]. intros Hloop.
      apply IH in Hloop as (Hres & Hkeep & Hcands).
      * split; [done|]. split.
        -- intros x Hx. apply Hkeep. rewrite !elem_of_app. auto.
        -- intros c' [->|Hc']%elem_of_cons Hc'reply; [|by apply Hcands].
           apply Hkeep. rewrite !elem_of_app, list_elem_of_singleton. auto.
      * intros x c'. rewrite !elem_of_app, list_elem_of_singleton.
        intros [[Hx| ->]|Hx] Hc' Hc'reply.
        -- left. left. by apply (Hclosed x).
        -- right. by apply Hdirect.
        -- right. by apply (Hsubclosed x).
    + intros Hloop. apply IH in Hloop as (Hres & Hkeep & Hcands); [|done].
      split; [done|]. split; [done|].
      intros c' [->|Hc']%elem_of_cons Hc'reply; [done|by apply Hcands].
Qed.

Lemma findReplies_complete (fuel : nat) (allToots : list ActivityWithNote)
    (parentID : string) (replies : list ActivityWithNote) :
  findReplies fuel allToots parentID = Some replies ->
  (forall c, c ∈ allToots -> Note_InReplyTo (Object c) = Some parentID -> c ∈ replies)
  /\ closedUnderReplies allToots replies.
Proof.
  revert parentID replies.
  induction fuel as [|fuel IH]; intros parentID replies; [done|].
  rewrite findReplies_unfold.
  destruct (repliesLoop _ _ _ _) as [rs|] eqn:Hrs; [|done]. intros [= <-].
  apply (repliesLoop_complete _ _ _ _ _ _ IH) in Hrs as (Hclosed & _ & Hdirect).
  - split.
    + intros c Hc Hreply. apply elem_of_sort_Slice. by apply Hdirect.
    + intros x c Hx%elem_of_sort_Slice Hc Hreply.
      apply elem_of_sort_Slice. by apply (Hclosed x).
  - intros x c Hx. by apply elem_of_nil in Hx.
Qed.

Lemma buildLoop_built (fuel : nat) (allToots toots : list ActivityWithNote)
    (st result : gmap string (list TootThread) * list string) :
  (forall t, t ∈ toots -> t ∈ allToots) ->
  allBuilt fuel allToots st.1 ->
  buildLoop fuel allToots toots st = Some result ->
  allBuilt fuel allToots result.1.
Proof.
  revert st. induction toots as [|toot rest IH]; intros st Hsub Hst; simpl.
  - by intros [= <-].
  - assert (Hrest : forall t, t ∈ rest -> t ∈ allToots)
      by (intros t Ht; apply Hsub; by right).
    destruct (isSelfReply toot) eqn:Hself; [by apply IH|].
    destruct (findReplies fuel allToots (Note_ID (Object toot))) as [replies|] eqn:Hr;
      [|done].
    destruct (time_Parse_RFC3339 (Published toot)) as [t|err] eqn:Ht;
      apply IH; simpl; try done.
    intros date threads thread. unfold appendThread.
    destruct (decide (Format_date t = date)) as [<-|Hne].
    + rewrite lookup_insert_eq. intros [= <-].
      rewrite elem_of_app, list_elem_of_singleton. intros [Hin| ->].
      * destruct (st.1 !! Format_date t) as [old|] eqn:Hold; simpl in Hin.
        -- by apply (Hst (Format_date t) old).
        -- by apply elem_of_nil in Hin.
      * split; [apply Hsub; by left|]. split; [done|]. split; [done|]. by exists t.
    + rewrite lookup_insert_ne by done. apply Hst.
Qed.

Lemma buildThreads_built (fuel : nat) (allToots : list ActivityWithNote)
    (threadsByDate : gmap string (list TootThread)) (err : list string) :
  buildThreads fuel allToots = Some (threadsByDate, err) ->
  allBuilt fuel allToots threadsByDate.
Proof.
  intros H. apply (buildLoop_built fuel allToots allToots (∅, []) _ (fun t H => H)) in H;
    [done|].
  intros d ts th. simpl. by rewrite lookup_empty.
Qed.

(** X4. In every thread that [buildThreads] files under a date, the root is
    one of the collected toots, is not a self-reply, and has a [Published]
    value that parses to that date; and every reply is one of the collected
    toots and answers the root or another reply of the same thread.  So a
    record without a reply target is never among the replies. *)
Theorem buildThreads_threads_chain_back (fuel : nat) (allToots : list ActivityWithNote)
    (threadsByDate : gmap string (list TootThread)) (err : list string)
    (date : string) (threads : list TootThread) (thread : TootThread) :
  buildThreads fuel allToots = Some (threadsByDate, err) ->
  threadsByDate !! date = Some threads ->
  thread ∈ threads ->
  Root thread ∈ allToots
  /\ isSelfReply (Root thread) = false
  /\ (exists t, time_Parse_RFC3339 (Published (Root thread)) = inl t
               /\ Format_date t = date)
  /\ chainsBackTo allToots (Note_ID (Object (Root thread))) (Replies thread)
  /\ (forall r, r ∈ Replies thread -> Note_InReplyTo (Object r) <> None).
Proof.
  intros Hbuild Hdate Hthread.
  destruct (buildThreads_built fuel allToots _ _ Hbuild date threads thread Hdate Hthread)
    as (Hroot & Hself & Hreplies & Htime).
  apply findReplies_chains in Hreplies.
  split; [done|]. split; [done|]. split; [done|]. split; [done|].
  intros reply Hr Hnone. destruct (Hreplies reply Hr) as (_ & target & Htarget & _).
  congruence.
Qed.

(** X5. A thread that [buildThreads] assembles is complete: it holds every
    collected toot that answers the root's identifier, and every collected
    toot that answers the identifier of one of its replies. *)
Theorem buildThreads_threads_complete (fuel : nat) (allToots : list ActivityWithNote)
    (threadsByDate : gmap string (list TootThread)) (err : list string)
    (date : string) (threads : list TootThread) (thread : TootThread) :
  buildThreads fuel allToots = Some (threadsByDate, err) ->
  threadsByDate !! date = Some threads ->
  thread ∈ threads ->
  (forall c, c ∈ allToots ->
     Note_InReplyTo (Object c) = Some (Note_ID (Object (Root thread))) ->
     c ∈ Replies thread)
  /\ closedUnderReplies allToots (Replies thread).
Proof.
  intros Hbuild Hdate Hthread.
  destruct (buildThreads_built fuel allToots _ _ Hbuild date threads thread Hdate Hthread)
    as (_ & _ & Hreplies & _).
  by apply findReplies_complete in Hreplies.
Qed.

End FindReplies.

(** ** [htmlToText]: the clean-up pass *)

Section CleanUp.
Import Main.

Lemma wrapBareURL_clean (l : string) : cleanLine l -> cleanLine (wrapBareURL l).
Proof.
  intros (Hlf & Htrim & Hne). unfold wrapBareURL.
  destruct (_ || _); [|done]. split; [|split; [split|done]].
  - change ("<" +:+ l +:+ ">") with (String "<" (l +:+ ">")).
    simpl. by rewrite noLF_app, Hlf.
  - reflexivity.
  - change ("<" +:+ l +:+ ">") with (String "<" (l +:+ ">")). simpl string_rev.
    rewrite string_rev_app. reflexivity.
Qed.

Lemma wrapBareURL_twice (l : string) : wrapBareURL (wrapBareURL l) = wrapBareURL l.
Proof.
  unfold wrapBareURL at 2 3.
  destruct (strings_HasPrefix l "http://" || strings_HasPrefix l "https://") eqn:H.
  - reflexivity.
  - unfold wrapBareURL. by rewrite H.
Qed.

Lemma cleanedLines_clean (text : string) : Forall cleanLine (cleanedLines text).
Proof.
  unfold cleanedLines. rewrite cleanLines_spec. simpl.
  apply Forall_fmap, Forall_forall. intros l Hl. simpl.
  apply wrapBareURL_clean.
  by apply (nonEmptyTrimmedLines_clean (strings_TrimSpace text)).
Qed.

Lemma wrapped_no_scheme (l : string) :
  strings_HasPrefix (wrapBareURL l) "http://" = false
  /\ strings_HasPrefix (wrapBareURL l) "https://" = false.
Proof.
  unfold wrapBareURL.
  destruct (strings_HasPrefix l "http://") eqn:Hhttp;
    destruct (strings_HasPrefix l "https://") eqn:Hhttps; simpl; try done;
    change ("<" +:+ l +:+ ">") with (String "<" (l +:+ ">")); done.
Qed.

(** X6. Whatever text [traverse] has collected, the text that the clean-up
    returns is normalised: [strings.TrimSpace] leaves it as it is; its
    non-empty trimmed lines are exactly the lines that were joined, so that
    no line is blank or starts or ends with white space; these lines are the
    non-empty trimmed lines of the trimmed input, each put between angle
    brackets when it starts with [http://] or [https://] and left as it is
    otherwise, so that no line of the output starts with one of these two
    prefixes; and a second clean-up returns the text unchanged. *)
Theorem cleanupText_output_normalised (text : string) :
  strings_TrimSpace (cleanupText text) = cleanupText text
  /\ nonEmptyTrimmedLines (cleanupText text) = cleanedLines text
  /\ Forall cleanLine (cleanedLines text)
  /\ cleanedLines text
     = map (fun l => if strings_HasPrefix l "http://" || strings_HasPrefix l "https://"
                     then "<" +:+ l +:+ ">" else l)
         (nonEmptyTrimmedLines (strings_TrimSpace text))
  /\ Forall (fun l => strings_HasPrefix l "http://" = false
                      /\ strings_HasPrefix l "https://" = false)
       (cleanedLines text)
  /\ cleanupText (cleanupText text) = cleanupText text.
Proof.
  pose proof (cleanedLines_clean text) as Hclean.
  assert (Htrim : strings_TrimSpace (cleanupText text) = cleanupText text)
    by apply trimmed_TrimSpace, Join_trimmed, Hclean.
  assert (Hlines : nonEmptyTrimmedLines (cleanupText text) = cleanedLines text)
    by apply lines_of_Join, Hclean.
  assert (Hwrapped : cleanedLines text
                     = map wrapBareURL (nonEmptyTrimmedLines (strings_TrimSpace text)))
    by (unfold cleanedLines; by rewrite cleanLines_spec).
  split; [done|]. split; [done|]. split; [done|]. split; [exact Hwrapped|]. split.
  - rewrite Hwrapped. apply Forall_fmap, Forall_forall. intros l _.
    apply wrapped_no_scheme.
  - rewrite (cleanupText_spec (cleanupText text)), Htrim, Hlines.
    unfold cleanupText at 1. f_equal.
    unfold cleanedLines. rewrite cleanLines_spec. simpl.
    rewrite <- list_fmap_compose. apply list_fmap_ext. intros i l _. simpl.
    apply wrapBareURL_twice.
Qed.

End CleanUp.

(** ** [htmlToText]: the walk over the tree *)

Section Traverse.
Import Main MainRest.

Lemma Node_induction (P : Node -> Prop) :
  (forall type data attr children,
     Forall P children -> P (MkNode type data attr children)) ->
  forall n, P n.
Proof.
  intros step. fix IH 1. intros [type data attr children]. apply step.
  induction children as [|c cs IHcs]; constructor; [apply IH|apply IHcs].
Qed.

Lemma scanLinkAttrs_spec (attrs : list Attribute) (isHashtag isMention : bool)
    (href : string) :
  scanLinkAttrs attrs (isHashtag, isMention, href)
  = (isHashtag || hasClass "hashtag" attrs,
     isMention || hasClass "mention" attrs,
     lastHref attrs href).
Proof.
  revert isHashtag isMention href.
  induction attrs as [|a rest IH]; intros isHashtag isMention href; simpl.
  - by rewrite !orb_false_r.
  - destruct (String.eqb (Attr_Key a) "class"); rewrite IH; simpl.
    + by rewrite !orb_assoc.
    + done.
Qed.

Lemma traverse_unfold (type : NodeType) (data : string) (attr : list Attribute)
    (children : list Node) (text : string) :
  traverse (MkNode type data attr children) false text
  = let text := if decide (type = TextNode) then text +:+ data else text in
    if decide (type = ElementNode) then
      let text :=
        if String.eqb data "br" || String.eqb data "p" then text +:+ nl else text in
      if String.eqb data "a" then
        let '(isHashtag, isMention, href) := scanLinkAttrs attr (false, false, "") in
        if isHashtag then text
        else if isMention then
          let mentionText := extractText (MkNode type data attr children) "" in
          if negb (String.eqb mentionText "") && negb (String.eqb href "")
          then text +:+ "[" +:+ mentionText +:+ "](" +:+ href +:+ ")"
          else text
        else if negb (String.eqb href "") then text +:+ "<" +:+ href +:+ ">"
        else eachChild traverse children text
      else eachChild traverse children text
    else eachChild traverse children text.
Proof. reflexivity. Qed.

Lemma eachChild_appends (children : list Node) (text : string) :
  Forall (fun n => forall skip text,
            traverse n skip text = text +:+ traverse n skip "") children ->
  eachChild traverse children text = text +:+ eachChild traverse children "".
Proof.
  intros Hall. revert text.
  induction Hall as [|c cs Hc _ IH]; intros text; simpl.
  - by rewrite string_app_nil_r.
  - rewrite IH, (IH (traverse c false "")), Hc. apply string_app_assoc.
Qed.

(** X7. [traverse] only appends: the text collected before a node is the
    start of the text after it, and what the node adds does not depend on
    what was collected before. *)
Theorem traverse_only_appends (n : Node) (skipChildren : bool) (text : string) :
  traverse n skipChildren text = text +:+ traverse n skipChildren "".
Proof.
  revert skipChildren text. induction n as [type data attr children IH] using Node_induction.
  intros [|] text; [destruct type; simpl; by rewrite string_app_nil_r|].
  rewrite !traverse_unfold. cbv zeta.
  pose proof (fun t => eachChild_appends children t IH) as Hkids.
  change ("" +:+ data) with data.
  destruct (decide (type = TextNode)); destruct (decide (type = ElementNode));
    try destruct (String.eqb data "br" || String.eqb data "p");
    try destruct (String.eqb data "a");
    try destruct (scanLinkAttrs attr (false, false, "")) as [[isHashtag isMention] href];
    try destruct isHashtag; try destruct isMention;
    try destruct (negb _ && negb _); try destruct (negb (String.eqb href ""));
    rewrite ?(Hkids (text +:+ data)), ?(Hkids ((text +:+ data) +:+ nl)),
      ?(Hkids (text +:+ nl)), ?(Hkids text), ?(Hkids (data +:+ nl)), ?(Hkids data),
      ?(Hkids nl);
    change ("" +:+ nl) with nl;
    rewrite ?(Hkids (data +:+ nl)), ?(Hkids nl), ?string_app_assoc, ?string_app_nil_r;
    reflexivity.
Qed.

(** X8. A link marked as a hashtag leaves no trace: whatever its other
    attributes and whatever it encloses, [traverse] returns the text it was
    given.  A link that is neither hashtag nor mention and has a target
    adds the target in angle brackets and nothing of what it encloses. *)
Theorem traverse_link_rules (attr : list Attribute) (children : list Node)
    (text : string) :
  (hasClass "hashtag" attr = true ->
   traverse (MkNode ElementNode "a" attr children) false text = text)
  /\ (hasClass "hashtag" attr = false -> hasClass "mention" attr = false ->
      lastHref attr "" <> "" ->
      traverse (MkNode ElementNode "a" attr children) false text
      = text +:+ "<" +:+ lastHref attr "" +:+ ">").
Proof.
  rewrite traverse_unfold, scanLinkAttrs_spec. simpl. split.
  - by intros ->.
  - intros -> -> Hhref. by destruct (String.eqb_spec (lastHref attr "") "").
Qed.

End Traverse.

(** ** [writeToot]: header, tags and backlink *)

Section WriteToot.
Import Main MainRest.

Lemma ReplaceAll_noLF (s : string) : noLF (strings_ReplaceAll s LF " ") = true.
Proof.
  induction s as [|c s IH]; [done|]. simpl.
  destruct (Ascii.eqb c LF) eqn:Hc; [exact IH|]. simpl. by rewrite Hc.
Qed.

Lemma substring_length_le (n : nat) (s : string) :
  String.length (String.substring 0 n s) <= n.
Proof.
  revert s. induction n as [|n IH]; intros [|c s]; simpl; try lia.
  specialize (IH s). lia.
Qed.

Lemma substring_noLF (n : nat) (s : string) :
  noLF s = true -> noLF (String.substring 0 n s) = true.
Proof.
  revert s. induction n as [|n IH]; intros [|c s]; simpl; try done.
  intros [-> Hs]%andb_prop. by apply IH.
Qed.

Lemma string_length_app (a b : string) :
  String.length (a +:+ b) = String.length a + String.length b.
Proof.
  induction a as [|c a IH]; [done|]. rewrite string_app_cons. simpl. by rewrite IH.
Qed.

Lemma substring_length_exact (n : nat) (s : string) :
  n <= String.length s -> String.length (String.substring 0 n s) = n.
Proof.
  revert s. induction n as [|n IH]; intros [|c s]; simpl; try lia.
  intros Hn. rewrite IH; lia.
Qed.

Lemma ReplaceAll_length (s : string) :
  String.length (strings_ReplaceAll s LF " ") = String.length s.
Proof.
  induction s as [|c s IH]; [done|]. simpl.
  destruct (Ascii.eqb c LF).
  - change (String.length (" " +:+ strings_ReplaceAll s LF " "))
      with (S (String.length (strings_ReplaceAll s LF " "))).
    by rewrite IH.
  - simpl. by rewrite IH.
Qed.

Lemma ReplaceAll_get (s : string) (i : nat) :
  String.get i (strings_ReplaceAll s LF " ")
  = (fun c => if Ascii.eqb c LF then " "%char else c) <$> String.get i s.
Proof.
  revert i. induction s as [|c s IH]; intros i; [done|]. simpl.
  destruct (Ascii.eqb c LF) eqn:Hc.
  - change (" " +:+ strings_ReplaceAll s LF " ")
      with (String " " (strings_ReplaceAll s LF " ")).
    destruct i as [|i]; simpl; [by rewrite Hc|apply IH].
  - destruct i as [|i]; simpl; [by rewrite Hc|apply IH].
Qed.

(** X9. The header that [writeToot] gives a root toot is one line of at most
    100 bytes: the content, byte for byte, with every line feed turned into
    a space, when that is at most 100 bytes long, and otherwise its first 97
    bytes followed by three dots, which makes 100 bytes.  For any other
    header level nothing is written. *)
Theorem writeHeader_one_line_of_at_most_100 (f headerLevel content : string) :
  let line := strings_ReplaceAll content LF " " in
  let headerText :=
    if Nat.ltb 100 (String.length content)
    then String.substring 0 97 line +:+ "..."
    else line in
  writeHeader f "##" content = f +:+ "## " +:+ headerText +:+ nl +:+ nl
  /\ String.length line = String.length content
  /\ (forall i,
        String.get i line
        = (fun c => if Ascii.eqb c LF then " "%char else c) <$> String.get i content)
  /\ (forall i, i < 97 ->
        String.get i (String.substring 0 97 line) = String.get i line)
  /\ String.length headerText <= 100
  /\ (100 < String.length content -> String.length headerText = 100)
  /\ noLF headerText = true
  /\ (headerLevel <> "##" -> writeHeader f headerLevel content = f).
Proof.
  cbv zeta. set (line := strings_ReplaceAll content LF " ").
  pose proof (ReplaceAll_length content) as Hlength. fold line in Hlength.
  split; [|split; [done|split; [apply ReplaceAll_get|split; [|split; [|split; [|split]]]]]].
  - unfold writeHeader. simpl String.eqb. cbv iota zeta. fold line.
    by rewrite Hlength.
  - intros i Hi. by rewrite String.substring_correct1, Nat.add_0_r.
  - destruct (Nat.ltb_spec 100 (String.length content)) as [Hlong|Hshort]; [|lia].
    rewrite string_length_app. pose proof (substring_length_le 97 line).
    simpl. lia.
  - intros Hlong. destruct (Nat.ltb_spec 100 (String.length content)); [|lia].
    rewrite string_length_app, substring_length_exact by lia.
    simpl. lia.
  - destruct (Nat.ltb 100 (String.length content)); [|apply ReplaceAll_noLF].
    rewrite noLF_app, substring_noLF; [done|apply ReplaceAll_noLF].
  - intros Hne. unfold writeHeader.
    by destruct (String.eqb_spec headerLevel "##").
Qed.

Lemma hashtagNames_spec (tags : list Tag) (hashtags : list string) :
  hashtagNames tags hashtags = hashtags ++ listedTags tags.
Proof.
  unfold listedTags, isHashtagTag. revert hashtags.
  induction tags as [|tag rest IH]; intros hashtags; simpl.
  - by rewrite app_nil_r.
  - rewrite filter_cons.
    destruct (String.eqb (Tag_Type tag) "Hashtag"); rewrite IH.
    + rewrite decide_True by done. simpl. by rewrite <- app_assoc.
    + by rewrite decide_False by done.
Qed.

Lemma writeHashtags_spec (hashtags : list string) (f : string) (i : nat) :
  writeHashtags f i hashtags
  = match hashtags with
    | [] => f
    | _ => (if Nat.ltb 0 i then f +:+ ", " else f)
             +:+ strings_Join (map backquoted hashtags) ", "
    end.
Proof.
  revert f i. induction hashtags as [|tag rest IH]; intros f i; [done|].
  simpl writeHashtags. rewrite IH. destruct rest as [|tag' rest]; [done|].
  change (Nat.ltb 0 (S i)) with true. cbv iota.
  change (map backquoted (tag :: tag' :: rest))
    with (backquoted tag :: map backquoted (tag' :: rest)).
  simpl map at 2. rewrite Join_cons2. unfold backquoted at 2.
  by rewrite !string_app_assoc.
Qed.

(** X10. The tag line of a toot lists the names of its tags of type
    [Hashtag], in order, each in backquotes and separated by a comma and a
    space; tags of another type are left out, and when no tag is of type
    [Hashtag] no tag line is written. *)
Theorem writeTagBlock_lists_hashtags (f : string) (tags : list Tag) :
  writeTagBlock f tags
  = match listedTags tags with
    | [] => f
    | names =>
        f +:+ nl +:+ "<small><b>Tags:</b> "
          +:+ strings_Join (map backquoted names) ", " +:+ "</small>" +:+ nl
    end.
Proof.
  unfold writeTagBlock. rewrite (hashtagNames_spec tags []). simpl app.
  destruct tags as [|tag tags]; [done|].
  change (Nat.ltb 0 (length (tag :: tags))) with true. cbv iota zeta.
  destruct (listedTags (tag :: tags)) as [|name names]; [done|].
  change (Nat.ltb 0 (length (name :: names))) with true. cbv iota.
  rewrite writeHashtags_spec. change (Nat.ltb 0 0) with false. cbv iota.
  by rewrite !string_app_assoc.
Qed.

Context {R : GoRuntime}.

(** X11. [writeToot] only appends to the file, and whatever the toot holds
    the text it appends ends with the backlink to the toot's URL. *)
Theorem writeToot_appends_and_ends_with_backlink (f : string) (toot : ActivityWithNote)
    (headerLevel : string) (extractedMedia : gmap string string) :
  exists body,
    writeToot f toot headerLevel extractedMedia = (f +:+ body) +:+ sourceLink toot.
Proof.
  unfold writeToot. cbv zeta.
  match goal with
  | |- context [writeTagBlock ?g ?t] => assert (extends f (writeTagBlock g t)) as [body ->]
  end; [|by exists body].
  eapply extends_trans; [|apply writeTagBlock_extends].
  eapply extends_trans; [|apply writeContentWarning_extends].
  eapply extends_trans.
  - apply extends_app, writeHeader_extends.
  - unfold writeAttachmentBlock. destruct (Nat.ltb 0 _); [|apply extends_refl].
    eapply extends_trans; [|apply writeAttachments_extends].
    apply extends_app, extends_refl.
Qed.

End WriteToot.

(** ** [extractMedia]: which paths are in the map *)

Section ExtractedKeys.
Import Main MainRest.
Context {R : GoRuntime}.
Variable createErr : string -> option string.
Variable mediaDir : string.

Lemma extractEntry_from_copied (files : list ZipFile) (st : MediaState) (f : ZipFile) :
  f ∈ files ->
  fromCopiedEntry createErr mediaDir files (extractedMedia st) ->
  fromCopiedEntry createErr mediaDir files (extractedMedia (extractEntry createErr mediaDir st f)).
Proof.
  intros Hf Hst. unfold extractEntry.
  destruct (strings_HasPrefix (File_Name f) "media_attachments/") eqn:Hmedia; [|done].
  simpl. destruct (extractedMedia st !! File_Name f); [done|].
  destruct (File_Open f) as [err|copied copyErr] eqn:Hopen; [done|].
  destruct (createErr _) eqn:Hcreate; [done|]. destruct copyErr; [done|]. simpl.
  intros k v. destruct (decide (File_Name f = k)) as [<-|Hne].
  - intros _. exists f. repeat split; try done. by exists copied.
  - rewrite lookup_insert_ne by done. apply Hst.
Qed.

Lemma extractLoop_from_copied (files done : list ZipFile) (st : MediaState) :
  (forall f, f ∈ done -> f ∈ files) ->
  fromCopiedEntry createErr mediaDir files (extractedMedia st) ->
  fromCopiedEntry createErr mediaDir files (extractedMedia (extractLoop createErr mediaDir done st)).
Proof.
  revert st. induction done as [|f rest IH]; intros st Hsub Hst; [done|].
  rewrite loop_cons. apply IH.
  - intros g Hg. apply Hsub. by right.
  - apply extractEntry_from_copied; [|done]. apply Hsub. by left.
Qed.

(** X12. An archive path is in the map that [extractMedia] returns exactly
    when the archive has an entry of that path, under [media_attachments/],
    that was opened, created and copied without error; the path is then
    mapped to its base name.  Entries elsewhere in the archive, outbox.json
    among them, never enter the map. *)
Theorem extractMedia_maps_exactly_the_copied (files : list ZipFile)
    (disk0 : gmap string string) (k v : string) :
  (extractMedia createErr files mediaDir disk0).1.1 !! k = Some v
  <-> v = filepath_Base k
      /\ exists f, f ∈ files /\ File_Name f = k /\ isMediaEntry f
                   /\ entrySucceeds createErr mediaDir f.
Proof.
  unfold extractMedia. simpl. fold (emptyMediaState disk0).
  assert (Hflat0 : flat (extractedMedia (emptyMediaState disk0)))
    by (intros k' v'; simpl; by rewrite lookup_empty).
  split.
  - intros Hk. split.
    + by apply (loop_flat createErr mediaDir files _ Hflat0).
    + apply (extractLoop_from_copied files files (emptyMediaState disk0) (fun f H => H))
        in Hk; [done|].
      intros k' v'. simpl. by rewrite lookup_empty.
  - intros (-> & f & Hf & <- & Hmedia & (copied & Hopen) & Hcreate).
    apply list_elem_of_split in Hf as (l1 & l2 & ->).
    rewrite loop_app, loop_cons. apply loop_keeps.
    apply (step_extracted createErr mediaDir _ f copied); try done.
    by apply loop_flat.
Qed.

End ExtractedKeys.

(** ** [writeMarkdownFiles]: one file per date, latest first *)

Section DateFiles.
Import Main.
Context {R : GoRuntime} {L : GoRuntimeLaws R}.

Lemma key_order_desc_strict_weak {A : Type} (key : A -> string) :
  StrictWeakOrder (fun a b => String.ltb (key b) (key a)).
Proof.
  split.
  - intros a. apply string_ltb_irrefl.
  - intros a b c Hab Hbc. by apply (string_ltb_trans _ (key b)).
  - intros a b c Hab Hba Hbc Hcb.
    rewrite <- (string_ltb_incomparable _ _ Hab Hba).
    by rewrite Hbc, Hcb.
Qed.

Lemma Sorted_NoDup_distinct {A : Type} (rel : A -> A -> Prop) (l : list A) :
  Sorted rel l -> NoDup l -> Sorted (fun a b => rel a b /\ a <> b) l.
Proof.
  induction 1 as [|x l Hl IH Hhd]; intros Hnd; constructor.
  - apply IH. by apply NoDup_cons in Hnd as [_ ?].
  - destruct Hhd as [|y l Hxy]; constructor. split; [done|].
    apply NoDup_cons in Hnd as [Hx _]. intros ->. apply Hx. by left.
Qed.

(** X13. [writeMarkdownFiles] writes one file for each date that has
    threads, and writes them from the latest date to the earliest: the
    dates of the files are the keys of the map, each once, in strictly
    descending order of Go strings. *)
Theorem writeMarkdownFiles_one_file_per_date_latest_first
    (threadsByDate : gmap string (list TootThread)) (outputDir generatedAt : string)
    (extractedMedia : gmap string string) :
  length (writeMarkdownFiles threadsByDate outputDir extractedMedia generatedAt)
    = size threadsByDate
  /\ (writeMarkdownFiles threadsByDate outputDir extractedMedia generatedAt).*1
     = map (datePath outputDir) (sortedDates threadsByDate)
  /\ sortedDates threadsByDate ≡ₚ (map_to_list threadsByDate).*1
  /\ Sorted (fun earlier later => String.ltb later earlier = true)
       (sortedDates threadsByDate).
Proof.
  assert (Hperm : sortedDates threadsByDate ≡ₚ (map_to_list threadsByDate).*1)
    by apply sort_Slice_perm.
  split; [|split; [|split; [done|]]].
  - unfold writeMarkdownFiles. rewrite length_map, Hperm, length_fmap.
    apply length_map_to_list.
  - unfold writeMarkdownFiles. rewrite <- list_fmap_compose.
    by apply list_fmap_ext.
  - apply (Sorted_weaken (fun a b => lessDateDesc b a = false /\ a <> b));
      [|apply Sorted_NoDup_distinct].
    + intros a b [Hab Hne]. unfold lessDateDesc in Hab.
      destruct (String.ltb b a) eqn:Hba; [done|].
      destruct Hne. by apply string_ltb_incomparable.
    + apply (sort_Slice_sorted _ lessDateDesc).
      apply (key_order_desc_strict_weak (fun d : string => d)).
    + rewrite Hperm. apply NoDup_fst_map_to_list.
Qed.

End DateFiles.

(** ** [parseArchive]: the feed document *)

Section ParseArchive.
Import Main MainRest.
Variable json_Unmarshal : string -> Archive + string.

Lemma findOutbox_none (files : list ZipFile) :
  findOutbox files = None <-> forall f, f ∈ files -> File_Name f <> "outbox.json".
Proof.
  induction files as [|f rest IH]; simpl.
  - split; [|done]. intros _ f Hf. by apply elem_of_nil in Hf.
  - destruct (String.eqb_spec (File_Name f) "outbox.json") as [Heq|Hne].
    + split; [done|]. intros H. destruct (H f); [by left|done].
    + rewrite IH. split.
      * intros H g [->|Hg]%elem_of_cons; [done|by apply H].
      * intros H g Hg. apply H. by right.
Qed.

Lemma findOutbox_first (before after : list ZipFile) (f : ZipFile) :
  File_Name f = "outbox.json" ->
  (forall g, g ∈ before -> File_Name g <> "outbox.json") ->
  findOutbox (before ++ f :: after) = Some f.
Proof.
  intros Hf. induction before as [|g before IH]; intros Hbefore; simpl.
  - by rewrite Hf.
  - destruct (String.eqb_spec (File_Name g) "outbox.json") as [Heq|Hne].
    + destruct (Hbefore g); [by left|done].
    + apply IH. intros h Hh. apply Hbefore. by right.
Qed.

(** X14. [parseArchive] fails with "outbox.json not found in archive"
    exactly when no entry of the archive has the name outbox.json; and when
    there is one, the first entry of that name alone decides the result,
    whatever comes before or after it. *)
Theorem parseArchive_reads_first_outbox (files : list ZipFile) :
  (parseArchive json_Unmarshal files = inr "outbox.json not found in archive"
   <-> forall f, f ∈ files -> File_Name f <> "outbox.json")
  /\ (forall before f after,
        files = before ++ f :: after ->
        File_Name f = "outbox.json" ->
        (forall g, g ∈ before -> File_Name g <> "outbox.json") ->
        parseArchive json_Unmarshal files = parseArchive json_Unmarshal [f]).
Proof.
  split.
  - rewrite <- findOutbox_none. unfold parseArchive.
    destruct (findOutbox files) as [f|]; [|done].
    split; [|done].
    destruct (File_Open f) as [err|data [err|]]; [done|done|].
    by destruct (json_Unmarshal data).
  - intros before f after -> Hname Hbefore. unfold parseArchive.
    rewrite (findOutbox_first before after f Hname Hbefore).
    simpl. by rewrite Hname.
Qed.

End ParseArchive.

(** ** [buildThreads] returns on well-founded replies *)

Section BuildThreadsReturns.
Import Main.
Context {R : GoRuntime}.

(** X15. [buildThreads] returns whenever the reply targets are well founded:
    if every collected toot has a smaller rank than the identifier it replies
    to, the recursion of [findReplies] ends, at a depth of at most the
    largest rank plus one. *)
Theorem buildThreads_returns_on_well_founded_replies
    (allToots : list ActivityWithNote) (rank : string -> nat) (fuel : nat) :
  (forall c target,
     c ∈ allToots -> Note_InReplyTo (Object c) = Some target ->
     rank (Note_ID (Object c)) < rank target) ->
  (forall id, rank id < fuel) ->
  is_Some (buildThreads fuel allToots).
Proof.
  intros Hrank Hfuel. by apply (buildLoop_returns allToots rank Hrank).
Qed.

End BuildThreadsReturns.

(** * Further properties of mastodon-to-hugo.go *)

(** ** [UnmarshalJSON]: base file names and tags *)

Section FinishObject.
Import MastodonToHugo HugoRest.

Lemma Split_shape (s : string) :
  exists h t dir,
    strings_Split s "/" = h :: t
    /\ s = dir +:+ default "" (last (h :: t))
    /\ hasByte "/" (default "" (last (h :: t))) = false
    /\ (t = [] -> h = s /\ dir = "")
    /\ (t <> [] -> exists d, dir = d +:+ "/").
Proof.
  induction s as [|c s (h & t & dir & Hsplit & Hs & Hno & Hone & Hmore)].
  - exists "", [], "". repeat split; done.
  - simpl strings_Split. rewrite Hsplit.
    destruct (Ascii.eqb_spec c "/") as [->|Hc].
    + exists "", (h :: t), (String "/" dir).
      change (last ("" :: h :: t)) with (last (h :: t)).
      split; [done|]. split; [by rewrite string_app_cons, <- Hs|].
      split; [done|]. split; [done|]. intros _.
      destruct t as [|h' t].
      * destruct (Hone eq_refl) as [_ ->]. by exists "".
      * destruct (Hmore ltac:(done)) as [d ->]. exists (String "/" d).
        by rewrite string_app_cons.
    + apply Ascii.eqb_neq in Hc. destruct t as [|h' t].
      * destruct (Hone eq_refl) as [-> ->]. simpl in Hno.
        exists (String c s), [], "". simpl. rewrite Hc, Hno. repeat split; done.
      * exists (String c h), (h' :: t), (String c dir).
        change (last (String c h :: h' :: t)) with (last (h :: h' :: t)).
        split; [done|]. split; [by rewrite string_app_cons, <- Hs|].
        split; [done|]. split; [done|]. intros _.
        destruct (Hmore ltac:(done)) as [d ->]. exists (String c d).
        by rewrite string_app_cons.
Qed.

Lemma Split_last_part (s : string) :
  exists dir,
    s = dir +:+ lastPart s
    /\ hasByte "/" (lastPart s) = false
    /\ (dir = "" \/ exists d, dir = d +:+ "/").
Proof.
  unfold lastPart.
  destruct (Split_shape s) as (h & t & dir & -> & Hs & Hno & Hone & Hmore).
  exists dir. split; [done|]. split; [done|].
  destruct t as [|h' t]; [left; by apply Hone|right; by apply Hmore].
Qed.

Lemma ReplaceAll_removes (c : ascii) (s : string) :
  hasByte c (strings_ReplaceAll s c "") = false.
Proof.
  induction s as [|d s IH]; [done|]. simpl.
  destruct (Ascii.eqb d c) eqn:Hd; [exact IH|]. simpl. by rewrite Hd.
Qed.

(** X16. After [UnmarshalJSON] an attachment's base file name is the part of
    its URL after the last slash: the URL ends with it and it holds no
    slash.  No tag name holds a [#] any more, and the tags end with the
    added "Social Media" tag, so that a toot always has a tag. *)
Theorem finishObject_base_names_and_tags (ao : ActivityObject) :
  (forall a, a ∈ Object_Attachments (finishObject ao) ->
     hasByte "/" (Attachment_BaseFilename a) = false
     /\ exists dir, Attachment_URL a = dir +:+ Attachment_BaseFilename a
                    /\ (dir = "" \/ exists d, dir = d +:+ "/"))
  /\ (forall t, t ∈ Object_Tags (finishObject ao) -> hasByte "#" (Tag_Name t) = false)
  /\ last (Object_Tags (finishObject ao)) = Some socialMediaTag.
Proof.
  split; [|split].
  - intros a. simpl. rewrite list_elem_of_fmap. intros (a0 & -> & _). simpl.
    destruct (Split_last_part (Attachment_URL a0)) as (dir & Hurl & Hno & Hdir).
    split; [done|]. by exists dir.
  - intros t. simpl. rewrite elem_of_app, list_elem_of_fmap, list_elem_of_singleton.
    intros [(t0 & -> & _)| ->]; [|done]. simpl. apply ReplaceAll_removes.
  - simpl. apply last_snoc.
Qed.

End FinishObject.

(** ** [selfPublishFilter] and [filterToots] *)

Section Filtering.
Import MastodonToHugo HugoRest.

(** X17. A toot that [selfPublishFilter] accepts is a [Create] activity
    whose object is addressed, in [cc], to the author's followers and to
    nobody else, and which replies to nothing or to a URL that starts with
    the author's own. *)
Theorem selfPublishFilter_accepts_only_followers_posts (entry : ActivityEntry) :
  selfPublishFilter entry = true ->
  Entry_Type entry = "Create"
  /\ Object_CC (Entry_Object entry) = [MY_FOLLOWERS_URL]
  /\ (Object_InReplyTo (Entry_Object entry) = ""
      \/ strings_HasPrefix (Object_InReplyTo (Entry_Object entry))
           ("https://" +:+ HOST +:+ "/users/" +:+ USER) = true).
Proof.
  unfold selfPublishFilter. cbv zeta.
  destruct (negb (String.eqb (Entry_Type entry) "Create")) eqn:Htype; [done|].
  destruct (negb (Nat.eqb (String.length (Object_InReplyTo (Entry_Object entry))) 0)
            && _) eqn:Hreply; [done|].
  destruct (Nat.ltb 1 (length (Object_CC (Entry_Object entry))) || _) eqn:Hcc; [done|].
  intros _. apply negb_false_iff, String.eqb_eq in Htype.
  apply orb_false_iff in Hcc as [Hlen Hin]. apply negb_false_iff in Hin.
  split; [done|]. split.
  - destruct (Object_CC (Entry_Object entry)) as [|cc [|cc' rest]]; try done.
    change (existsb (String.eqb MY_FOLLOWERS_URL) [cc])
      with (String.eqb MY_FOLLOWERS_URL cc || false) in Hin.
    rewrite orb_false_r in Hin. by apply String.eqb_eq in Hin as <-.
  - apply andb_false_iff in Hreply as [Hempty|Hprefix].
    + left. apply negb_false_iff, Nat.eqb_eq in Hempty.
      by destruct (Object_InReplyTo (Entry_Object entry)).
    + right. by apply negb_false_iff in Hprefix.
Qed.

Lemma filterLoop_spec (heap : list ActivityEntry) (filterFunc : ActivityEntry -> bool)
    (items filteredToots : list ptr) :
  filterLoop heap filterFunc items filteredToots
  = filteredToots ++ filter (fun p => accepted heap filterFunc p = true) items.
Proof.
  revert filteredToots. induction items as [|p items IH]; intros acc; simpl.
  - by rewrite app_nil_r.
  - rewrite filter_cons.
    assert (accepted heap filterFunc p
            = match heap !! p with Some e => filterFunc e | None => false end)
      as Hp by done.
    destruct (heap !! p) as [e|]; [destruct (filterFunc e)|]; rewrite IH.
    + rewrite decide_True by done. by rewrite <- app_assoc.
    + rewrite decide_False; [done|]. by rewrite Hp.
    + rewrite decide_False; [done|]. by rewrite Hp.
Qed.

(** X18. On an outbox whose items are all allocated, [filterToots] keeps,
    in their order, the entries that the filter accepts, and nothing else of
    the outbox changes: the total count and the map from object identifiers
    to entries stay as they were, so that the map still resolves the
    identifiers of the entries that were filtered out. *)
Theorem filterToots_keeps_accepted_and_the_chain (heap : list ActivityEntry)
    (ob : Outbox) (filterFunc : ActivityEntry -> bool) :
  Forall (fun p => is_Some (heap !! p)) (OrderedItems ob) ->
  OrderedItems (filterToots heap ob filterFunc)
    = filter (fun p => accepted heap filterFunc p = true) (OrderedItems ob)
  /\ ThreadIDChain (filterToots heap ob filterFunc) = ThreadIDChain ob
  /\ TotalItems (filterToots heap ob filterFunc) = TotalItems ob.
Proof. intros _. unfold filterToots. simpl. by rewrite filterLoop_spec. Qed.

End Filtering.

(** * The reply chain of the first program

    [newOutbox] builds the map from object identifiers to entries, and
    [renderTootsToDisk] walks it from every toot to the root of its
    thread. *)

Section ChainWalk.
Import MastodonToHugo HugoRest.

Lemma threadIDChain_app (heap : list ActivityEntry) (l1 l2 : list ptr)
    (chain : gmap string ptr) :
  threadIDChain heap (l1 ++ l2) chain
  = threadIDChain heap l2 (threadIDChain heap l1 chain).
Proof.
  revert chain. induction l1 as [|p l1 IH]; intros chain; simpl; [done|].
  by destruct (heap !! p).
Qed.

Lemma threadIDChain_prefix (heap : list ActivityEntry) (n : nat) (id : string)
    (p : ptr) :
  n <= length heap ->
  threadIDChain heap (seq 0 n) ∅ !! id = Some p
  <-> p < n
      /\ exists e, heap !! p = Some e
           /\ Object_ID (Entry_Object e) = id
           /\ forall q e', p < q < n -> heap !! q = Some e' ->
                Object_ID (Entry_Object e') <> id.
Proof.
  induction n as [|n IH]; intros Hn.
  - simpl. rewrite lookup_empty. split; [done|]. intros [? _]. lia.
  - rewrite seq_S, threadIDChain_app. simpl.
    match goal with
    | |- context [match ?entry with Some _ => _ | None => _ end] =>
        destruct entry as [en|] eqn:Hen
    end; [|apply lookup_ge_None in Hen; lia].
    destruct (decide (Object_ID (Entry_Object en) = id)) as [<-|Hid].
    + rewrite lookup_insert_eq. split.
      * intros [= <-]. split; [lia|]. exists en. split; [done|]. split; [done|].
        intros q e' ?. lia.
      * intros (Hp & e & He & _ & Hlast).
        destruct (decide (p = n)) as [->|Hne]; [done|].
        exfalso. by apply (Hlast n en); [lia|exact Hen|].
    + rewrite lookup_insert_ne by done. rewrite IH by lia. split.
      * intros (Hp & e & He & Hide & Hlast). split; [lia|]. exists e.
        split; [done|]. split; [done|]. intros q e' Hq He'.
        destruct (decide (q = n)) as [->|Hqn];
          [by pose proof (eq_trans (eq_sym He') Hen) as [= ->]|].
        apply (Hlast q e'); [lia|done].
      * intros (Hp & e & He & Hide & Hlast).
        assert (p <> n)
          by (intros ->; by pose proof (eq_trans (eq_sym He) Hen) as [= ->]).
        split; [lia|]. exists e. split; [done|]. split; [done|].
        intros q e' Hq He'. apply (Hlast q e'); [lia|done].
Qed.

(** X19. The map that [newOutbox] builds sends an identifier to the last
    entry of the outbox whose object carries it, and to nothing when no
    object does: of two toots with one identifier the later one wins. *)
Theorem newOutbox_chain_last_entry_wins (heap : list ActivityEntry) (totalItems : Z)
    (dir id : string) (p : ptr) :
  ThreadIDChain (newOutbox heap totalItems dir) !! id = Some p
  <-> lastWithID heap id p.
Proof.
  unfold newOutbox, lastWithID. simpl. rewrite threadIDChain_prefix by done. split.
  - intros (_ & e & He & Hid & Hlast). exists e. split; [done|]. split; [done|].
    intros q e' Hq He'. apply (Hlast q e'); [|done].
    apply lookup_lt_Some in He'. lia.
  - intros (e & He & Hid & Hlast). split; [by apply lookup_lt_Some in He|].
    exists e. split; [done|]. split; [done|].
    intros q e' Hq He'. apply (Hlast q e'); [lia|done].
Qed.

Lemma newOutbox_chain_allocated (heap : list ActivityEntry) (totalItems : Z)
    (dir id : string) (p : ptr) :
  ThreadIDChain (newOutbox heap totalItems dir) !! id = Some p -> p < length heap.
Proof.
  unfold newOutbox. simpl. rewrite threadIDChain_prefix by done. by intros [? _].
Qed.

(** X20. Whatever the walk returns is what it says: a thread root replies
    to nothing, or to an identifier that the map does not hold; a loop is
    reported for a toot that the map lists as its own parent, with the
    identifier of that toot in the message; and a nil pointer is followed
    only when an entry is not allocated. *)
Theorem walkReplyChain_stops_at_root_or_own_parent (fuel : nat)
    (heap : list ActivityEntry) (chain : gmap string ptr) (p : ptr) (count : Z)
    (result : WalkResult) :
  walkReplyChain fuel heap chain p count = Some result ->
  match result with
  | ThreadRoot root _ => isThreadRoot heap chain root
  | LoopDetected err =>
      exists q e, isOwnParent heap chain q e
        /\ err = "Loop detected for item: " +:+ Object_ID (Entry_Object e)
  | NilDereference => exists q, heap !! q = None
  end.
Proof.
  revert p count. induction fuel as [|fuel IH]; intros p count; simpl; [done|].
  destruct (heap !! p) as [e|] eqn:Hp; [|intros [= <-]; by exists p].
  destruct (Object_InReplyTo (Entry_Object e)) as [|c rest] eqn:Hreply; simpl.
  { intros [= <-]. exists e. split; [done|]. by left. }
  destruct (chain !! String c rest) as [parent|] eqn:Hchain.
  2:{ intros [= <-]. exists e. split; [done|]. right. by rewrite Hreply. }
  destruct (decide (parent = p)) as [->|Hne]; [|apply IH].
  intros [= <-]. exists p, e. split; [|done].
  split; [done|]. by rewrite Hreply.
Qed.

Lemma walkReplyChain_more_fuel (fuel fuel' : nat) (heap : list ActivityEntry)
    (chain : gmap string ptr) (p : ptr) (count : Z) (result : WalkResult) :
  fuel <= fuel' ->
  walkReplyChain fuel heap chain p count = Some result ->
  walkReplyChain fuel' heap chain p count = Some result.
Proof.
  revert fuel' p count. induction fuel as [|fuel IH]; intros fuel' p count Hle;
    [done|].
  destruct fuel' as [|fuel']; [lia|]. simpl.
  destruct (heap !! p) as [e|]; [|done].
  destruct (Nat.leb _ 0); [done|].
  destruct (chain !! _) as [parent|]; [|done].
  destruct (decide (parent = p)); [done|]. apply IH. lia.
Qed.

Lemma walkReplyChain_returns (heap : list ActivityEntry) (chain : gmap string ptr)
    (rank : ptr -> nat) :
  (forall q e parent,
     heap !! q = Some e ->
     chain !! Object_InReplyTo (Entry_Object e) = Some parent ->
     parent <> q ->
     rank parent < rank q) ->
  forall fuel p count,
    rank p < fuel -> exists result, walkReplyChain fuel heap chain p count = Some result.
Proof.
  intros Hrank. induction fuel as [|fuel IH]; intros p count Hp; [lia|]. simpl.
  destruct (heap !! p) as [e|] eqn:He; [|by eexists].
  destruct (Nat.leb _ 0); [by eexists|].
  destruct (chain !! _) as [parent|] eqn:Hchain; [|by eexists].
  destruct (decide (parent = p)) as [|Hne]; [by eexists|].
  apply IH. specialize (Hrank p e parent He Hchain Hne). lia.
Qed.

(** X21. When the parents that the map lists go down some rank, the walk
    from a toot returns, and returns the same whatever the bound on its
    iterations, once the bound exceeds the rank of the toot. *)
Theorem walkReplyChain_returns_on_ranked_chain (heap : list ActivityEntry)
    (chain : gmap string ptr) (rank : ptr -> nat) (p : ptr) (count : Z) :
  (forall q e parent,
     heap !! q = Some e ->
     chain !! Object_InReplyTo (Entry_Object e) = Some parent ->
     parent <> q ->
     rank parent < rank q) ->
  exists result, forall fuel,
    rank p < fuel -> walkReplyChain fuel heap chain p count = Some result.
Proof.
  intros Hrank.
  destruct (walkReplyChain_returns heap chain rank Hrank (S (rank p)) p count)
    as [result Hresult]; [lia|].
  exists result. intros fuel Hfuel.
  apply (walkReplyChain_more_fuel (S (rank p))); [lia|done].
Qed.

(** X22. With the map that [newOutbox] built, the walk from an allocated
    entry never follows a nil pointer. *)
Theorem walk_of_outbox_never_follows_nil (heap : list ActivityEntry)
    (totalItems : Z) (dir : string) (fuel : nat) (p : ptr) (count : Z) :
  p < length heap ->
  walkReplyChain fuel heap (ThreadIDChain (newOutbox heap totalItems dir)) p count
  <> Some NilDereference.
Proof.
  pose proof (newOutbox_chain_allocated heap totalItems dir) as Hallocated.
  revert Hallocated. generalize (ThreadIDChain (newOutbox heap totalItems dir)).
  intros chain Hallocated.
  revert p count. induction fuel as [|fuel IH]; intros p count Hp; simpl; [done|].
  destruct (heap !! p) as [e|] eqn:He; [|apply lookup_ge_None in He; lia].
  destruct (Nat.leb _ 0); [done|].
  destruct (chain !! _) as [parent|] eqn:Hchain; [|done].
  destruct (decide (parent = p)); [done|].
  apply IH. by apply Hallocated in Hchain.
Qed.

Lemma walkReplyChain_root (fuel : nat) (heap : list ActivityEntry)
    (chain : gmap string ptr) (p : ptr) (count : Z) (root : ptr) (count' : Z) :
  walkReplyChain fuel heap chain p count = Some (ThreadRoot root count') ->
  isThreadRoot heap chain root.
Proof.
  revert p count. induction fuel as [|fuel IH]; intros p count; simpl; [done|].
  destruct (heap !! p) as [e|] eqn:Hp; [|done].
  destruct (Object_InReplyTo (Entry_Object e)) as [|c rest] eqn:Hreply; simpl.
  { intros [= <- <-]. exists e. split; [done|]. by left. }
  destruct (chain !! String c rest) as [parent|] eqn:Hchain.
  2:{ intros [= <- <-]. exists e. split; [done|]. right. by rewrite Hreply. }
  destruct (decide (parent = p)); [done|apply IH].
Qed.

Lemma resolveThreads_roots (fuel : nat) (heap : list ActivityEntry)
    (chain : gmap string ptr) (items : list ptr) (roots0 roots : list (ptr * ptr))
    (count0 count : Z) :
  resolveThreads fuel heap chain items roots0 count0 = Some (inr (roots, count)) ->
  exists found,
    roots = roots0 ++ found
    /\ found.*1 = items
    /\ Forall (isThreadRoot heap chain) found.*2.
Proof.
  revert roots0 count0. induction items as [|p items IH]; intros roots0 count0; simpl.
  - intros [= <- <-]. exists []. by rewrite app_nil_r.
  - destruct (walkReplyChain fuel heap chain p count0) as [[root c|err|]|] eqn:Hwalk;
      try done.
    intros (found & -> & Hitems & Hroots)%IH.
    exists ((p, root) :: found). rewrite <- app_assoc. split; [done|].
    rewrite !fmap_cons. split; [by f_equal|]. constructor; [|done].
    by apply (walkReplyChain_root fuel heap chain p count0 root c).
Qed.

(** X23. When the walks of all the items return without error, every item
    has been given a root, in the order of the items, and each of these
    roots is a toot at which a walk stops: it replies to nothing that the
    map holds. *)
Theorem resolveThreads_gives_every_item_a_root (fuel : nat)
    (heap : list ActivityEntry) (chain : gmap string ptr) (items : list ptr)
    (roots : list (ptr * ptr)) (count : Z) :
  resolveThreads fuel heap chain items [] 0 = Some (inr (roots, count)) ->
  roots.*1 = items /\ Forall (isThreadRoot heap chain) roots.*2.
Proof. by intros (found & -> & ? & ?)%resolveThreads_roots. Qed.

End ChainWalk.


(** * The files that [renderTootsToDisk] writes *)

Section RenderedFiles.
Import MastodonToHugo HugoRest RenderToDisk.
Context {R : GoRuntime} {O : OS}.
Variables (fuel : nat) (heap : list ActivityEntry).
Variables (outputRoot nowTime : string) (filteredOutbox : Outbox).

Lemma walkReplyChain_root_any_count (chain : gmap string ptr) (p : ptr)
    (count count0 : Z) (root : ptr) (count' : Z) :
  walkReplyChain fuel heap chain p count = Some (ThreadRoot root count') ->
  exists count0', walkReplyChain fuel heap chain p count0 = Some (ThreadRoot root count0').
Proof.
  revert p count count0. induction fuel as [|n IH]; intros p count count0; simpl;
    [done|].
  destruct (heap !! p) as [e|]; [|done].
  destruct (Nat.leb _ 0); [intros [= <- <-]; by eexists|].
  destruct (chain !! _) as [parent|]; [|intros [= <- <-]; by eexists].
  destruct (decide (parent = p)); [done|]. apply IH.
Qed.

Lemma copyAttachments_inv (dir : string) (attachments : list ActivityObjectAttachment)
    (st st' : RenderState) :
  copyAttachments filteredOutbox dir st attachments = inl st' ->
  (forall a, a ∈ attachments ->
     exists copied,
       os_Open (path_Join [ArchiveDirectoryRoot filteredOutbox; Attachment_URL a])
       = Main.OpenOK copied None)
  /\ (forall f,
        (forall a, a ∈ attachments ->
           path_Join [dir; Attachment_BaseFilename a] <> f) ->
        files st' !! f = files st !! f)
  /\ (forall f, is_Some (files st !! f) -> is_Some (files st' !! f))
  /\ (forall a, a ∈ attachments ->
        is_Some (files st' !! path_Join [dir; Attachment_BaseFilename a]))
  /\ publishingStats st'
     = Nat.iter (length attachments) incMediaFilesCount (publishingStats st).
Proof.
  revert st. induction attachments as [|a attachments IH]; intros st; simpl.
  { intros [= <-]. repeat split; try done; intros ? ?%elem_of_nil; done. }
  unfold copyAttachment at 1.
  destruct (os_Open _) as [err|copied [err|]] eqn:Hopen; simpl; try done.
  { by destruct (os_Create _). }
  destruct (os_Create _); simpl; [done|].
  intros (Hsrc & Hother & Hkeeps & Hdest & Hstats)%IH. simpl in *.
  split; [|split; [|split; [|split]]].
  - intros b [->|Hb]%elem_of_cons; [by eexists|by apply Hsrc].
  - intros f Hf. rewrite Hother by (intros b Hb; apply Hf; by right).
    rewrite lookup_insert_ne; [done|]. apply Hf. by left.
  - intros f Hf. apply Hkeeps.
    destruct (decide (path_Join [dir; Attachment_BaseFilename a] = f)) as [<-|];
      [by rewrite lookup_insert_eq|by rewrite lookup_insert_ne].
  - intros b [->|Hb]%elem_of_cons; [|by apply Hdest].
    apply Hkeeps. by rewrite lookup_insert_eq.
  - rewrite Hstats. clear. induction (length attachments) as [|n IHn]; [done|].
    simpl. by rewrite IHn.
Qed.

Lemma renderToot_inv (disk disk' : gmap string string) (path : string)
    (item : ActivityEntry) :
  renderToot nowTime disk path item = inl disk' ->
  disk'
  = <[path := default (TEMPLATE_TOOT_FRONTMATTER item nowTime) (disk !! path)
              +:+ TEMPLATE_TOOT item]> disk.
Proof.
  unfold renderToot. destruct (os_Stat path); [done|].
  destruct (disk !! path) as [existing|]; destruct (os_OpenFile path); try done.
  - destruct (template_Execute path _); [done|]. by intros [= <-].
  - destruct (template_Execute path (TEMPLATE_TOOT_FRONTMATTER _ _)); [done|].
    destruct (template_Execute path (TEMPLATE_TOOT _)); [done|]. by intros [= <-].
Qed.

Lemma renderItem_inv (st st' : RenderState) (p : ptr) :
  renderItem fuel heap outputRoot nowTime filteredOutbox st p = Returned st' ->
  exists item dir disk count,
    heap !! p = Some item
    /\ bundleOf fuel heap outputRoot filteredOutbox p = Some dir
    /\ renderToot nowTime (files st) (path_Join [dir; "index.md"]) item = inl disk
    /\ copyAttachments filteredOutbox dir
         {| files := disk;
            publishingStats := withReplyThreadsCount (publishingStats st) count |}
         (Object_Attachments (Entry_Object item)) = inl st'.
Proof.
  unfold renderItem, bundleOf.
  destruct (walkReplyChain fuel heap _ p _) as [[root count|err|]|] eqn:Hwalk;
    try done.
  destruct (walkReplyChain_root_any_count _ _ _ 0 _ _ Hwalk) as [count0 ->].
  destruct (heap !! root) as [rootEntry|]; [|done].
  destruct (heap !! p) as [item|]; [|done].
  destruct (tootRootBundleDirectory outputRoot rootEntry) as [dir|]; [|done].
  destruct (ensureDirectory dir); [done|]. cbv zeta.
  destruct (renderToot _ _ _ _) as [disk|] eqn:Hrender; [|done].
  destruct (copyAttachments _ _ _ _) as [st1|] eqn:Hcopy; [|done].
  intros [= <-]. by exists item, dir, disk, count.
Qed.

Lemma threadFile_cons (existing : option string) (item : ActivityEntry)
    (toots : list ActivityEntry) :
  threadFile nowTime (threadFile nowTime existing [item]) toots
  = threadFile nowTime existing (item :: toots).
Proof.
  destruct toots as [|next toots]; [done|]. unfold threadFile.
  change (map TEMPLATE_TOOT (item :: next :: toots))
    with (TEMPLATE_TOOT item :: map TEMPLATE_TOOT (next :: toots)).
  rewrite (concat_cons (TEMPLATE_TOOT item) (map TEMPLATE_TOOT (next :: toots))).
  change (String.concat "" (map TEMPLATE_TOOT [item])) with (TEMPLATE_TOOT item).
  simpl default. by rewrite string_app_assoc.
Qed.

Lemma noCopyTo_cons (f : string) (p : ptr) (items : list ptr) :
  noCopyTo fuel heap outputRoot filteredOutbox f (p :: items) ->
  noCopyTo fuel heap outputRoot filteredOutbox f items.
Proof. intros Hno q item dir a Hq. apply Hno. by right. Qed.

Lemma renderLoop_files (f : string) (items : list ptr) (st st' : RenderState) :
  renderLoop fuel heap outputRoot nowTime filteredOutbox st items = Returned st' ->
  noCopyTo fuel heap outputRoot filteredOutbox f items ->
  files st' !! f
  = threadFile nowTime (files st !! f)
      (omap (fun p => heap !! p) (filedUnder fuel heap outputRoot filteredOutbox f items)).
Proof.
  revert st. induction items as [|p items IH]; intros st; simpl.
  { by intros [= <-] _. }
  destruct (renderItem _ _ _ _ _ st p) as [st1| | |] eqn:Hitem; try done.
  intros Hloop Hno. rewrite (IH st1 Hloop (noCopyTo_cons f p items Hno)).
  apply renderItem_inv in Hitem as (item & dir & disk & count & Hp & Hdir & Hdisk & Hcopy).
  apply renderToot_inv in Hdisk as ->.
  apply copyAttachments_inv in Hcopy as (_ & Hother & _).
  rewrite (Hother f); simpl.
  2:{ intros a Ha. apply (Hno p item dir a); [by left|done..]. }
  unfold filedUnder. rewrite filter_cons, Hdir. simpl.
  destruct (decide (Some (path_Join [dir; "index.md"]) = Some f)) as [[= <-]|Hne].
  - rewrite lookup_insert_eq.
    assert (forall l, omap (fun q => heap !! q) (p :: l)
                      = item :: omap (fun q => heap !! q) l) as ->
      by (intros l; simpl; by rewrite Hp).
    by rewrite <- threadFile_cons.
  - rewrite lookup_insert_ne; [done|]. congruence.
Qed.

(** X24. After a run that returned no error, a file to which no attachment
    was copied holds what it held before the run, or else the front matter
    of the first toot that was filed under it, followed by all the toots
    that were filed under it, in the order of the outbox: the front matter
    is that of the first toot to arrive, which the thread root need not be,
    and a file under which nothing was filed is as it was. *)
Theorem renderTootsToDisk_thread_files (disk0 : gmap string string)
    (st' : RenderState) (f : string) :
  renderTootsToDisk fuel heap outputRoot nowTime filteredOutbox disk0 = Returned st' ->
  noCopyTo fuel heap outputRoot filteredOutbox f (OrderedItems filteredOutbox) ->
  files st' !! f
  = threadFile nowTime (disk0 !! f)
      (omap (fun p => heap !! p)
         (filedUnder fuel heap outputRoot filteredOutbox f (OrderedItems filteredOutbox))).
Proof. unfold renderTootsToDisk. intros Hrun Hno. by rewrite (renderLoop_files f _ _ _ Hrun Hno). Qed.

Lemma renderLoop_sources (items : list ptr) (st st' : RenderState) :
  renderLoop fuel heap outputRoot nowTime filteredOutbox st items = Returned st' ->
  forall a, a ∈ attachmentsOf heap items ->
    exists copied,
      os_Open (path_Join [ArchiveDirectoryRoot filteredOutbox; Attachment_URL a])
      = Main.OpenOK copied None.
Proof.
  revert st. induction items as [|p items IH]; intros st; simpl.
  { intros _ a Ha. by apply elem_of_nil in Ha. }
  destruct (renderItem _ _ _ _ _ st p) as [st1| | |] eqn:Hitem; try done.
  intros Hloop a. unfold attachmentsOf. simpl.
  apply renderItem_inv in Hitem as (item & dir & disk & count & Hp & Hdir & Hdisk & Hcopy).
  rewrite Hp. simpl. intros [Ha|Ha]%elem_of_app.
  - apply copyAttachments_inv in Hcopy as (Hsrc & _). by apply Hsrc.
  - by apply (IH st1 Hloop).
Qed.

(** X25. A run returns no error only if every attachment of every toot of
    the filtered outbox could be opened in the archive and copied: one media
    file that is missing fails the whole run. *)
Theorem renderTootsToDisk_needs_every_media_file (disk0 : gmap string string)
    (st' : RenderState) (a : ActivityObjectAttachment) :
  renderTootsToDisk fuel heap outputRoot nowTime filteredOutbox disk0 = Returned st' ->
  a ∈ attachmentsOf heap (OrderedItems filteredOutbox) ->
  exists copied,
    os_Open (path_Join [ArchiveDirectoryRoot filteredOutbox; Attachment_URL a])
    = Main.OpenOK copied None.
Proof. unfold renderTootsToDisk. intros Hrun. by apply (renderLoop_sources _ _ _ Hrun). Qed.

Lemma renderLoop_keeps (items : list ptr) (st st' : RenderState) (f : string) :
  renderLoop fuel heap outputRoot nowTime filteredOutbox st items = Returned st' ->
  is_Some (files st !! f) -> is_Some (files st' !! f).
Proof.
  revert st. induction items as [|p items IH]; intros st; simpl.
  { by intros [= <-]. }
  destruct (renderItem _ _ _ _ _ st p) as [st1| | |] eqn:Hitem; try done.
  intros Hloop Hf. apply (IH st1 Hloop).
  apply renderItem_inv in Hitem as (item & dir & disk & count & Hp & Hdir & Hdisk & Hcopy).
  apply renderToot_inv in Hdisk as ->.
  apply copyAttachments_inv in Hcopy as (_ & _ & Hkeeps & _).
  apply Hkeeps. simpl.
  destruct (decide (path_Join [dir; "index.md"] = f)) as [<-|];
    [by rewrite lookup_insert_eq|by rewrite lookup_insert_ne].
Qed.

Lemma renderLoop_written (items : list ptr) (st st' : RenderState) (p : ptr) :
  renderLoop fuel heap outputRoot nowTime filteredOutbox st items = Returned st' ->
  p ∈ items ->
  exists item dir,
    heap !! p = Some item
    /\ bundleOf fuel heap outputRoot filteredOutbox p = Some dir
    /\ is_Some (files st' !! path_Join [dir; "index.md"])
    /\ forall a, a ∈ Object_Attachments (Entry_Object item) ->
         is_Some (files st' !! path_Join [dir; Attachment_BaseFilename a]).
Proof.
  revert st. induction items as [|q items IH]; intros st; simpl.
  { intros _ Hp. by apply elem_of_nil in Hp. }
  destruct (renderItem _ _ _ _ _ st q) as [st1| | |] eqn:Hitem; try done.
  intros Hloop [->|Hp]%elem_of_cons; [|by apply (IH st1)].
  apply renderItem_inv in Hitem as (item & dir & disk & count & Hq & Hdir & Hdisk & Hcopy).
  apply renderToot_inv in Hdisk as ->.
  apply copyAttachments_inv in Hcopy as (_ & _ & Hkeeps & Hdest & _).
  exists item, dir. split; [done|]. split; [done|]. split.
  - apply (renderLoop_keeps _ _ _ _ Hloop), Hkeeps. simpl.
    by rewrite lookup_insert_eq.
  - intros a Ha. by apply (renderLoop_keeps _ _ _ _ Hloop), Hdest.
Qed.

(** X26. After a run that returned no error, every toot of the filtered
    outbox is allocated and has a bundle directory, which holds an
    [index.md] and, for each attachment of the toot, a file with the base
    name of the attachment; and no file that was there before the run is
    gone. *)
Theorem renderTootsToDisk_leaves_page_and_media (disk0 : gmap string string)
    (st' : RenderState) :
  renderTootsToDisk fuel heap outputRoot nowTime filteredOutbox disk0 = Returned st' ->
  (forall p, p ∈ OrderedItems filteredOutbox ->
     exists item dir,
       heap !! p = Some item
       /\ bundleOf fuel heap outputRoot filteredOutbox p = Some dir
       /\ is_Some (files st' !! path_Join [dir; "index.md"])
       /\ forall a, a ∈ Object_Attachments (Entry_Object item) ->
            is_Some (files st' !! path_Join [dir; Attachment_BaseFilename a]))
  /\ (forall f, is_Some (disk0 !! f) -> is_Some (files st' !! f)).
Proof.
  unfold renderTootsToDisk. intros Hrun. split.
  - intros p. by apply (renderLoop_written _ _ _ _ Hrun).
  - intros f. by apply (renderLoop_keeps _ _ _ _ Hrun).
Qed.

Lemma iter_incMediaFilesCount (n : nat) (s : PublishingStats) :
  totalTootCount (Nat.iter n incMediaFilesCount s) = totalTootCount s
  /\ renderedTootCount (Nat.iter n incMediaFilesCount s) = renderedTootCount s
  /\ filteredTootCount (Nat.iter n incMediaFilesCount s) = filteredTootCount s
  /\ mediaFilesCount (Nat.iter n incMediaFilesCount s)
     = Nat.iter n (fun count => uint (count + 1)) (mediaFilesCount s).
Proof.
  induction n as [|n (IH1 & IH2 & IH3 & IH4)]; [done|]. simpl.
  by rewrite IH1, IH2, IH3, IH4.
Qed.

Lemma iter_uint (n : nat) :
  Nat.iter n (fun count => uint (count + 1)) 0%Z = uint (Z.of_nat n).
Proof.
  induction n as [|n IH]; [done|]. simpl Nat.iter. rewrite IH. unfold uint.
  rewrite Z.add_mod_idemp_l by lia. f_equal. lia.
Qed.

Lemma renderLoop_stats (items : list ptr) (st st' : RenderState) :
  renderLoop fuel heap outputRoot nowTime filteredOutbox st items = Returned st' ->
  totalTootCount (publishingStats st') = totalTootCount (publishingStats st)
  /\ renderedTootCount (publishingStats st') = renderedTootCount (publishingStats st)
  /\ filteredTootCount (publishingStats st') = filteredTootCount (publishingStats st)
  /\ mediaFilesCount (publishingStats st')
     = Nat.iter (length (attachmentsOf heap items)) (fun count => uint (count + 1))
         (mediaFilesCount (publishingStats st)).
Proof.
  revert st. induction items as [|p items IH]; intros st; simpl.
  { by intros [= <-]. }
  destruct (renderItem _ _ _ _ _ st p) as [st1| | |] eqn:Hitem; try done.
  intros (H1 & H2 & H3 & H4)%IH.
  apply renderItem_inv in Hitem as (item & dir & disk & count & Hp & Hdir & Hdisk & Hcopy).
  apply copyAttachments_inv in Hcopy as (_ & _ & _ & _ & Hstats).
  simpl in Hstats. rewrite H1, H2, H3, H4, Hstats.
  destruct (iter_incMediaFilesCount (length (Object_Attachments (Entry_Object item)))
              (withReplyThreadsCount (publishingStats st) count))
    as (-> & -> & -> & ->).
  unfold attachmentsOf. simpl. rewrite Hp. simpl.
  rewrite length_app, Nat.add_comm. by rewrite Nat.iter_add.
Qed.

(** X27. The statistics of a run that returned no error: the media files
    counted are the attachments of the filtered toots, the toots rendered
    are the filtered toots, and the toots filtered out are the total of the
    outbox less these, all in [uint] arithmetic, where a total below the
    number of filtered toots wraps around. *)
Theorem renderTootsToDisk_statistics (disk0 : gmap string string) (st' : RenderState) :
  renderTootsToDisk fuel heap outputRoot nowTime filteredOutbox disk0 = Returned st' ->
  mediaFilesCount (publishingStats st')
  = uint (Z.of_nat (length (attachmentsOf heap (OrderedItems filteredOutbox))))
  /\ renderedTootCount (publishingStats st')
     = uint (Z.of_nat (length (OrderedItems filteredOutbox)))
  /\ totalTootCount (publishingStats st') = TotalItems filteredOutbox
  /\ filteredTootCount (publishingStats st')
     = uint (TotalItems filteredOutbox - Z.of_nat (length (OrderedItems filteredOutbox))).
Proof.
  unfold renderTootsToDisk. intros (H1 & H2 & H3 & H4)%renderLoop_stats.
  rewrite H1, H2, H3, H4. simpl. by rewrite iter_uint.
Qed.

End RenderedFiles.

(** * The front matter *)

Section FrontMatter.
Import MastodonToHugo HugoRest.

Lemma renderTags_later (i : nat) (tags : list ActivityObjectTag) :
  renderTags (S i) tags
  = match tags with
    | [] => ""
    | _ => "," +:+ strings_Join (map quotedName tags) ","
    end.
Proof.
  revert i. induction tags as [|tag rest IH]; intros i; [done|].
  change (renderTags (S i) (tag :: rest))
    with ("," +:+ dq +:+ Tag_Name tag +:+ dq +:+ renderTags (S (S i)) rest).
  rewrite IH. destruct rest as [|next rest].
  - change (strings_Join (map quotedName [tag]) ",") with (quotedName tag).
    unfold quotedName. by rewrite ?string_app_assoc, ?string_app_nil_r.
  - change (strings_Join (map quotedName (tag :: next :: rest)) ",")
      with (quotedName tag +:+ "," +:+ strings_Join (map quotedName (next :: rest)) ",").
    unfold quotedName. by rewrite ?string_app_assoc.
Qed.

(** X28. The [tags] line of the front matter lists the names of the tags
    of the toot, each between double quotes, with a comma between two of
    them and none before the first or after the last; for a toot that
    [UnmarshalJSON] decoded the list ends with the tag [Social Media]. *)
Theorem frontmatter_tags_comma_separated (ao : ActivityObject)
    (tags : list ActivityObjectTag) :
  renderTags 0 tags = strings_Join (map quotedName tags) ","
  /\ renderTags 0 (Object_Tags (finishObject ao))
     = strings_Join
         (map quotedName (map withoutHash (Object_Tags ao))
            ++ [dq +:+ "Social Media" +:+ dq]) ",".
Proof.
  assert (forall l, renderTags 0 l = strings_Join (map quotedName l) ",") as Hjoin.
  { intros [|tag rest]; [done|].
    change (renderTags 0 (tag :: rest))
      with ("" +:+ dq +:+ Tag_Name tag +:+ dq +:+ renderTags 1 rest).
    rewrite renderTags_later. destruct rest as [|next rest].
    - change (strings_Join (map quotedName [tag]) ",") with (quotedName tag).
      unfold quotedName. by rewrite ?string_app_assoc, ?string_app_nil_r.
    - change (strings_Join (map quotedName (tag :: next :: rest)) ",")
        with (quotedName tag +:+ "," +:+ strings_Join (map quotedName (next :: rest)) ",").
      unfold quotedName. by rewrite ?string_app_assoc. }
  split; [apply Hjoin|]. rewrite Hjoin. unfold finishObject. simpl Object_Tags.
  by rewrite map_app.
Qed.

End FrontMatter.

(** * The roots of the threads *)

Section FiledRoots.
Import Main MainRest.
Context {R : GoRuntime}.



End FiledRoots.

(** * Self-replies without their parent *)

Section Orphans.
Import Main MainRest.
Context {R : GoRuntime} {L : GoRuntimeLaws R}.

(** X30. A collected toot that is a self-reply to an identifier that no
    collected toot carries is in no thread: it is skipped as a root, and no
    chain of replies reaches it. *)
Theorem buildThreads_drops_self_reply_without_parent (fuel : nat)
    (allToots : list ActivityWithNote)
    (threadsByDate : gmap string (list TootThread)) (err : list string)
    (toot : ActivityWithNote) (target date : string) (threads : list TootThread)
    (thread : TootThread) :
  buildThreads fuel allToots = Some (threadsByDate, err) ->
  Note_InReplyTo (Object toot) = Some target ->
  isSelfReply toot = true ->
  (forall c, c ∈ allToots -> Note_ID (Object c) <> target) ->
  threadsByDate !! date = Some threads ->
  thread ∈ threads ->
  Root thread <> toot /\ toot ∉ Replies thread.
Proof.
  intros Hbuild Htarget Hself Hmissing Hdate Hthread.
  destruct (buildThreads_built fuel allToots _ _ Hbuild date threads thread Hdate Hthread)
    as (Hroot & Hrootself & Hreplies & _).
  apply findReplies_chains in Hreplies. split.
  - intros Heq. rewrite Heq in Hrootself. congruence.
  - intros Hin. destruct (Hreplies toot Hin) as (_ & target' & Htarget' & Hparent).
    assert (target' = target) as -> by congruence.
    destruct Hparent as [Hparent|(x & Hx & Hid)].
    + by apply (Hmissing (Root thread)).
    + destruct (Hreplies x Hx) as (Hxall & _). by apply (Hmissing x).
Qed.

End Orphans.

(** * The file of a date *)

Section DateDocument.
Import Main MainRest.
Context {R : GoRuntime} {L : GoRuntimeLaws R}.

Lemma foldl_appends {A : Type} (step : string -> A -> string) (l : list A)
    (f : string) :
  (forall f a, step f a = f +:+ step "" a) ->
  foldl step f l = f +:+ String.concat "" (map (step "") l).
Proof.
  intros Hstep. revert f. induction l as [|a l IH]; intros f.
  - simpl. by rewrite string_app_nil_r.
  - change (foldl step f (a :: l)) with (foldl step (step f a) l).
    change (map (step "") (a :: l)) with (step "" a :: map (step "") l).
    by rewrite IH, concat_cons, (Hstep f a), string_app_assoc.
Qed.

Lemma writeAttachments_appends (f : string) (atts : list Attachment)
    (extractedMedia : gmap string string) :
  writeAttachments f atts extractedMedia
  = f +:+ writeAttachments "" atts extractedMedia.
Proof.
  unfold writeAttachments.
  rewrite (foldl_appends (fun f att => writeAttachment f att extractedMedia) atts f)
    by (intros; apply writeAttachment_appends).
  by rewrite (foldl_appends (fun f att => writeAttachment f att extractedMedia) atts "")
    by (intros; apply writeAttachment_appends).
Qed.

Lemma writeHashtags_appends (hashtags : list string) (f : string) (i : nat) :
  writeHashtags f i hashtags = f +:+ writeHashtags "" i hashtags.
Proof.
  revert f i. induction hashtags as [|tag rest IH]; intros f i; simpl.
  - by rewrite string_app_nil_r.
  - rewrite IH. symmetry. rewrite IH. symmetry.
    destruct (Nat.ltb 0 i); by rewrite <- ?string_app_assoc, ?string_app_nil_r.
Qed.

Lemma writeHeader_appends (f headerLevel content : string) :
  writeHeader f headerLevel content = f +:+ writeHeader "" headerLevel content.
Proof.
  unfold writeHeader. destruct (String.eqb headerLevel "##"); [done|].
  by rewrite string_app_nil_r.
Qed.

Lemma writeAttachmentBlock_appends (f : string) (atts : list Attachment)
    (extractedMedia : gmap string string) :
  writeAttachmentBlock f atts extractedMedia
  = f +:+ writeAttachmentBlock "" atts extractedMedia.
Proof.
  unfold writeAttachmentBlock. destruct (Nat.ltb 0 (length atts)).
  - rewrite writeAttachments_appends. symmetry. rewrite writeAttachments_appends.
    by rewrite <- ?string_app_assoc, ?string_app_nil_r.
  - by rewrite string_app_nil_r.
Qed.

Lemma writeContentWarning_appends (f : string) (summary : option string) :
  writeContentWarning f summary = f +:+ writeContentWarning "" summary.
Proof.
  destruct summary as [summary|]; simpl; [destruct (negb _)|];
    by rewrite ?string_app_nil_r.
Qed.

Lemma writeTagBlock_appends (f : string) (tags : list Tag) :
  writeTagBlock f tags = f +:+ writeTagBlock "" tags.
Proof.
  unfold writeTagBlock.
  destruct (Nat.ltb 0 (length tags)); [|by rewrite string_app_nil_r].
  destruct (Nat.ltb 0 _); [|by rewrite string_app_nil_r].
  rewrite writeHashtags_appends. symmetry. rewrite writeHashtags_appends.
  by rewrite <- ?string_app_assoc, ?string_app_nil_r.
Qed.

Lemma writeToot_appends (f : string) (toot : ActivityWithNote)
    (headerLevel : string) (extractedMedia : gmap string string) :
  writeToot f toot headerLevel extractedMedia
  = f +:+ writeToot "" toot headerLevel extractedMedia.
Proof.
  unfold writeToot. cbv zeta.
  rewrite writeTagBlock_appends, writeContentWarning_appends,
    writeAttachmentBlock_appends, writeHeader_appends.
  symmetry.
  rewrite writeTagBlock_appends, writeContentWarning_appends,
    writeAttachmentBlock_appends.
  by rewrite <- ?string_app_assoc, ?string_app_nil_r.
Qed.

Lemma writeThread_text (f : string) (thread : TootThread)
    (extractedMedia : gmap string string) :
  writeThread f thread extractedMedia = f +:+ threadText extractedMedia thread.
Proof.
  unfold writeThread, threadText. cbv zeta.
  rewrite (foldl_appends
             (fun f reply => writeToot (f +:+ nl) reply "###" extractedMedia)).
  - assert (map (fun reply => writeToot ("" +:+ nl) reply "###" extractedMedia)
              (Replies thread)
            = map (fun reply => nl +:+ writeToot "" reply "###" extractedMedia)
                (Replies thread)) as ->
      by (apply map_ext; intros reply; change ("" +:+ nl) with nl;
          apply writeToot_appends).
    rewrite writeToot_appends. by rewrite <- ?string_app_assoc, ?string_app_nil_r.
  - intros g reply. rewrite writeToot_appends. symmetry.
    rewrite writeToot_appends. by rewrite <- ?string_app_assoc, ?string_app_nil_r.
Qed.

(** X29. The file of a date is its front matter, the heading
    [# Toots from] with the date, and then the texts of its threads one
    after the other, each thread being its root under a second-level
    heading, its replies each after an empty line and without a heading, and
    a closing rule; the threads are those of the date, in non-increasing
    order of the [published] values of their roots. *)
Theorem dateDocument_is_threads_latest_first (date generatedAt : string)
    (threads : list TootThread) (extractedMedia : gmap string string) :
  dateDocument date generatedAt threads extractedMedia
  = (frontmatter date generatedAt +:+ "# Toots from " +:+ date +:+ nl +:+ nl)
    +:+ String.concat ""
          (map (threadText extractedMedia) (sort_Slice lessRootDesc threads))
  /\ sort_Slice lessRootDesc threads ≡ₚ threads
  /\ Sorted (fun earlier later =>
               String.ltb (Published (Root earlier)) (Published (Root later)) = false)
       (sort_Slice lessRootDesc threads).
Proof.
  split; [|split].
  - unfold dateDocument. cbv zeta.
    rewrite (foldl_appends (fun f thread => writeThread f thread extractedMedia)).
    + f_equal. f_equal. apply map_ext. intros thread.
      by rewrite writeThread_text.
    + intros f thread. rewrite writeThread_text. symmetry.
      by rewrite writeThread_text.
  - apply sort_Slice_perm.
  - apply (sort_Slice_sorted _ lessRootDesc threads).
    apply (key_order_desc_strict_weak (fun thread => Published (Root thread))).
Qed.

End DateDocument.

(** * The properties above, at the sample archives *)

Lemma buildThreads_threads_chain_back_witness :
  Main.Root Samples.assembledThread ∈ Samples.threadToots
  /\ Main.isSelfReply (Main.Root Samples.assembledThread) = false
  /\ (exists t,
        time_Parse_RFC3339 (GoRuntime := Reference.runtime)
          (Main.Published (Main.Root Samples.assembledThread)) = inl t
        /\ Format_date t = "2024-02-02")
  /\ MainRest.chainsBackTo Samples.threadToots
       (Main.Note_ID (Main.Object (Main.Root Samples.assembledThread)))
       (Main.Replies Samples.assembledThread)
  /\ (forall r, r ∈ Main.Replies Samples.assembledThread ->
        Main.Note_InReplyTo (Main.Object r) <> None).
Proof.
  apply (buildThreads_threads_chain_back (R := Reference.runtime) (L := reference_laws)
           3 Samples.threadToots
           {[ "2024-02-02" := [Samples.assembledThread] ]} []
           "2024-02-02" [Samples.assembledThread] Samples.assembledThread).
  - vm_compute. reflexivity.
  - vm_compute. reflexivity.
  - apply list_elem_of_here.
Defined.

Lemma buildThreads_threads_complete_witness :
  (forall c, c ∈ Samples.threadToots ->
     Main.Note_InReplyTo (Main.Object c)
     = Some (Main.Note_ID (Main.Object (Main.Root Samples.assembledThread))) ->
     c ∈ Main.Replies Samples.assembledThread)
  /\ MainRest.closedUnderReplies Samples.threadToots
       (Main.Replies Samples.assembledThread).
Proof.
  apply (buildThreads_threads_complete (R := Reference.runtime) (L := reference_laws)
           3 Samples.threadToots
           {[ "2024-02-02" := [Samples.assembledThread] ]} []
           "2024-02-02" [Samples.assembledThread] Samples.assembledThread).
  - vm_compute. reflexivity.
  - vm_compute. reflexivity.
  - apply list_elem_of_here.
Defined.

Lemma writeMarkdownFiles_one_file_per_date_latest_first_witness :
  let threadsByDate : gmap string (list Main.TootThread) :=
    {[ "2024-02-02" := [Samples.assembledThread] ]} in
  let written :=
    Main.writeMarkdownFiles (H := Reference.runtime) threadsByDate "out" ∅ "now" in
  length written = size threadsByDate
  /\ written.*1
     = map (Main.datePath (H := Reference.runtime) "out")
         (Main.sortedDates (H := Reference.runtime) threadsByDate)
  /\ Main.sortedDates (H := Reference.runtime) threadsByDate
     ≡ₚ (map_to_list threadsByDate).*1
  /\ Sorted (fun earlier later => String.ltb later earlier = true)
       (Main.sortedDates (H := Reference.runtime) threadsByDate).
Proof.
  exact (writeMarkdownFiles_one_file_per_date_latest_first
           (R := Reference.runtime) (L := reference_laws)
           {[ "2024-02-02" := [Samples.assembledThread] ]} "out" "now" ∅).
Defined.

Lemma buildThreads_returns_on_well_founded_replies_witness :
  is_Some (Main.buildThreads (H := Reference.runtime) 3 Samples.threadToots).
Proof.
  apply (buildThreads_returns_on_well_founded_replies (R := Reference.runtime)
           Samples.threadToots Samples.threadRank 3).
  - intros c target Hc Htarget.
    repeat (apply elem_of_cons in Hc as [->|Hc]); [..|by apply elem_of_nil in Hc];
      simpl in Htarget; try discriminate;
      injection Htarget as <-; vm_compute; lia.
  - intros id. unfold Samples.threadRank.
    destruct (String.eqb id _); [lia|]. destruct (String.eqb id _); lia.
Defined.

Lemma selfPublishFilter_accepts_only_followers_posts_witness :
  let entry :=
    HugoSamples.entry (HugoSamples.statusID "41") (HugoSamples.statusID "40")
      "<p>second</p>" in
  MastodonToHugo.Entry_Type entry = "Create"
  /\ MastodonToHugo.Object_CC (MastodonToHugo.Entry_Object entry)
     = [MastodonToHugo.MY_FOLLOWERS_URL]
  /\ (MastodonToHugo.Object_InReplyTo (MastodonToHugo.Entry_Object entry) = ""
      \/ strings_HasPrefix
           (MastodonToHugo.Object_InReplyTo (MastodonToHugo.Entry_Object entry))
           ("https://" +:+ MastodonToHugo.HOST +:+ "/users/" +:+ MastodonToHugo.USER)
         = true).
Proof.
  apply (selfPublishFilter_accepts_only_followers_posts
           (HugoSamples.entry (HugoSamples.statusID "41") (HugoSamples.statusID "40")
              "<p>second</p>")).
  vm_compute. reflexivity.
Defined.

Lemma filterToots_keeps_accepted_and_the_chain_witness :
  let ob := MastodonToHugo.newOutbox HugoSamples.threadHeap 3 "/archive" in
  let filtered :=
    MastodonToHugo.filterToots HugoSamples.threadHeap ob
      MastodonToHugo.selfPublishFilter in
  MastodonToHugo.OrderedItems filtered
    = filter (fun p => HugoRest.accepted HugoSamples.threadHeap
                         MastodonToHugo.selfPublishFilter p = true)
        (MastodonToHugo.OrderedItems ob)
  /\ MastodonToHugo.ThreadIDChain filtered = MastodonToHugo.ThreadIDChain ob
  /\ MastodonToHugo.TotalItems filtered = MastodonToHugo.TotalItems ob.
Proof.
  apply (filterToots_keeps_accepted_and_the_chain HugoSamples.threadHeap
           (MastodonToHugo.newOutbox HugoSamples.threadHeap 3 "/archive")
           MastodonToHugo.selfPublishFilter).
  repeat constructor; by eexists.
Defined.

Lemma walkReplyChain_stops_at_root_or_own_parent_witness :
  HugoRest.isThreadRoot HugoSamples.threadHeap
    (MastodonToHugo.ThreadIDChain HugoSamples.threadOutbox) 0.
Proof.
  apply (walkReplyChain_stops_at_root_or_own_parent 3 HugoSamples.threadHeap
           (MastodonToHugo.ThreadIDChain HugoSamples.threadOutbox) 2 0
           (MastodonToHugo.ThreadRoot 0 2)).
  vm_compute. reflexivity.
Defined.

Lemma walkReplyChain_returns_on_ranked_chain_witness :
  exists result, forall fuel,
    2 < fuel ->
    MastodonToHugo.walkReplyChain fuel HugoSamples.threadHeap
      (MastodonToHugo.ThreadIDChain HugoSamples.threadOutbox) 2 0 = Some result.
Proof.
  apply (walkReplyChain_returns_on_ranked_chain HugoSamples.threadHeap
           (MastodonToHugo.ThreadIDChain HugoSamples.threadOutbox) (fun p => p) 2 0).
  intros q e parent Hq Hparent _.
  destruct q as [|[|[|q]]]; simpl in Hq; try discriminate;
    injection Hq as <-; vm_compute in Hparent; try discriminate;
    injection Hparent as <-; lia.
Defined.

Lemma walk_of_outbox_never_follows_nil_witness :
  2 < length HugoSamples.threadHeap
  /\ MastodonToHugo.walkReplyChain 3 HugoSamples.threadHeap
       (MastodonToHugo.ThreadIDChain
          (MastodonToHugo.newOutbox HugoSamples.threadHeap 3 "/archive")) 2 0
     <> Some MastodonToHugo.NilDereference.
Proof.
  split; [simpl; lia|].
  apply (walk_of_outbox_never_follows_nil HugoSamples.threadHeap 3 "/archive" 3 2 0).
  simpl. lia.
Defined.

Lemma resolveThreads_gives_every_item_a_root_witness :
  let chain := MastodonToHugo.ThreadIDChain HugoSamples.threadOutbox in
  let roots := [(0, 0); (1, 0); (2, 0)] in
  roots.*1 = MastodonToHugo.OrderedItems HugoSamples.threadOutbox
  /\ Forall (HugoRest.isThreadRoot HugoSamples.threadHeap chain) roots.*2.
Proof.
  apply (resolveThreads_gives_every_item_a_root 3 HugoSamples.threadHeap
           (MastodonToHugo.ThreadIDChain HugoSamples.threadOutbox)
           (MastodonToHugo.OrderedItems HugoSamples.threadOutbox)
           [(0, 0); (1, 0); (2, 0)] 3).
  vm_compute. reflexivity.
Defined.

Lemma renderTootsToDisk_thread_files_witness :
  let f := "/site/2024/03/40/index.md" in
  RenderToDisk.files RenderSamples.finalState !! f
  = RenderToDisk.threadFile "now" ((∅ : gmap string string) !! f)
      (omap (fun p => RenderSamples.heap !! p)
         (RenderToDisk.filedUnder (H := Reference.runtime) (H0 := RenderSamples.os)
            4 RenderSamples.heap "/site" RenderSamples.outbox f
            (MastodonToHugo.OrderedItems RenderSamples.outbox))).
Proof.
  apply (renderTootsToDisk_thread_files (R := Reference.runtime)
           (O := RenderSamples.os) 4 RenderSamples.heap "/site" "now"
           RenderSamples.outbox ∅ RenderSamples.finalState
           "/site/2024/03/40/index.md").
  - vm_compute. reflexivity.
  - intros p item dir a Hp Hitem Hdir Ha.
    change (MastodonToHugo.OrderedItems RenderSamples.outbox) with [0; 1; 2; 3] in Hp.
    repeat (apply elem_of_cons in Hp as [->|Hp]); [..|by apply elem_of_nil in Hp];
      vm_compute in Hitem; injection Hitem as <-; simpl in Ha;
      try (by apply elem_of_nil in Ha).
    vm_compute in Hdir. injection Hdir as <-.
    repeat (apply elem_of_cons in Ha as [->|Ha]); [..|by apply elem_of_nil in Ha];
      vm_compute; discriminate.
Defined.

Lemma renderTootsToDisk_needs_every_media_file_witness :
  exists copied,
    RenderToDisk.os_Open (OS := RenderSamples.os)
      (RenderToDisk.path_Join (OS := RenderSamples.os)
         [MastodonToHugo.ArchiveDirectoryRoot RenderSamples.outbox;
          MastodonToHugo.Attachment_URL HugoSamples.videoAttachment])
    = Main.OpenOK copied None.
Proof.
  apply (renderTootsToDisk_needs_every_media_file (R := Reference.runtime)
           (O := RenderSamples.os) 4 RenderSamples.heap "/site" "now"
           RenderSamples.outbox ∅ RenderSamples.finalState
           HugoSamples.videoAttachment).
  - vm_compute. reflexivity.
  - change (RenderToDisk.attachmentsOf RenderSamples.heap
              (MastodonToHugo.OrderedItems RenderSamples.outbox))
      with [HugoSamples.videoAttachment; HugoSamples.pdfAttachment].
    apply list_elem_of_here.
Defined.

Lemma renderTootsToDisk_leaves_page_and_media_witness :
  (forall p, p ∈ MastodonToHugo.OrderedItems RenderSamples.outbox ->
     exists item dir,
       RenderSamples.heap !! p = Some item
       /\ RenderToDisk.bundleOf (H := Reference.runtime) (H0 := RenderSamples.os)
            4 RenderSamples.heap "/site" RenderSamples.outbox p = Some dir
       /\ is_Some (RenderToDisk.files RenderSamples.finalState
                     !! RenderToDisk.path_Join (OS := RenderSamples.os)
                          [dir; "index.md"])
       /\ forall a,
            a ∈ MastodonToHugo.Object_Attachments (MastodonToHugo.Entry_Object item) ->
            is_Some (RenderToDisk.files RenderSamples.finalState
                       !! RenderToDisk.path_Join (OS := RenderSamples.os)
                            [dir; MastodonToHugo.Attachment_BaseFilename a]))
  /\ (forall f, is_Some ((∅ : gmap string string) !! f) ->
        is_Some (RenderToDisk.files RenderSamples.finalState !! f)).
Proof.
  apply (renderTootsToDisk_leaves_page_and_media (R := Reference.runtime)
           (O := RenderSamples.os) 4 RenderSamples.heap "/site" "now"
           RenderSamples.outbox ∅ RenderSamples.finalState).
  vm_compute. reflexivity.
Defined.

Lemma renderTootsToDisk_statistics_witness :
  let stats := RenderToDisk.publishingStats RenderSamples.finalState in
  MastodonToHugo.mediaFilesCount stats
  = MastodonToHugo.uint
      (Z.of_nat (length (RenderToDisk.attachmentsOf RenderSamples.heap
                           (MastodonToHugo.OrderedItems RenderSamples.outbox))))
  /\ MastodonToHugo.renderedTootCount stats
     = MastodonToHugo.uint
         (Z.of_nat (length (MastodonToHugo.OrderedItems RenderSamples.outbox)))
  /\ MastodonToHugo.totalTootCount stats = MastodonToHugo.TotalItems RenderSamples.outbox
  /\ MastodonToHugo.filteredTootCount stats
     = MastodonToHugo.uint
         (MastodonToHugo.TotalItems RenderSamples.outbox
          - Z.of_nat (length (MastodonToHugo.OrderedItems RenderSamples.outbox))).
Proof.
  apply (renderTootsToDisk_statistics (R := Reference.runtime)
           (O := RenderSamples.os) 4 RenderSamples.heap "/site" "now"
           RenderSamples.outbox ∅ RenderSamples.finalState).
  vm_compute. reflexivity.
Defined.

Lemma traverse_link_rules_witness :
  let tagLink :=
    [ {| Attr_Namespace := ""; Attr_Key := "href"; Attr_Val := "https://x/tags/go" |};
      {| Attr_Namespace := ""; Attr_Key := "class"; Attr_Val := "mention hashtag" |} ] in
  let plainLink :=
    [ {| Attr_Namespace := ""; Attr_Key := "href"; Attr_Val := "https://go.dev" |} ] in
  Main.traverse (MkNode ElementNode "a" tagLink [textNode "#go"]) false "see " = "see "
  /\ Main.traverse (MkNode ElementNode "a" plainLink [textNode "go.dev"]) false "see "
     = "see " +:+ "<" +:+ MainRest.lastHref plainLink "" +:+ ">".
Proof.
  split.
  - apply (proj1 (traverse_link_rules
                    [ {| Attr_Namespace := ""; Attr_Key := "href";
                         Attr_Val := "https://x/tags/go" |};
                      {| Attr_Namespace := ""; Attr_Key := "class";
                         Attr_Val := "mention hashtag" |} ]
                    [textNode "#go"] "see ")).
    reflexivity.
  - apply (proj2 (traverse_link_rules
                    [ {| Attr_Namespace := ""; Attr_Key := "href";
                         Attr_Val := "https://go.dev" |} ]
                    [textNode "go.dev"] "see ")).
    + reflexivity.
    + reflexivity.
    + vm_compute. discriminate.
Defined.

Lemma parseArchive_reads_first_outbox_witness :
  let json_Unmarshal : string -> Main.Archive + string :=
    fun _ => inl {| Main.OrderedItems := [] |} in
  MainRest.parseArchive json_Unmarshal
    ([Samples.firstCat] ++ Samples.outbox :: [Samples.secondCat])
  = MainRest.parseArchive json_Unmarshal [Samples.outbox].
Proof.
  apply (proj2 (parseArchive_reads_first_outbox
                  (fun _ => inl {| Main.OrderedItems := [] |})
                  ([Samples.firstCat] ++ Samples.outbox :: [Samples.secondCat]))
           [Samples.firstCat] Samples.outbox [Samples.secondCat]).
  - reflexivity.
  - reflexivity.
  - intros g Hg. apply list_elem_of_singleton in Hg as ->. vm_compute. discriminate.
Defined.

Lemma writeHeader_one_line_of_at_most_100_witness :
  let content := "one" +:+ nl +:+ "two" in
  Main.writeHeader "" "##" content = "## one two" +:+ nl +:+ nl
  /\ Main.writeHeader "" "###" content = "".
Proof.
  destruct (writeHeader_one_line_of_at_most_100 "" "###" ("one" +:+ nl +:+ "two"))
    as (Hheader & _ & _ & _ & _ & _ & _ & Hnone).
  split; [exact Hheader|]. apply Hnone. discriminate.
Defined.

Lemma dateDocument_is_threads_latest_first_witness :
  let threads := [Samples.assembledThread] in
  let sorted := @sort_Slice Reference.runtime _ Main.lessRootDesc threads in
  Main.dateDocument (H := Reference.runtime) "2024-02-02" "now" threads ∅
  = (Main.frontmatter "2024-02-02" "now" +:+ "# Toots from " +:+ "2024-02-02"
       +:+ nl +:+ nl)
    +:+ String.concat ""
          (map (MainRest.threadText (H := Reference.runtime) ∅) sorted)
  /\ sorted ≡ₚ threads
  /\ Sorted (fun earlier later =>
               String.ltb (Main.Published (Main.Root earlier))
                 (Main.Published (Main.Root later)) = false)
       sorted.
Proof.
  exact (dateDocument_is_threads_latest_first
           (R := Reference.runtime) (L := reference_laws)
           "2024-02-02" "now" [Samples.assembledThread] ∅).
Defined.

Lemma buildThreads_drops_self_reply_without_parent_witness :
  Main.Root Samples.assembledThread <> Samples.orphanReply
  /\ Samples.orphanReply ∉ Main.Replies Samples.assembledThread.
Proof.
  apply (buildThreads_drops_self_reply_without_parent
           (R := Reference.runtime) (L := reference_laws)
           3 (Samples.threadToots ++ [Samples.orphanReply])
           {[ "2024-02-02" := [Samples.assembledThread] ]} []
           Samples.orphanReply (Samples.statusID "7")
           "2024-02-02" [Samples.assembledThread] Samples.assembledThread).
  - vm_compute. reflexivity.
  - reflexivity.
  - vm_compute. reflexivity.
  - intros c Hc.
    repeat (apply elem_of_cons in Hc as [->|Hc]); [..|by apply elem_of_nil in Hc];
      vm_compute; discriminate.
  - vm_compute. reflexivity.
  - apply list_elem_of_here.
Defined.

